(** * Network provider lifecycle manager: a shallow embedding

    The controller of [packages/network-controller/src/NetworkController.ts]
    (module [NC]) and its later revision with the network-configuration
    registry (module [NC2]) are embedded as state-passing functions over a
    record that holds the controller object together with the pieces of the
    JavaScript runtime its behaviour depends on: the messenger's publication
    log, the mutex, the continuations waiting to resume and the requests
    whose callbacks have not run yet. The rate limiter of
    [RateLimitController.ts] (module [RateLimit]), the account tracker
    (module [AccountTracker]) and the currency rate controller (module
    [CurrencyRate]) are embedded in the same way. *)

From Stdlib Require Import String Ascii List Bool Arith Lia.
Import ListNotations.
Local Open Scope string_scope.
Local Open Scope list_scope.

(** ** JavaScript values *)

(** [a === b] on two values that are either a string or [undefined]. *)
Definition strict_eq (a b : option string) : bool :=
  match a, b with
  | Some x, Some y => String.eqb x y
  | None, None => true
  | _, _ => false
  end.

(** Truthiness of a value that is either a string or [undefined]: the empty
    string and [undefined] are falsy. *)
Definition truthy (a : option string) : bool :=
  match a with
  | Some s => negb (String.eqb s "")
  | None => false
  end.

(** What eth-query hands to a [sendAsync] callback: [cb(err)] when the
    transport or the node reports an error, [cb(null, result)] otherwise. *)
Inductive Reply (A : Type) : Type :=
| Failure (error : string)
| Success (result : A).
Arguments Failure {A} error.
Arguments Success {A} result.

(** A synchronous call either returns or throws; the controller it leaves
    behind is kept in both cases. *)
Inductive Completion (W : Type) : Type :=
| Returns (w : W)
| Throws (message : string) (w : W).
Arguments Returns {W} w.
Arguments Throws {W} message w.

Definition andThen {W : Type} (m : Completion W) (k : W -> Completion W)
  : Completion W :=
  match m with
  | Returns w => k w
  | Throws msg w => Throws msg w
  end.

Definition after {W : Type} (m : Completion W) : W :=
  match m with
  | Returns w => w
  | Throws _ w => w
  end.

Definition throws {W : Type} (m : Completion W) : bool :=
  match m with
  | Returns _ => false
  | Throws _ _ => true
  end.

(** How a promise settles. *)
Inductive Settlement (A : Type) : Type :=
| Fulfilled (value : A)
| Rejected (error : string).
Arguments Fulfilled {A} value.
Arguments Rejected {A} error.

(** The requests in flight without the [i]-th one, whose reply has come. *)
Fixpoint remove_nth {A : Type} (i : nat) (l : list A) : list A :=
  match l, i with
  | [], _ => []
  | _ :: t, O => t
  | x :: t, S j => x :: remove_nth j t
  end.

(** ** Constants of [@metamask/controller-utils] *)

Module ControllerUtils.

Definition MAINNET : string := "mainnet".
Definition RPC : string := "rpc".

(** Modelled from the spec: the table [NetworksChainId] is imported from
    [@metamask/controller-utils]; its entries are the chain ids the test
    suites use for the well-known networks ('1', '3', '4', '5', '42', the
    empty string for localhost and rpc). A type that is not a key of the
    table reads as [undefined]. *)
Definition NetworksChainId (type : string) : option string :=
  if String.eqb type "mainnet" then Some "1"
  else if String.eqb type "kovan" then Some "42"
  else if String.eqb type "rinkeby" then Some "4"
  else if String.eqb type "goerli" then Some "5"
  else if String.eqb type "ropsten" then Some "3"
  else if String.eqb type "sepolia" then Some "11155111"
  else if String.eqb type "localhost" then Some ""
  else if String.eqb type "rpc" then Some ""
  else None.

(** Modelled from the spec: the table
    [TESTNET_NETWORK_TYPE_TO_TICKER_SYMBOL] is imported from
    [@metamask/controller-utils]; the tests expect 'GoerliETH' for goerli
    and 'ETH' for mainnet. *)
Definition TESTNET_NETWORK_TYPE_TO_TICKER_SYMBOL (type : string)
  : option string :=
  if String.eqb type "kovan" then Some "KovanETH"
  else if String.eqb type "rinkeby" then Some "RinkebyETH"
  else if String.eqb type "goerli" then Some "GoerliETH"
  else if String.eqb type "ropsten" then Some "RopstenETH"
  else if String.eqb type "sepolia" then Some "SepoliaETH"
  else None.

(** [type in TABLE && TABLE[type].length > 0 ? TABLE[type] : 'ETH'] *)
Definition tickerFor (type : string) : string :=
  match TESTNET_NETWORK_TYPE_TO_TICKER_SYMBOL type with
  | Some t => if Nat.ltb 0 (String.length t) then t else "ETH"
  | None => "ETH"
  end.

End ControllerUtils.

Definition LOCALHOST_RPC_URL : string := "http://localhost:8545".
Definition loading : string := "loading".

(** ** The controller of [NetworkController.ts] *)

Module NC.
Import ControllerUtils.

(** *** State *)

Record ProviderConfig : Type := mkProviderConfig {
  rpcTarget : option string;
  type : string;
  chainId : option string;
  ticker : option string;
  nickname : option string }.

Record Block : Type := mkBlock { baseFeePerGas : option string }.

Record NetworkProperties : Type := mkProperties {
  isEIP1559Compatible : option bool }.

Record NetworkState : Type := mkState {
  network : string;
  isCustomNetwork : bool;
  providerConfig : ProviderConfig;
  properties : NetworkProperties }.

Definition defaultState : NetworkState :=
  {| network := loading;
     isCustomNetwork := false;
     providerConfig :=
       {| rpcTarget := None; type := MAINNET;
          chainId := NetworksChainId "mainnet";
          ticker := None; nickname := None |};
     properties := {| isEIP1559Compatible := Some false |} |}.

(** *** Connections *)

(** Modelled from the spec: [createInfuraClient] and [createJsonRpcClient]
    live in [./clients], outside the sources at hand. They are the spec's
    ConnectionFactory: pure construction of a request-sending handle and a
    block-observing handle from the arguments, without network I/O. *)
Inductive Endpoint : Type :=
| Infura (network : string) (projectId : option string)
| JsonRpc (rpcUrl : string) (chainId : option string).

Record Client : Type := mkClient {
  networkMiddleware : Endpoint;
  clientBlockTracker : Endpoint }.

(** Modelled from the spec: the hosted-provider connection, parameterized
    by the network name and the project identifier. *)
Definition createInfuraClient (type : string) (projectId : option string)
  : Client :=
  {| networkMiddleware := Infura type projectId;
     clientBlockTracker := Infura type projectId |}.

(** Modelled from the spec: the connection to a given endpoint. *)
Definition createJsonRpcClient (rpcTarget : string)
  (chainId : option string) : Client :=
  {| networkMiddleware := JsonRpc rpcTarget chainId;
     clientBlockTracker := JsonRpc rpcTarget chainId |}.

(** A provider is the engine built around a middleware, together with the
    number of ['error'] listeners installed on it; the only listener the
    controller ever installs is [verifyNetwork.bind(this)]. *)
Record Provider : Type := mkProvider {
  engine : Endpoint;
  errorListeners : nat }.

Definition providerFromEngine (m : Endpoint) : Provider :=
  {| engine := m; errorListeners := 0 |}.

Definition on_error (p : Provider) : Provider :=
  {| engine := engine p; errorListeners := S (errorListeners p) |}.

(** [sendAsync] tells whether the object has a function-valued [sendAsync]
    property; the real EthQuery class always has one. *)
Record EthQuery : Type := mkEthQuery {
  currentProvider : Endpoint;
  sendAsync : bool }.

Definition new_EthQuery (p : Provider) : EthQuery :=
  {| currentProvider := engine p; sendAsync := true |}.

(** *** Messages, requests and the controller object *)

Inductive Event : Type :=
| StateChange (s : NetworkState)
| ProviderConfigChange (c : ProviderConfig)
| ProviderChange (p : Provider).

Inductive Method : Type := net_version | eth_getBlockByNumber.

(** The two closures the controller passes to [sendAsync]: the callback of
    [lookupNetwork], which owns [releaseLock] of round [round], and the
    callback of [getEIP1559Compatibility], which has captured the
    [properties] object read when the probe was called. *)
Inductive Callback : Type :=
| lookupNetwork_cb (round : nat)
| getEIP1559Compatibility_cb (properties : NetworkProperties).

Record Request : Type := mkRequest {
  method : Method;
  sentTo : Endpoint;
  callback : Callback }.

(** The mutex is [locked] with a first-in first-out queue [waiting];
    [resuming] holds the rounds whose [await this.mutex.acquire()] has been
    granted and whose continuation has not run yet. [rounds] counts the
    calls of [acquire] and so names the rounds; [settled] lists the rounds
    that have released the lock. Both are bookkeeping of the model. *)
Record Controller : Type := mkController {
  state : NetworkState;
  provider : option Provider;
  blockTracker : option Endpoint;
  ethQuery : option EthQuery;
  infuraProjectId : option string;
  locked : bool;
  waiting : list nat;
  resuming : list nat;
  requests : list Request;
  published : list Event;
  stopTimers : list (option Provider);
  rounds : nat;
  settled : list nat }.

(** The constructor, with [state0] the default state overridden by the
    state passed in: no provider, no [ethQuery], a free mutex. *)
Definition construct (state0 : NetworkState) (projectId : option string)
  : Controller :=
  {| state := state0; provider := None; blockTracker := None;
     ethQuery := None; infuraProjectId := projectId;
     locked := false; waiting := []; resuming := []; requests := [];
     published := []; stopTimers := []; rounds := 0; settled := [] |}.

Definition set_state (s : NetworkState) (c : Controller) : Controller :=
  mkController s (provider c) (blockTracker c) (ethQuery c)
    (infuraProjectId c) (locked c) (waiting c) (resuming c) (requests c)
    (published c) (stopTimers c) (rounds c) (settled c).

Definition set_provider (p : option Provider) (c : Controller)
  : Controller :=
  mkController (state c) p (blockTracker c) (ethQuery c)
    (infuraProjectId c) (locked c) (waiting c) (resuming c) (requests c)
    (published c) (stopTimers c) (rounds c) (settled c).

Definition set_blockTracker (b : option Endpoint) (c : Controller)
  : Controller :=
  mkController (state c) (provider c) b (ethQuery c)
    (infuraProjectId c) (locked c) (waiting c) (resuming c) (requests c)
    (published c) (stopTimers c) (rounds c) (settled c).

Definition set_ethQuery (q : option EthQuery) (c : Controller)
  : Controller :=
  mkController (state c) (provider c) (blockTracker c) q
    (infuraProjectId c) (locked c) (waiting c) (resuming c) (requests c)
    (published c) (stopTimers c) (rounds c) (settled c).

Definition set_mutex (l : bool) (w r : list nat) (c : Controller)
  : Controller :=
  mkController (state c) (provider c) (blockTracker c) (ethQuery c)
    (infuraProjectId c) l w r (requests c)
    (published c) (stopTimers c) (rounds c) (settled c).

Definition set_requests (rs : list Request) (c : Controller)
  : Controller :=
  mkController (state c) (provider c) (blockTracker c) (ethQuery c)
    (infuraProjectId c) (locked c) (waiting c) (resuming c) rs
    (published c) (stopTimers c) (rounds c) (settled c).

Definition set_published (es : list Event) (c : Controller)
  : Controller :=
  mkController (state c) (provider c) (blockTracker c) (ethQuery c)
    (infuraProjectId c) (locked c) (waiting c) (resuming c) (requests c)
    es (stopTimers c) (rounds c) (settled c).

Definition set_stopTimers (ts : list (option Provider)) (c : Controller)
  : Controller :=
  mkController (state c) (provider c) (blockTracker c) (ethQuery c)
    (infuraProjectId c) (locked c) (waiting c) (resuming c) (requests c)
    (published c) ts (rounds c) (settled c).

Definition set_rounds (n : nat) (c : Controller) : Controller :=
  mkController (state c) (provider c) (blockTracker c) (ethQuery c)
    (infuraProjectId c) (locked c) (waiting c) (resuming c) (requests c)
    (published c) (stopTimers c) n (settled c).

Definition set_settled (l : list nat) (c : Controller) : Controller :=
  mkController (state c) (provider c) (blockTracker c) (ethQuery c)
    (infuraProjectId c) (locked c) (waiting c) (resuming c) (requests c)
    (published c) (stopTimers c) (rounds c) l.

(** *** Base controller and messenger *)

Definition publish (e : Event) (c : Controller) : Controller :=
  set_published (published c ++ [e]) c.

(** Modelled from the spec: [update] belongs to BaseControllerV2 of
    [@metamask/base-controller], outside the sources at hand. Every
    mutation produces a new snapshot and a state-changed notification: the
    recipe is applied to the state, the result is stored, and a
    state-change message carrying the new state is published. *)
Definition update (recipe : NetworkState -> NetworkState) (c : Controller)
  : Controller :=
  let next := recipe (state c) in
  publish (StateChange next) (set_state next c).

(** *** Mutex of async-mutex *)

(** Modelled from the spec: the Mutex of async-mutex, first in first out
    on acquisition. [this.mutex.acquire()], called by a new round: the lock
    is taken at once when free, and the round queues behind the earlier
    ones otherwise. *)
Definition acquire (c : Controller) : Controller :=
  let round := rounds c in
  let c := set_rounds (S round) c in
  if locked c
  then set_mutex true (waiting c ++ [round]) (resuming c) c
  else set_mutex true (waiting c) (resuming c ++ [round]) c.

(** [releaseLock()]: the lock goes to the oldest waiting round, or becomes
    free. *)
Definition releaseLock (c : Controller) : Controller :=
  match waiting c with
  | [] => set_mutex false [] (resuming c) c
  | next :: rest => set_mutex true rest (resuming c ++ [next]) c
  end.

(** *** Private methods *)

Definition getIsCustomNetwork (chainId : option string) : bool :=
  negb (strict_eq chainId (NetworksChainId "mainnet")) &&
  negb (strict_eq chainId (NetworksChainId "kovan")) &&
  negb (strict_eq chainId (NetworksChainId "rinkeby")) &&
  negb (strict_eq chainId (NetworksChainId "goerli")) &&
  negb (strict_eq chainId (NetworksChainId "ropsten")) &&
  negb (strict_eq chainId (NetworksChainId "localhost")).

(** The [ethQuery] whose [sendAsync] can be called, if there is one:
    [this.ethQuery && this.ethQuery.sendAsync]. *)
Definition sender (c : Controller) : option EthQuery :=
  match ethQuery c with
  | Some q => if sendAsync q then Some q else None
  | None => None
  end.

Definition send (m : Method) (q : EthQuery) (k : Callback)
  (c : Controller) : Controller :=
  set_requests
    (requests c ++
     [{| method := m; sentTo := currentProvider q; callback := k |}]) c.

(** [!properties.isEIP1559Compatible] is false only for [true]. *)
Definition is_true (flag : option bool) : bool :=
  match flag with
  | Some true => true
  | _ => false
  end.

(** [properties.isEIP1559Compatible !== isEIP1559Compatible] *)
Definition differs (flag : option bool) (b : bool) : bool :=
  match flag with
  | Some b' => negb (Bool.eqb b' b)
  | None => true
  end.

Definition has_baseFeePerGas (block : Block) : bool :=
  match baseFeePerGas block with
  | Some _ => true
  | None => false
  end.

Definition set_isEIP1559Compatible (b : bool) (s : NetworkState)
  : NetworkState :=
  mkState (network s) (isCustomNetwork s) (providerConfig s)
    {| isEIP1559Compatible := Some b |}.

(** The synchronous part of [getEIP1559Compatibility]: the promise it
    returns is already resolved ([Some]), or pending on the request that
    has just been sent ([None]). *)
Definition getEIP1559Compatibility (c : Controller)
  : Controller * option (Settlement bool) :=
  let properties := properties (state c) in
  if negb (is_true (isEIP1559Compatible properties))
  then
    match sender c with
    | None => (c, Some (Fulfilled true))
    | Some q =>
        (send eth_getBlockByNumber q
           (getEIP1559Compatibility_cb properties) c, None)
    end
  else (c, Some (Fulfilled true)).

(** The callback of the latest-block request, with the [properties] it
    captured; the settlement is that of the promise. *)
Definition getEIP1559Compatibility_callback
  (properties : NetworkProperties) (r : Reply Block) (c : Controller)
  : Controller * Settlement bool :=
  match r with
  | Failure error => (c, Rejected error)
  | Success block =>
      let isEIP1559Compatible' := has_baseFeePerGas block in
      let c :=
        if differs (isEIP1559Compatible properties) isEIP1559Compatible'
        then update (set_isEIP1559Compatible isEIP1559Compatible') c
        else c in
      (c, Fulfilled isEIP1559Compatible')
  end.

Definition registerProvider (c : Controller) : Completion Controller :=
  match provider c with
  | None =>
      Throws
        "dont call registerProvider when networkController.provider is unset"
        c
  | Some p =>
      let p := on_error p in
      Returns (set_ethQuery (Some (new_EthQuery p))
                 (set_provider (Some p) c))
  end.

(** [setTimeout(() => provider?.stop(), 500)] *)
Definition safelyStopProvider (p : option Provider) (c : Controller)
  : Controller :=
  set_stopTimers (stopTimers c ++ [p]) c.

Definition updateProvider (client : Client) (c : Controller)
  : Completion Controller :=
  let c := safelyStopProvider (provider c) c in
  let p := providerFromEngine (networkMiddleware client) in
  let c := set_provider (Some p) c in
  let c := set_blockTracker (Some (clientBlockTracker client)) c in
  let c := publish (ProviderChange p) c in
  registerProvider c.

Definition setupInfuraProvider (type : string) (c : Controller)
  : Completion Controller :=
  updateProvider (createInfuraClient type (infuraProjectId c)) c.

Definition setupStandardProvider (rpcTarget : string)
  (chainId : option string) (c : Controller) : Completion Controller :=
  updateProvider (createJsonRpcClient rpcTarget chainId) c.

Definition set_isCustomNetwork (b : bool) (s : NetworkState)
  : NetworkState :=
  mkState (network s) b (providerConfig s) (properties s).

Definition isInfuraType (type : string) : bool :=
  String.eqb type "kovan" || String.eqb type MAINNET ||
  String.eqb type "rinkeby" || String.eqb type "goerli" ||
  String.eqb type "ropsten".

Definition initializeProvider (type : string)
  (rpcTarget chainId : option string) (c : Controller)
  : Completion Controller :=
  let c := update (set_isCustomNetwork (getIsCustomNetwork chainId)) c in
  andThen
    (if isInfuraType type then setupInfuraProvider type c
     else if String.eqb type "localhost"
     then setupStandardProvider LOCALHOST_RPC_URL None c
     else if String.eqb type RPC
     then match rpcTarget with
          | Some url =>
              if truthy rpcTarget
              then setupStandardProvider url chainId c
              else Returns c
          | None => Returns c
          end
     else Throws ("Unrecognized network type: '" ++ type ++ "'") c)
    (fun c => Returns (fst (getEIP1559Compatibility c))).

(** *** Identity detection *)

(** [lookupNetwork] up to and including the call of [acquire]; the rest
    of the body runs when the awaited lock has been granted. *)
Definition lookupNetwork (c : Controller) : Controller :=
  match sender c with
  | None => c
  | Some _ => acquire c
  end.

(** The continuation after [await this.mutex.acquire()] of round [round]:
    the request is sent through the [ethQuery] of that moment. Without a
    callable [sendAsync] the call raises a TypeError, the promise of
    [lookupNetwork] is rejected and the lock is never released. *)
Definition lookupNetwork_resume (round : nat) (c : Controller)
  : Controller * Settlement unit :=
  match sender c with
  | Some q =>
      (send net_version q (lookupNetwork_cb round) c, Fulfilled tt)
  | None => (c, Rejected "this.ethQuery.sendAsync is not a function")
  end.

Definition set_network (n : string) (s : NetworkState) : NetworkState :=
  mkState n (isCustomNetwork s) (providerConfig s) (properties s).

(** The [finally] block of the callback. *)
Definition lookupNetwork_finally (round : nat) (c : Controller)
  : Controller :=
  set_settled (settled c ++ [round]) (releaseLock c).

(** The callback [(error, network) => ...] of the identity request. With
    an error, [network] is [undefined], so the comparison with the stored
    string is false and the state is set to ['loading']. *)
Definition lookupNetwork_callback (round : nat) (r : Reply string)
  (c : Controller) : Controller :=
  match r with
  | Success network' =>
      if String.eqb (network (state c)) network'
      then lookupNetwork_finally round c
      else
        let c := update (set_network network') c in
        let c := publish (ProviderConfigChange (providerConfig (state c))) c in
        lookupNetwork_finally round c
  | Failure _ =>
      let c := update (set_network loading) c in
      let c := publish (ProviderConfigChange (providerConfig (state c))) c in
      lookupNetwork_finally round c
  end.

Definition verifyNetwork (c : Controller) : Controller :=
  if String.eqb (network (state c)) loading then lookupNetwork c else c.

(** An ['error'] event of the active provider runs each of its
    listeners. *)
Definition emit_error (c : Controller) : Controller :=
  match provider c with
  | Some p => Nat.iter (errorListeners p) verifyNetwork c
  | None => c
  end.

(** *** Selection changes *)

Definition refresh_recipe (s : NetworkState) : NetworkState :=
  mkState loading (isCustomNetwork s) (providerConfig s)
    {| isEIP1559Compatible := None |}.

Definition refreshNetwork (c : Controller) : Completion Controller :=
  let c := update refresh_recipe c in
  let cfg := providerConfig (state c) in
  andThen (initializeProvider (type cfg) (rpcTarget cfg) (chainId cfg) c)
    (fun c => Returns (lookupNetwork c)).

(** The setter [set providerConfig(providerConfig)]. *)
Definition set_providerConfig (providerConfig' : ProviderConfig)
  (c : Controller) : Completion Controller :=
  let cfg := providerConfig (state c) in
  andThen (initializeProvider (type cfg) (rpcTarget cfg) (chainId cfg) c)
    (fun c => Returns (lookupNetwork c)).

Definition set_config (cfg : ProviderConfig) (s : NetworkState)
  : NetworkState :=
  mkState (network s) (isCustomNetwork s) cfg (properties s).

Definition setProviderType (type : string) (c : Controller)
  : Completion Controller :=
  let ticker := tickerFor type in
  let c :=
    update
      (set_config
         {| rpcTarget := None; type := type;
            chainId := NetworksChainId type;
            ticker := Some ticker; nickname := None |}) c in
  refreshNetwork c.

Definition setRpcTarget (rpcTarget chainId : string)
  (ticker nickname : option string) (c : Controller)
  : Completion Controller :=
  let c :=
    update
      (set_config
         {| rpcTarget := Some rpcTarget; type := RPC;
            chainId := Some chainId;
            ticker := ticker; nickname := nickname |}) c in
  refreshNetwork c.

(** *** Schedules *)

(** What can happen to a controller: a call from outside, the resumption
    of the oldest granted round, the arrival of the reply to the [i]-th
    request in flight, an ['error'] event of the active provider. *)
Inductive Action : Type :=
| Call_setProviderType (type : string)
| Call_setRpcTarget (rpcTarget chainId : string)
    (ticker nickname : option string)
| Assign_providerConfig (cfg : ProviderConfig)
| Call_lookupNetwork
| Call_getEIP1559Compatibility
| Resume
| Reply_net_version (i : nat) (r : Reply string)
| Reply_eth_getBlockByNumber (i : nat) (r : Reply Block)
| Emit_error.

Definition step (a : Action) (c : Controller) : option Controller :=
  match a with
  | Call_setProviderType t => Some (after (setProviderType t c))
  | Call_setRpcTarget u i t n => Some (after (setRpcTarget u i t n c))
  | Assign_providerConfig cfg => Some (after (set_providerConfig cfg c))
  | Call_lookupNetwork => Some (lookupNetwork c)
  | Call_getEIP1559Compatibility => Some (fst (getEIP1559Compatibility c))
  | Resume =>
      match resuming c with
      | [] => None
      | round :: rest =>
          Some (fst (lookupNetwork_resume round
                       (set_mutex (locked c) (waiting c) rest c)))
      end
  | Reply_net_version i r =>
      match nth_error (requests c) i with
      | Some {| method := net_version; callback := lookupNetwork_cb round |} =>
          Some (lookupNetwork_callback round r
                  (set_requests (remove_nth i (requests c)) c))
      | _ => None
      end
  | Reply_eth_getBlockByNumber i r =>
      match nth_error (requests c) i with
      | Some {| method := eth_getBlockByNumber;
                callback := getEIP1559Compatibility_cb properties |} =>
          Some (fst (getEIP1559Compatibility_callback properties r
                       (set_requests (remove_nth i (requests c)) c)))
      | _ => None
      end
  | Emit_error => Some (emit_error c)
  end.

Fixpoint run (acts : list Action) (c : Controller) : option Controller :=
  match acts with
  | [] => Some c
  | a :: rest =>
      match step a c with
      | Some c' => run rest c'
      | None => None
      end
  end.

(** The [network] fields carried by the state-change messages of a
    publication log, and the number of configuration announcements. *)
Fixpoint networks_observed (es : list Event) : list string :=
  match es with
  | [] => []
  | StateChange s :: rest => network s :: networks_observed rest
  | _ :: rest => networks_observed rest
  end.

Fixpoint announcements (es : list Event) : list ProviderConfig :=
  match es with
  | [] => []
  | ProviderConfigChange cfg :: rest => cfg :: announcements rest
  | _ :: rest => announcements rest
  end.

Definition is_net_version (r : Request) : bool :=
  match method r with
  | net_version => true
  | eth_getBlockByNumber => false
  end.

(** Identity requests in flight. *)
Definition in_flight (c : Controller) : nat :=
  List.length (filter is_net_version (requests c)).

(** *** Vocabulary of the properties *)

(** The kinds [initializeProvider] has a case for: the Infura networks,
    ['localhost'] and ['rpc']. *)
Definition recognized (type : string) : bool :=
  isInfuraType type || String.eqb type "localhost" || String.eqb type RPC.

(** The controllers a program can hold: built by the constructor, then
    driven by any schedule. *)
Definition reachable (c : Controller) : Prop :=
  exists state0 projectId acts,
    run acts (construct state0 projectId) = Some c.

(** Schedules made of identity detection only. *)
Definition detection_only (a : Action) : bool :=
  match a with
  | Call_lookupNetwork | Resume | Reply_net_version _ _ => true
  | _ => false
  end.

Fixpoint calls_of (acts : list Action) : nat :=
  match acts with
  | [] => 0
  | Call_lookupNetwork :: rest => S (calls_of rest)
  | _ :: rest => calls_of rest
  end.

(** The replies to the identity requests, in order of completion. *)
Fixpoint replies_of (acts : list Action) : list (Reply string) :=
  match acts with
  | [] => []
  | Reply_net_version _ r :: rest => r :: replies_of rest
  | _ :: rest => replies_of rest
  end.

(** No round is under way. *)
Definition idle (c : Controller) : Prop :=
  locked c = false /\ waiting c = [] /\ resuming c = [] /\
  in_flight c = 0.

(** The round a request belongs to, and the rounds that hold the lock:
    granted and about to send, or waiting for the reply. *)
Definition round_of (r : Request) : nat :=
  match callback r with
  | lookupNetwork_cb round => round
  | getEIP1559Compatibility_cb _ => 0
  end.

Definition serving (c : Controller) : list nat :=
  resuming c ++ map round_of (filter is_net_version (requests c)).

(** Detection is serial: the rounds settle in the order of their calls of
    [acquire], at most one of them holds the lock, and the lock is held
    exactly while one does. *)
Record serial (c : Controller) : Prop := mkSerial {
  serial_order : settled c ++ serving c ++ waiting c = seq 0 (rounds c);
  serial_single : List.length (serving c) <= 1;
  serial_free : locked c = false -> serving c = [] /\ waiting c = [];
  serial_held : locked c = true -> serving c <> [];
  serial_sender : locked c = true -> sender c <> None }.

(** What the completion of one round does to the state, and what it
    publishes. *)
Definition round_outcome (r : Reply string) (s : NetworkState)
  : NetworkState * list Event :=
  match r with
  | Success n =>
      if String.eqb (network s) n then (s, [])
      else (set_network n s,
            [StateChange (set_network n s);
             ProviderConfigChange (providerConfig s)])
  | Failure _ =>
      (set_network loading s,
       [StateChange (set_network loading s);
        ProviderConfigChange (providerConfig s)])
  end.

Fixpoint rounds_outcome (rs : list (Reply string)) (s : NetworkState)
  : NetworkState * list Event :=
  match rs with
  | [] => (s, [])
  | r :: rest =>
      let (s1, l1) := round_outcome r s in
      let (s2, l2) := rounds_outcome rest s1 in
      (s2, l1 ++ l2)
  end.

(** The reply carries the identity that is already stored. *)
Definition same_identity (r : Reply string) (s : NetworkState) : bool :=
  match r with
  | Success n => String.eqb (network s) n
  | Failure _ => false
  end.

(** Three calls of [lookupNetwork] before anything else happens, then the
    three rounds one after the other, answered "1", "2" and "3". The
    request of a round is the last one sent, behind the [pending] requests
    that were already in flight. *)
Definition three_lookups (pending : nat) : list Action :=
  [Call_lookupNetwork; Call_lookupNetwork; Call_lookupNetwork;
   Resume; Reply_net_version pending (Success "1");
   Resume; Reply_net_version pending (Success "2");
   Resume; Reply_net_version pending (Success "3")].

(** The active provider has exactly one ['error'] listener and
    [ethQuery] wraps it. *)
Definition wired (c : Controller) : Prop :=
  match provider c with
  | Some p => errorListeners p = 1 /\ ethQuery c = Some (new_EthQuery p)
  | None => True
  end.

Definition flag (c : Controller) : option bool :=
  isEIP1559Compatible (properties (state c)).

Definition probe_call (a : Action) : bool :=
  match a with
  | Call_getEIP1559Compatibility => true
  | _ => false
  end.

(** *** Sample controllers *)

Definition fresh : Controller := construct defaultState (Some "project").

Definition on_mainnet : Controller :=
  after (setProviderType "mainnet" fresh).

Definition connected_to_1 : Controller :=
  match run [Resume; Reply_net_version 1 (Success "1")] on_mainnet with
  | Some c => c
  | None => on_mainnet
  end.

Definition connected_to_5 : Controller :=
  match run [Resume; Reply_net_version 1 (Success "5")] on_mainnet with
  | Some c => c
  | None => on_mainnet
  end.

Definition three_lookups_from_1 : Controller :=
  match run (three_lookups 1) connected_to_1 with
  | Some c => c
  | None => connected_to_1
  end.

Definition three_lookups_from_5 : Controller :=
  match run (three_lookups 1) connected_to_5 with
  | Some c => c
  | None => connected_to_5
  end.

(** One more round on a controller that stores "1", answered "1", and
    one answered with an error. *)
Definition same_answer : Controller :=
  match run [Call_lookupNetwork; Resume;
             Reply_net_version 1 (Success "1")] connected_to_1 with
  | Some c => c
  | None => connected_to_1
  end.

Definition failed_answer : Controller :=
  match run [Call_lookupNetwork; Resume;
             Reply_net_version 1 (Failure "some error")]
          connected_to_1 with
  | Some c => c
  | None => connected_to_1
  end.

(** A block with and a block without the base-fee field. *)
Definition london_block : Block := {| baseFeePerGas := Some "0x100" |}.
Definition legacy_block : Block := {| baseFeePerGas := None |}.

(** Kovan is selected, then mainnet, before anything is answered: the
    probe that [initializeProvider] sent to kovan and the one it sent to
    mainnet are both in flight, each with the absent flag it read. The
    reply from mainnet comes first and has the base-fee field. *)
Definition fee_market_known : Controller :=
  match run [Call_setProviderType "kovan"; Call_setProviderType "mainnet";
             Reply_eth_getBlockByNumber 1 (Success london_block)]
          fresh with
  | Some c => c
  | None => fresh
  end.

(** *** Vocabulary of the further properties *)

(** The custom-network flag is the one derived from the stored chain id. *)
Definition derived_flag (c : Controller) : Prop :=
  isCustomNetwork (state c) =
  getIsCustomNetwork (chainId (providerConfig (state c))).

(** The connection the cases of [initializeProvider] build for a
    selection, if any. *)
Definition connection_for (type : string)
  (rpcTarget chainId projectId : option string) : option Endpoint :=
  if isInfuraType type then Some (Infura type projectId)
  else if String.eqb type "localhost"
  then Some (JsonRpc LOCALHOST_RPC_URL None)
  else if String.eqb type RPC
  then match rpcTarget with
       | Some url => if truthy rpcTarget then Some (JsonRpc url chainId)
                     else None
       | None => None
       end
  else None.

(** The providers announced by the provider-change messages of a log. *)
Fixpoint provider_changes (es : list Event) : list Provider :=
  match es with
  | [] => []
  | ProviderChange p :: rest => p :: provider_changes rest
  | _ :: rest => provider_changes rest
  end.

(** What the change from [c] to [c'] did to the connection: with [Some e],
    the provider built on [e] was installed with one error listener, the
    previous provider was scheduled for its stop once, and one
    provider-change message was published; with [None], nothing of this
    moved. *)
Definition installs (conn : option Endpoint) (c c' : Controller) : Prop :=
  match conn with
  | Some e =>
      provider c' = Some {| engine := e; errorListeners := 1 |} /\
      blockTracker c' = Some e /\
      ethQuery c' = Some {| currentProvider := e; sendAsync := true |} /\
      stopTimers c' = stopTimers c ++ [provider c] /\
      provider_changes (published c') =
      provider_changes (published c) ++ [providerFromEngine e]
  | None =>
      provider c' = provider c /\
      blockTracker c' = blockTracker c /\
      ethQuery c' = ethQuery c /\
      stopTimers c' = stopTimers c /\
      provider_changes (published c') = provider_changes (published c)
  end.

(** The provider and [ethQuery] go together: both unset, or the provider
    with its one error listener and the [ethQuery] built on it. *)
Definition paired (c : Controller) : Prop :=
  match provider c with
  | Some p => errorListeners p = 1 /\ ethQuery c = Some (new_EthQuery p)
  | None => ethQuery c = None
  end.

(** Calls that need a connection to do anything. *)
Definition needs_connection (a : Action) : bool :=
  match a with
  | Call_lookupNetwork | Call_getEIP1559Compatibility | Emit_error => true
  | _ => false
  end.

(** A controller with three selection changes made in a row, the second
    one with a kind that is not recognized. *)
Definition thrice_selected : Controller :=
  match run [Call_setProviderType "goerli"; Call_setProviderType "junk";
             Call_setRpcTarget "http://foo" "10" None None] fresh with
  | Some c => c
  | None => fresh
  end.

End NC.

(** ** The revision with the network-configuration registry *)

Module NC2.
Import ControllerUtils.

(** *** State *)

Record ProviderConfig : Type := mkProviderConfig {
  rpcTarget : option string;
  type : string;
  chainId : option string;
  ticker : option string;
  nickname : option string }.

Record Block : Type := mkBlock { baseFeePerGas : option string }.

Record NetworkDetails : Type := mkDetails {
  isEIP1559Compatible : option bool }.

Record NetworkConfiguration : Type := mkNetworkConfiguration {
  rpcUrl : string;
  nc_chainId : option string;
  nc_nickname : option string;
  nc_ticker : option string;
  rpcPrefs : option string }.

(** [Record<string, NetworkConfiguration>]: the entries in the order
    [Object.entries] lists them, which for keys that are not array
    indices (the ids are UUIDs) is the order of insertion. A JavaScript
    object has no two entries with one key. *)
Definition Registry : Type := list (string * NetworkConfiguration).

Record NetworkState : Type := mkState {
  network : string;
  isCustomNetwork : bool;
  providerConfig : ProviderConfig;
  networkDetails : NetworkDetails;
  networkConfigurations : Registry }.

Definition defaultState : NetworkState :=
  {| network := loading;
     isCustomNetwork := false;
     providerConfig :=
       {| rpcTarget := None; type := MAINNET;
          chainId := NetworksChainId "mainnet";
          ticker := None; nickname := None |};
     networkDetails := {| isEIP1559Compatible := Some false |};
     networkConfigurations := [] |}.

(** [registry[key] = value]: an existing entry is overwritten where it
    stands, a new one goes to the end. *)
Fixpoint assign (key : string) (value : NetworkConfiguration)
  (registry : Registry) : Registry :=
  match registry with
  | [] => [(key, value)]
  | (k, v) :: rest =>
      if String.eqb k key then (key, value) :: rest
      else (k, v) :: assign key value rest
  end.

(** [delete registry[key]] *)
Fixpoint delete (key : string) (registry : Registry) : Registry :=
  match registry with
  | [] => []
  | (k, v) :: rest =>
      if String.eqb k key then rest else (k, v) :: delete key rest
  end.

Definition keys (registry : Registry) : list string := map fst registry.

(** [String.prototype.toLowerCase] on the ASCII letters; the other
    characters of a URL have no case. *)
Definition lower (a : ascii) : ascii :=
  let n := nat_of_ascii a in
  if andb (Nat.leb 65 n) (Nat.leb n 90) then ascii_of_nat (n + 32) else a.

Fixpoint toLowerCase (s : string) : string :=
  match s with
  | EmptyString => EmptyString
  | String a rest => String (lower a) (toLowerCase rest)
  end.

(** *** Connections *)

(** The configuration handed to [createMetamaskProvider]: the spread of
    [internalProviderConfig] (the empty object until the setter has been
    used), overridden by the fields of the kind of connection. *)
Inductive Transport : Type :=
| Infura (network : string) (projectId : option string)
| Standard (rpcUrl : string) (chainId ticker nickname : option string).

Record EngineConfig : Type := mkEngineConfig {
  inherited : option ProviderConfig;
  transport : Transport }.

Record Provider : Type := mkProvider {
  engine : EngineConfig;
  errorListeners : nat }.

(** Modelled from the spec: [createMetamaskProvider] comes from
    [web3-provider-engine/zero]; it is the spec's ConnectionFactory, a
    pure construction of a fresh provider from its configuration. *)
Definition createMetamaskProvider (config : EngineConfig) : Provider :=
  {| engine := config; errorListeners := 0 |}.

Definition on_error (p : Provider) : Provider :=
  {| engine := engine p; errorListeners := S (errorListeners p) |}.

Record EthQuery : Type := mkEthQuery {
  currentProvider : EngineConfig;
  sendAsync : bool }.

Definition new_EthQuery (p : Provider) : EthQuery :=
  {| currentProvider := engine p; sendAsync := true |}.

(** *** Messages, requests and the controller object *)

Inductive Event : Type :=
| StateChange (s : NetworkState)
| ProviderConfigChange (c : ProviderConfig).

Inductive Method : Type := net_version | eth_getBlockByNumber.

(** The callback of [#getNetworkId], which settles the promise that round
    [round] of [lookupNetwork] awaits while holding the lock, and the
    callback of [getEIP1559Compatibility] with the [networkDetails] it
    captured. *)
Inductive Callback : Type :=
| getNetworkId_cb (round : nat)
| getEIP1559Compatibility_cb (networkDetails : NetworkDetails).

Record Request : Type := mkRequest {
  method : Method;
  sentTo : EngineConfig;
  callback : Callback }.

Record Controller : Type := mkController {
  state : NetworkState;
  provider : option Provider;
  ethQuery : option EthQuery;
  internalProviderConfig : option ProviderConfig;
  infuraProjectId : option string;
  locked : bool;
  waiting : list nat;
  resuming : list nat;
  requests : list Request;
  published : list Event;
  stopTimers : list (option Provider);
  rounds : nat;
  settled : list nat }.

(** The constructor, with [state0] the default state overridden by the
    state passed in. *)
Definition construct (state0 : NetworkState) (projectId : option string)
  : Controller :=
  {| state := state0; provider := None; ethQuery := None;
     internalProviderConfig := None; infuraProjectId := projectId;
     locked := false; waiting := []; resuming := []; requests := [];
     published := []; stopTimers := []; rounds := 0; settled := [] |}.

Definition set_state (s : NetworkState) (c : Controller) : Controller :=
  mkController s (provider c) (ethQuery c) (internalProviderConfig c)
    (infuraProjectId c) (locked c) (waiting c) (resuming c) (requests c)
    (published c) (stopTimers c) (rounds c) (settled c).

Definition set_provider (p : option Provider) (c : Controller)
  : Controller :=
  mkController (state c) p (ethQuery c) (internalProviderConfig c)
    (infuraProjectId c) (locked c) (waiting c) (resuming c) (requests c)
    (published c) (stopTimers c) (rounds c) (settled c).

Definition set_ethQuery (q : option EthQuery) (c : Controller)
  : Controller :=
  mkController (state c) (provider c) q (internalProviderConfig c)
    (infuraProjectId c) (locked c) (waiting c) (resuming c) (requests c)
    (published c) (stopTimers c) (rounds c) (settled c).

Definition set_internalProviderConfig (cfg : option ProviderConfig)
  (c : Controller) : Controller :=
  mkController (state c) (provider c) (ethQuery c) cfg
    (infuraProjectId c) (locked c) (waiting c) (resuming c) (requests c)
    (published c) (stopTimers c) (rounds c) (settled c).

Definition set_mutex (l : bool) (w r : list nat) (c : Controller)
  : Controller :=
  mkController (state c) (provider c) (ethQuery c)
    (internalProviderConfig c) (infuraProjectId c) l w r (requests c)
    (published c) (stopTimers c) (rounds c) (settled c).

Definition set_requests (rs : list Request) (c : Controller)
  : Controller :=
  mkController (state c) (provider c) (ethQuery c)
    (internalProviderConfig c) (infuraProjectId c) (locked c) (waiting c)
    (resuming c) rs (published c) (stopTimers c) (rounds c) (settled c).

Definition set_published (es : list Event) (c : Controller)
  : Controller :=
  mkController (state c) (provider c) (ethQuery c)
    (internalProviderConfig c) (infuraProjectId c) (locked c) (waiting c)
    (resuming c) (requests c) es (stopTimers c) (rounds c) (settled c).

Definition set_stopTimers (ts : list (option Provider)) (c : Controller)
  : Controller :=
  mkController (state c) (provider c) (ethQuery c)
    (internalProviderConfig c) (infuraProjectId c) (locked c) (waiting c)
    (resuming c) (requests c) (published c) ts (rounds c) (settled c).

Definition set_rounds (n : nat) (c : Controller) : Controller :=
  mkController (state c) (provider c) (ethQuery c)
    (internalProviderConfig c) (infuraProjectId c) (locked c) (waiting c)
    (resuming c) (requests c) (published c) (stopTimers c) n (settled c).

Definition set_settled (l : list nat) (c : Controller) : Controller :=
  mkController (state c) (provider c) (ethQuery c)
    (internalProviderConfig c) (infuraProjectId c) (locked c) (waiting c)
    (resuming c) (requests c) (published c) (stopTimers c) (rounds c) l.

(** *** Base controller, messenger and mutex *)

Definition publish (e : Event) (c : Controller) : Controller :=
  set_published (published c ++ [e]) c.

Definition update (recipe : NetworkState -> NetworkState) (c : Controller)
  : Controller :=
  let next := recipe (state c) in
  publish (StateChange next) (set_state next c).

Definition acquire (c : Controller) : Controller :=
  let round := rounds c in
  let c := set_rounds (S round) c in
  if locked c
  then set_mutex true (waiting c ++ [round]) (resuming c) c
  else set_mutex true (waiting c) (resuming c ++ [round]) c.

Definition releaseLock (c : Controller) : Controller :=
  match waiting c with
  | [] => set_mutex false [] (resuming c) c
  | next :: rest => set_mutex true rest (resuming c ++ [next]) c
  end.

(** *** Private methods *)

Definition getIsCustomNetwork (chainId : option string) : bool :=
  negb (strict_eq chainId (NetworksChainId "mainnet")) &&
  negb (strict_eq chainId (NetworksChainId "goerli")) &&
  negb (strict_eq chainId (NetworksChainId "sepolia")) &&
  negb (strict_eq chainId (NetworksChainId "localhost")).

Definition sender (c : Controller) : option EthQuery :=
  match ethQuery c with
  | Some q => if sendAsync q then Some q else None
  | None => None
  end.

Definition send (m : Method) (q : EthQuery) (k : Callback)
  (c : Controller) : Controller :=
  set_requests
    (requests c ++
     [{| method := m; sentTo := currentProvider q; callback := k |}]) c.

Definition is_true (flag : option bool) : bool :=
  match flag with
  | Some true => true
  | _ => false
  end.

Definition differs (flag : option bool) (b : bool) : bool :=
  match flag with
  | Some b' => negb (Bool.eqb b' b)
  | None => true
  end.

Definition has_baseFeePerGas (block : Block) : bool :=
  match baseFeePerGas block with
  | Some _ => true
  | None => false
  end.

Definition set_isEIP1559Compatible (b : bool) (s : NetworkState)
  : NetworkState :=
  mkState (network s) (isCustomNetwork s) (providerConfig s)
    {| isEIP1559Compatible := Some b |} (networkConfigurations s).

Definition getEIP1559Compatibility (c : Controller)
  : Controller * option (Settlement bool) :=
  let networkDetails := networkDetails (state c) in
  if negb (is_true (isEIP1559Compatible networkDetails))
  then
    match sender c with
    | None => (c, Some (Fulfilled true))
    | Some q =>
        (send eth_getBlockByNumber q
           (getEIP1559Compatibility_cb networkDetails) c, None)
    end
  else (c, Some (Fulfilled true)).

Definition getEIP1559Compatibility_callback
  (networkDetails : NetworkDetails) (r : Reply Block) (c : Controller)
  : Controller * Settlement bool :=
  match r with
  | Failure error => (c, Rejected error)
  | Success block =>
      let isEIP1559Compatible' := has_baseFeePerGas block in
      let c :=
        if differs (isEIP1559Compatible networkDetails)
             isEIP1559Compatible'
        then update (set_isEIP1559Compatible isEIP1559Compatible') c
        else c in
      (c, Fulfilled isEIP1559Compatible')
  end.

(** [this.provider.on(...)] on an unset provider would be a TypeError;
    the method is only called with the provider set. *)
Definition registerProvider (c : Controller) : Completion Controller :=
  match provider c with
  | None => Throws "Cannot read properties of undefined (reading 'on')" c
  | Some p =>
      let p := on_error p in
      Returns (set_ethQuery (Some (new_EthQuery p))
                 (set_provider (Some p) c))
  end.

Definition safelyStopProvider (p : option Provider) (c : Controller)
  : Controller :=
  set_stopTimers (stopTimers c ++ [p]) c.

Definition updateProvider (p : Provider) (c : Controller)
  : Completion Controller :=
  let c := safelyStopProvider (provider c) c in
  let c := set_provider (Some p) c in
  registerProvider c.

Definition setupInfuraProvider (type : string) (c : Controller)
  : Completion Controller :=
  updateProvider
    (createMetamaskProvider
       {| inherited := internalProviderConfig c;
          transport := Infura type (infuraProjectId c) |}) c.

Definition setupStandardProvider (rpcTarget : string)
  (chainId ticker nickname : option string) (c : Controller)
  : Completion Controller :=
  updateProvider
    (createMetamaskProvider
       {| inherited := internalProviderConfig c;
          transport := Standard rpcTarget chainId ticker nickname |}) c.

Definition set_isCustomNetwork (b : bool) (s : NetworkState)
  : NetworkState :=
  mkState (network s) b (providerConfig s) (networkDetails s)
    (networkConfigurations s).

Definition isInfuraType (type : string) : bool :=
  String.eqb type MAINNET || String.eqb type "goerli" ||
  String.eqb type "sepolia".

Definition initializeProvider (type : string)
  (rpcTarget chainId ticker nickname : option string) (c : Controller)
  : Completion Controller :=
  let c := update (set_isCustomNetwork (getIsCustomNetwork chainId)) c in
  andThen
    (if isInfuraType type then setupInfuraProvider type c
     else if String.eqb type "localhost"
     then setupStandardProvider LOCALHOST_RPC_URL None None None c
     else if String.eqb type RPC
     then match rpcTarget with
          | Some url =>
              if truthy rpcTarget
              then setupStandardProvider url chainId ticker nickname c
              else Returns c
          | None => Returns c
          end
     else Throws ("Unrecognized network type: '" ++ type ++ "'") c)
    (fun c => Returns (fst (getEIP1559Compatibility c))).

(** *** Identity detection *)

Definition lookupNetwork (c : Controller) : Controller :=
  match sender c with
  | None => c
  | Some _ => acquire c
  end.

Definition set_network (n : string) (s : NetworkState) : NetworkState :=
  mkState n (isCustomNetwork s) (providerConfig s) (networkDetails s)
    (networkConfigurations s).

Definition lookupNetwork_finally (round : nat) (c : Controller)
  : Controller :=
  set_settled (settled c ++ [round]) (releaseLock c).

(** How the inner [try] block ends: by its [return], or by falling
    through to the publication; a rejection of [#getNetworkId] is taken
    by the [catch], which falls through as well. *)
Inductive TryEnd : Type := Return | FallThrough.

Definition lookupNetwork_try (r : Reply string) (c : Controller)
  : Controller * TryEnd :=
  match r with
  | Success networkId =>
      if String.eqb (network (state c)) networkId
      then (c, Return)
      else (update (set_network networkId) c, FallThrough)
  | Failure _error => (update (set_network loading) c, FallThrough)
  end.

(** The body of [lookupNetwork] once [#getNetworkId] has settled, and the
    settlement of the promise [lookupNetwork] returned. *)
Definition lookupNetwork_continue (round : nat) (r : Reply string)
  (c : Controller) : Controller * Settlement unit :=
  match lookupNetwork_try r c with
  | (c, Return) => (lookupNetwork_finally round c, Fulfilled tt)
  | (c, FallThrough) =>
      let c := publish (ProviderConfigChange (providerConfig (state c))) c in
      (lookupNetwork_finally round c, Fulfilled tt)
  end.

(** The continuation after [await this.mutex.acquire()]: [#getNetworkId]
    sends the request; should [sendAsync] not be callable, the promise
    executor throws, the promise is rejected and the [catch] runs. *)
Definition lookupNetwork_resume (round : nat) (c : Controller)
  : Controller * option (Settlement unit) :=
  match sender c with
  | Some q => (send net_version q (getNetworkId_cb round) c, None)
  | None =>
      let (c, s) :=
        lookupNetwork_continue round
          (Failure "this.ethQuery.sendAsync is not a function") c in
      (c, Some s)
  end.

Definition verifyNetwork (c : Controller) : Controller :=
  if String.eqb (network (state c)) loading then lookupNetwork c else c.

Definition emit_error (c : Controller) : Controller :=
  match provider c with
  | Some p => Nat.iter (errorListeners p) verifyNetwork c
  | None => c
  end.

(** *** Selection changes *)

Definition refresh_recipe (s : NetworkState) : NetworkState :=
  mkState loading (isCustomNetwork s) (providerConfig s)
    {| isEIP1559Compatible := None |} (networkConfigurations s).

Definition refreshNetwork (c : Controller) : Completion Controller :=
  let c := update refresh_recipe c in
  let cfg := providerConfig (state c) in
  andThen
    (initializeProvider (type cfg) (rpcTarget cfg) (chainId cfg)
       (ticker cfg) None c)
    (fun c => Returns (lookupNetwork c)).

Definition set_providerConfig (providerConfig' : ProviderConfig)
  (c : Controller) : Completion Controller :=
  let c := set_internalProviderConfig (Some providerConfig') c in
  let cfg := providerConfig (state c) in
  andThen
    (andThen
       (initializeProvider (type cfg) (rpcTarget cfg) (chainId cfg)
          (ticker cfg) (nickname cfg) c)
       (fun c =>
          match provider c with
          | Some _ => registerProvider c
          | None => Returns c
          end))
    (fun c => Returns (lookupNetwork c)).

Definition set_config (cfg : ProviderConfig) (s : NetworkState)
  : NetworkState :=
  mkState (network s) (isCustomNetwork s) cfg (networkDetails s)
    (networkConfigurations s).

Definition setProviderType (type : string) (c : Controller)
  : Completion Controller :=
  let ticker := tickerFor type in
  let c :=
    update
      (set_config
         {| rpcTarget := None; type := type;
            chainId := NetworksChainId type;
            ticker := Some ticker; nickname := None |}) c in
  refreshNetwork c.

Definition setRpcTarget (rpcTarget chainId : string)
  (ticker nickname : option string) (c : Controller)
  : Completion Controller :=
  let c :=
    update
      (set_config
         {| rpcTarget := Some rpcTarget; type := RPC;
            chainId := Some chainId;
            ticker := ticker; nickname := nickname |}) c in
  refreshNetwork c.

(** *** The registry of network configurations *)

Definition set_networkConfigurations (registry : Registry)
  (s : NetworkState) : NetworkState :=
  mkState (network s) (isCustomNetwork s) (providerConfig s)
    (networkDetails s) registry.

(** The [for ... of Object.entries(...)] loop: the id of the first entry
    whose [rpcUrl] equals the given one up to letter case. *)
Fixpoint find_rpcUrl (rpcUrl' : string) (entries : Registry)
  : option string :=
  match entries with
  | [] => None
  | (configUUID, networkConfiguration) :: rest =>
      if String.eqb (toLowerCase (rpcUrl networkConfiguration))
           (toLowerCase rpcUrl')
      then Some configUUID
      else find_rpcUrl rpcUrl' rest
  end.

(** [random] is the value the call [random()] of the uuid package
    returns; it is only made when no entry matches. *)
Definition upsertNetworkConfiguration
  (newNetworkConfiguration : NetworkConfiguration) (random : string)
  (c : Controller) : Controller * string :=
  match find_rpcUrl (rpcUrl newNetworkConfiguration)
          (networkConfigurations (state c)) with
  | Some configUUID =>
      (update
         (fun s =>
            set_networkConfigurations
              (assign configUUID newNetworkConfiguration
                 (networkConfigurations s)) s) c,
       configUUID)
  | None =>
      let uuid := random in
      (update
         (fun s =>
            set_networkConfigurations
              (assign uuid newNetworkConfiguration
                 (networkConfigurations s)) s) c,
       uuid)
  end.

Definition removeNetworkConfiguration (uuid : string) (c : Controller)
  : Controller :=
  update
    (fun s =>
       set_networkConfigurations (delete uuid (networkConfigurations s)) s)
    c.

(** *** Schedules *)

Inductive Action : Type :=
| Call_setProviderType (type : string)
| Call_setRpcTarget (rpcTarget chainId : string)
    (ticker nickname : option string)
| Assign_providerConfig (cfg : ProviderConfig)
| Call_lookupNetwork
| Call_getEIP1559Compatibility
| Call_upsertNetworkConfiguration (cfg : NetworkConfiguration)
    (random : string)
| Call_removeNetworkConfiguration (uuid : string)
| Resume
| Reply_net_version (i : nat) (r : Reply string)
| Reply_eth_getBlockByNumber (i : nat) (r : Reply Block)
| Emit_error.

Definition step (a : Action) (c : Controller) : option Controller :=
  match a with
  | Call_setProviderType t => Some (after (setProviderType t c))
  | Call_setRpcTarget u i t n => Some (after (setRpcTarget u i t n c))
  | Assign_providerConfig cfg => Some (after (set_providerConfig cfg c))
  | Call_lookupNetwork => Some (lookupNetwork c)
  | Call_getEIP1559Compatibility => Some (fst (getEIP1559Compatibility c))
  | Call_upsertNetworkConfiguration cfg random =>
      Some (fst (upsertNetworkConfiguration cfg random c))
  | Call_removeNetworkConfiguration uuid =>
      Some (removeNetworkConfiguration uuid c)
  | Resume =>
      match resuming c with
      | [] => None
      | round :: rest =>
          Some (fst (lookupNetwork_resume round
                       (set_mutex (locked c) (waiting c) rest c)))
      end
  | Reply_net_version i r =>
      match nth_error (requests c) i with
      | Some {| method := net_version; callback := getNetworkId_cb round |} =>
          Some (fst (lookupNetwork_continue round r
                       (set_requests (remove_nth i (requests c)) c)))
      | _ => None
      end
  | Reply_eth_getBlockByNumber i r =>
      match nth_error (requests c) i with
      | Some {| method := eth_getBlockByNumber;
                callback := getEIP1559Compatibility_cb details |} =>
          Some (fst (getEIP1559Compatibility_callback details r
                       (set_requests (remove_nth i (requests c)) c)))
      | _ => None
      end
  | Emit_error => Some (emit_error c)
  end.

Fixpoint run (acts : list Action) (c : Controller) : option Controller :=
  match acts with
  | [] => Some c
  | a :: rest =>
      match step a c with
      | Some c' => run rest c'
      | None => None
      end
  end.

Fixpoint networks_observed (es : list Event) : list string :=
  match es with
  | [] => []
  | StateChange s :: rest => network s :: networks_observed rest
  | _ :: rest => networks_observed rest
  end.

Fixpoint announcements (es : list Event) : list ProviderConfig :=
  match es with
  | [] => []
  | ProviderConfigChange cfg :: rest => cfg :: announcements rest
  | _ :: rest => announcements rest
  end.

Definition is_net_version (r : Request) : bool :=
  match method r with
  | net_version => true
  | eth_getBlockByNumber => false
  end.

Definition in_flight (c : Controller) : nat :=
  List.length (filter is_net_version (requests c)).

(** *** Vocabulary of the properties *)

Definition reachable (c : Controller) : Prop :=
  exists state0 projectId acts,
    run acts (construct state0 projectId) = Some c.

Definition detection_only (a : Action) : bool :=
  match a with
  | Call_lookupNetwork | Resume | Reply_net_version _ _ => true
  | _ => false
  end.

Fixpoint calls_of (acts : list Action) : nat :=
  match acts with
  | [] => 0
  | Call_lookupNetwork :: rest => S (calls_of rest)
  | _ :: rest => calls_of rest
  end.

Fixpoint replies_of (acts : list Action) : list (Reply string) :=
  match acts with
  | [] => []
  | Reply_net_version _ r :: rest => r :: replies_of rest
  | _ :: rest => replies_of rest
  end.

Definition idle (c : Controller) : Prop :=
  locked c = false /\ waiting c = [] /\ resuming c = [] /\
  in_flight c = 0.

Definition round_of (r : Request) : nat :=
  match callback r with
  | getNetworkId_cb round => round
  | getEIP1559Compatibility_cb _ => 0
  end.

Definition serving (c : Controller) : list nat :=
  resuming c ++ map round_of (filter is_net_version (requests c)).

Record serial (c : Controller) : Prop := mkSerial {
  serial_order : settled c ++ serving c ++ waiting c = seq 0 (rounds c);
  serial_single : List.length (serving c) <= 1;
  serial_free : locked c = false -> serving c = [] /\ waiting c = [];
  serial_held : locked c = true -> serving c <> [];
  serial_sender : locked c = true -> sender c <> None }.

Definition round_outcome (r : Reply string) (s : NetworkState)
  : NetworkState * list Event :=
  match r with
  | Success n =>
      if String.eqb (network s) n then (s, [])
      else (set_network n s,
            [StateChange (set_network n s);
             ProviderConfigChange (providerConfig s)])
  | Failure _ =>
      (set_network loading s,
       [StateChange (set_network loading s);
        ProviderConfigChange (providerConfig s)])
  end.

Fixpoint rounds_outcome (rs : list (Reply string)) (s : NetworkState)
  : NetworkState * list Event :=
  match rs with
  | [] => (s, [])
  | r :: rest =>
      let (s1, l1) := round_outcome r s in
      let (s2, l2) := rounds_outcome rest s1 in
      (s2, l1 ++ l2)
  end.

Definition same_identity (r : Reply string) (s : NetworkState) : bool :=
  match r with
  | Success n => String.eqb (network s) n
  | Failure _ => false
  end.

Definition three_lookups (pending : nat) : list Action :=
  [Call_lookupNetwork; Call_lookupNetwork; Call_lookupNetwork;
   Resume; Reply_net_version pending (Success "1");
   Resume; Reply_net_version pending (Success "2");
   Resume; Reply_net_version pending (Success "3")].



(** *** Sample controllers *)

Definition fresh : Controller := construct defaultState (Some "project").

Definition on_mainnet : Controller :=
  after (setProviderType "mainnet" fresh).

Definition connected_to_1 : Controller :=
  match run [Resume; Reply_net_version 1 (Success "1")] on_mainnet with
  | Some c => c
  | None => on_mainnet
  end.

Definition connected_to_5 : Controller :=
  match run [Resume; Reply_net_version 1 (Success "5")] on_mainnet with
  | Some c => c
  | None => on_mainnet
  end.

Definition three_lookups_from_1 : Controller :=
  match run (three_lookups 1) connected_to_1 with
  | Some c => c
  | None => connected_to_1
  end.

Definition three_lookups_from_5 : Controller :=
  match run (three_lookups 1) connected_to_5 with
  | Some c => c
  | None => connected_to_5
  end.

(** One more round on a controller that stores "1", answered "1", and
    one answered with an error. *)
Definition same_answer : Controller :=
  match run [Call_lookupNetwork; Resume;
             Reply_net_version 1 (Success "1")] connected_to_1 with
  | Some c => c
  | None => connected_to_1
  end.

Definition failed_answer : Controller :=
  match run [Call_lookupNetwork; Resume;
             Reply_net_version 1 (Failure "some error")]
          connected_to_1 with
  | Some c => c
  | None => connected_to_1
  end.

Definition assigned : Controller :=
  after (set_providerConfig (providerConfig defaultState) fresh).

Definition entry (url : string) : NetworkConfiguration :=
  {| rpcUrl := url; nc_chainId := Some "1337"; nc_nickname := None;
     nc_ticker := Some "TEST"; rpcPrefs := None |}.

(** *** Vocabulary of the further properties *)

(** The kinds the revision's [initializeProvider] has a case for. *)
Definition recognized (type : string) : bool :=
  isInfuraType type || String.eqb type "localhost" || String.eqb type RPC.

(** The transport the cases of [initializeProvider] configure for a
    selection, if any. *)
Definition transport_for (type : string)
  (rpcTarget chainId ticker nickname projectId : option string)
  : option Transport :=
  if isInfuraType type then Some (Infura type projectId)
  else if String.eqb type "localhost"
  then Some (Standard LOCALHOST_RPC_URL None None None)
  else if String.eqb type RPC
  then match rpcTarget with
       | Some url =>
           if truthy rpcTarget
           then Some (Standard url chainId ticker nickname)
           else None
       | None => None
       end
  else None.

(** The change from [c] to [c'] installed the provider configured with
    transport [tr] and the spread of [internalProviderConfig], with the
    given number of error listeners, rebuilt [ethQuery] on it and scheduled
    the stop of the previous provider once. *)
Definition installs (listeners : nat) (tr : Transport)
  (c c' : Controller) : Prop :=
  let e := {| inherited := internalProviderConfig c'; transport := tr |} in
  provider c' = Some {| engine := e; errorListeners := listeners |} /\
  ethQuery c' = Some {| currentProvider := e; sendAsync := true |} /\
  stopTimers c' = stopTimers c ++ [provider c].

(** [registry[key]] *)
Fixpoint lookup (key : string) (registry : Registry)
  : option NetworkConfiguration :=
  match registry with
  | [] => None
  | (k, v) :: rest => if String.eqb k key then Some v else lookup key rest
  end.



Definition two_networks : Controller :=
  fst (upsertNetworkConfiguration (entry "http://x") "u3"
         (fst (upsertNetworkConfiguration (entry "http://y") "u2"
                 (fst (upsertNetworkConfiguration (entry "http://X") "u1"
                         fresh))))).

Definition rpc_selected : Controller :=
  after (setRpcTarget "http://foo" "10" (Some "TEST") (Some "Foo") assigned).

End NC2.

(** ** The controller of [RateLimitController.ts] *)

Module RateLimit.

(** What a call ends with when it does not return: the [TypeError] of
    reading a property of [undefined], the [limitExceeded] error of
    eth-rpc-errors, or a plain [Error]. [call] being [async], the error is
    the reason its promise is rejected with. *)
Inductive Thrown : Type :=
| TypeError
| LimitExceeded (message : string)
| Error (message : string).

Inductive Result (X : Type) : Type :=
| Ok (x : X)
| Throw (e : Thrown).
Arguments Ok {X} x.
Arguments Throw {X} e.

(** [Record<string, number>], by origin. The counts are the numbers the
    controller writes: zero and the successor of a count. *)
Definition Counts : Type := string -> option nat.

(** [Record<keyof RateLimitedApis, Record<string, number>>], by api type.
    The names of the properties every object inherits are not taken as
    api types. *)
Definition Requests : Type := string -> option Counts.

Record RateLimitState : Type := mkState { requests : Requests }.

(** [state.requests[api][origin] = n], where [api] is a key. *)
Definition assign (api origin : string) (n : nat) (s : RateLimitState)
  : RateLimitState :=
  {| requests := fun a =>
       if String.eqb a api
       then match requests s a with
            | Some counts =>
                Some (fun o => if String.eqb o origin then Some n
                               else counts o)
            | None => None
            end
       else requests s a |}.

(** The double quote of the message of the [limitExceeded] error. *)
Definition quote : string := String (ascii_of_nat 34) EmptyString.

Section Apis.
Set Implicit Arguments.

(** The arguments and the values of the implementations. *)
Variables Args Value : Type.

Definition Implementations : Type := list (string * (Args -> Value)).

(** [implementations[type]] *)
Fixpoint implementation_of (type : string) (impls : Implementations)
  : option (Args -> Value) :=
  match impls with
  | [] => None
  | (key, implementation) :: rest =>
      if String.eqb key type then Some implementation
      else implementation_of type rest
  end.

(** The controller object, with the callbacks handed to [setTimeout]
    that have not run yet (all with the delay [rateLimitTimeout]) and the
    states published with the state-change message. *)
Record Controller : Type := mkController {
  state : RateLimitState;
  implementations : Implementations;
  rateLimitTimeout : nat;
  rateLimitCount : nat;
  timers : list (string * string);
  published : list RateLimitState }.

(** The [reduce] of the constructor: an empty record for every key of
    [implementations]. *)
Definition defaultState (impls : Implementations) : RateLimitState :=
  {| requests := fun api =>
       match implementation_of api impls with
       | Some _ => Some (fun _ => None)
       | None => None
       end |}.

(** [state0] is the [requests] of the option [state], if it has one. *)
Definition construct (timeout count : option nat)
  (state0 : option RateLimitState) (impls : Implementations)
  : Controller :=
  mkController
    (match state0 with
     | Some s => s
     | None => defaultState impls
     end)
    impls
    (match timeout with Some t => t | None => 5000 end)
    (match count with Some n => n | None => 1 end)
    [] [].

Definition update (next : RateLimitState) (c : Controller) : Controller :=
  mkController next (implementations c) (rateLimitTimeout c)
    (rateLimitCount c) (timers c) (published c ++ [next]).

Definition setTimeout (api origin : string) (c : Controller)
  : Controller :=
  mkController (state c) (implementations c) (rateLimitTimeout c)
    (rateLimitCount c) (timers c ++ [(api, origin)]) (published c).

Definition set_timers (ts : list (string * string)) (c : Controller)
  : Controller :=
  mkController (state c) (implementations c) (rateLimitTimeout c)
    (rateLimitCount c) ts (published c).

(** [undefined >= n] is false. *)
Definition isRateLimited (api origin : string) (c : Controller)
  : Result bool :=
  match requests (state c) api with
  | None => Throw TypeError
  | Some counts =>
      match counts origin with
      | None => Ok false
      | Some n => Ok (Nat.leb (rateLimitCount c) n)
      end
  end.

Definition recordRequest (api origin : string) (c : Controller)
  : Result Controller :=
  match requests (state c) api with
  | None => Throw TypeError
  | Some counts =>
      let previous :=
        match counts origin with
        | Some n => n
        | None => 0
        end in
      let next := assign api origin (previous + 1) (state c) in
      let c := if Nat.eqb previous 0 then setTimeout api origin c else c in
      Ok (update next c)
  end.

Definition resetRequestCount (api origin : string) (c : Controller)
  : Result Controller :=
  match requests (state c) api with
  | None => Throw TypeError
  | Some _ => Ok (update (assign api origin 0 (state c)) c)
  end.

Definition call (origin type : string) (args : Args) (c : Controller)
  : Controller * Result Value :=
  match isRateLimited type origin c with
  | Throw e => (c, Throw e)
  | Ok true =>
      (c,
       Throw (LimitExceeded
                (quote ++ type ++ quote ++
                 " is currently rate-limited. Please try again later.")))
  | Ok false =>
      match recordRequest type origin c with
      | Throw e => (c, Throw e)
      | Ok c =>
          match implementation_of type (implementations c) with
          | None => (c, Throw (Error "Invalid api type"))
          | Some implementation => (c, Ok (implementation args))
          end
      end
  end.

(** *** Schedules *)

(** A call of [call], or the run of the [i]-th of the timer callbacks
    that have not run yet. *)
Inductive Action : Type :=
| Call (origin type : string) (args : Args)
| Timeout (i : nat).

Record Called : Type := mkCalled {
  caller : string;
  api : string;
  answer : Result Value }.

(** A callback that throws leaves the state as it is. *)
Definition step (a : Action) (c : Controller)
  : option (Controller * list Called) :=
  match a with
  | Call origin type args =>
      let (c', r) := call origin type args c in
      Some (c', [mkCalled origin type r])
  | Timeout i =>
      match nth_error (timers c) i with
      | Some (api, origin) =>
          let c := set_timers (remove_nth i (timers c)) c in
          match resetRequestCount api origin c with
          | Ok c' => Some (c', [])
          | Throw _ => Some (c, [])
          end
      | None => None
      end
  end.

Fixpoint run (acts : list Action) (c : Controller)
  : option (Controller * list Called) :=
  match acts with
  | [] => Some (c, [])
  | a :: rest =>
      match step a c with
      | Some (c1, l1) =>
          match run rest c1 with
          | Some (c2, l2) => Some (c2, l1 ++ l2)
          | None => None
          end
      | None => None
      end
  end.

(** *** Vocabulary of the properties *)

(** A controller the program can hold when the option [state] of the
    constructor has no [requests]. *)
Definition reachable (c : Controller) : Prop :=
  exists timeout count impls acts log,
    run acts (construct timeout count None impls) = Some (c, log).




Unset Implicit Arguments.
End Apis.
Arguments Timeout {Args} i.

(** [state.requests[api][origin]] where [api] is a key. *)
Definition count_of (s : RateLimitState) (api origin : string)
  : option nat :=
  match requests s api with
  | Some counts => counts origin
  | None => None
  end.

(** [state.requests[api][origin] ?? 0] *)
Definition count (s : RateLimitState) (api origin : string) : nat :=
  match count_of s api origin with
  | Some n => n
  | None => 0
  end.

(** The invariant of the controllers the program can hold: the keys of
    [requests] are the keys of [implementations]; no count exceeds the
    limit, or one where the limit is zero; the pairs with a timer that has
    not run are those with a positive count, and none has two. *)
Record sound {Args Value : Type} (c : Controller Args Value) : Prop :=
  mkSound {
  sound_keys : forall api,
    requests (state c) api = None <->
    implementation_of api (implementations c) = None;
  sound_bound : forall api origin n,
    count_of (state c) api origin = Some n ->
    n <= Nat.max (rateLimitCount c) 1;
  sound_timed : forall api origin,
    In (api, origin) (timers c) <-> 1 <= count (state c) api origin;
  sound_once : NoDup (timers c) }.

(** *** Sample controllers *)

Definition notifier : Controller nat nat :=
  construct (Some 1000) (Some 2) None
    [("showNotification", fun n => n + 1)].

Definition two_shown : Controller nat nat :=
  fst (call "origin" "showNotification" 2
         (fst (call "origin" "showNotification" 1 notifier))).

(** A controller constructed with a state that has a key without
    implementation. *)
Definition stray_key : Controller nat nat :=
  construct None None
    (Some {| requests := fun api =>
               if String.eqb api "ghost" then Some (fun _ => None)
               else None |})
    [("showNotification", fun n => n + 1)].


End RateLimit.

(** ** The account tracker *)

Module AccountTracker.

Record AccountInformation : Type := mkAccountInformation {
  balance : string }.

(** [{ [address: string]: AccountInformation }]: the entries in the order
    [Object.keys] lists them, the order of insertion. A JavaScript object
    has no two entries with one key. *)
Definition Accounts : Type := list (string * AccountInformation).

Definition keys (accounts : Accounts) : list string := map fst accounts.

(** [accounts[address] = value] *)
Fixpoint assign (address : string) (value : AccountInformation)
  (accounts : Accounts) : Accounts :=
  match accounts with
  | [] => [(address, value)]
  | (k, v) :: rest =>
      if String.eqb k address then (address, value) :: rest
      else (k, v) :: assign address value rest
  end.

(** [delete accounts[address]] *)
Fixpoint delete (address : string) (accounts : Accounts) : Accounts :=
  match accounts with
  | [] => []
  | (k, v) :: rest =>
      if String.eqb k address then rest else (k, v) :: delete address rest
  end.

(** [accounts[address]] *)
Fixpoint lookup (address : string) (accounts : Accounts)
  : option AccountInformation :=
  match accounts with
  | [] => None
  | (k, v) :: rest =>
      if String.eqb k address then Some v else lookup address rest
  end.

(** [Array.prototype.includes] on strings *)
Definition includes (l : list string) (x : string) : bool :=
  existsb (String.eqb x) l.


(** The [reduce] of [syncBalanceWithAddresses] over what [Promise.all]
    resolved with: an item is the pair of an address and its balance, or
    [undefined] where the query failed or ran out of time. *)
Definition collect (value : list (option (string * string))) : Accounts :=
  fold_left
    (fun obj item =>
       match item with
       | None => obj
       | Some (address, balance) =>
           assign address {| balance := balance |} obj
       end)
    value [].

(** [outcomes] are the balances the queries gave, in the order of the
    addresses. *)
Definition syncBalanceWithAddresses (addresses : list string)
  (outcomes : list (option string)) : Accounts :=
  collect
    (map (fun p => option_map (pair (fst p)) (snd p))
       (combine addresses outcomes)).

(** *** Vocabulary of the properties *)

(** The last balance a query gave for the address, if any did. *)
Fixpoint last_balance (address : string)
  (value : list (option (string * string))) : option string :=
  match value with
  | [] => None
  | item :: rest =>
      match last_balance address rest with
      | Some b => Some b
      | None =>
          match item with
          | Some (a, b) => if String.eqb a address then Some b else None
          | None => None
          end
      end
  end.


End AccountTracker.

(** ** The currency rate controller *)

Module CurrencyRate.

(** What [fetchExchangeRate] can be rejected with. *)
Record Thrown : Type := mkThrown {
  instanceofError : bool;
  message : string }.

(** [String.prototype.includes] *)
Definition includes (s sub : string) : bool :=
  match String.index 0 sub s with
  | Some _ => true
  | None => false
  end.

Definition market_missing (error : Thrown) : bool :=
  instanceofError error &&
  includes (message error) "market does not exist for this coin pair".

Section Numbers.
Set Implicit Arguments.

(** The numbers of the rates and dates, which the controller passes on
    as it gets them. *)
Variable Number : Type.

Record CurrencyRateState : Type := mkState {
  conversionDate : option Number;
  conversionRate : option Number;
  currentCurrency : string;
  nativeCurrency : string;
  pendingCurrentCurrency : option string;
  pendingNativeCurrency : option string;
  usdConversionRate : option Number }.

(** What [fetchExchangeRate] resolves with. *)
Record Response : Type := mkResponse {
  response_conversionRate : option Number;
  response_usdConversionRate : option Number }.

(** How the call of [fetchExchangeRate] settles; [seconds] is
    [Date.now() / 1000] at that time. *)
Inductive Reply : Type :=
| Fetched (response : Response) (seconds : Number)
| Failed (error : Thrown).

(** How the promise of [updateExchangeRate] settles. *)
Inductive Settlement : Type :=
| Fulfilled (value : CurrencyRateState)
| Rejected (error : Thrown).

(** A call of [fetchExchangeRate] that has not settled, with the
    constants of the round that made it. *)
Record Fetch : Type := mkFetch {
  fetch_round : nat;
  fetch_currentCurrency : string;
  fetch_nativeCurrency : string;
  fetch_nativeCurrencyForExchangeRate : string;
  fetch_includeUsdRate : bool }.

(** The controller object, the mutex (the rounds waiting for the lock and
    those it was granted to, whose continuation has not run yet), the
    calls of [fetchExchangeRate] that have not settled, the states
    published with the state-change message, and the promises of
    [updateExchangeRate] that have settled, by round. *)
Record Controller : Type := mkController {
  state : CurrencyRateState;
  enabled : bool;
  includeUsdRate : bool;
  locked : bool;
  waiting : list nat;
  resuming : list nat;
  fetches : list Fetch;
  published : list CurrencyRateState;
  settled : list (nat * Settlement);
  rounds : nat }.

Definition set_state (s : CurrencyRateState) (c : Controller)
  : Controller :=
  mkController s (enabled c) (includeUsdRate c) (locked c) (waiting c)
    (resuming c) (fetches c) (published c) (settled c) (rounds c).

Definition set_enabled (b : bool) (c : Controller) : Controller :=
  mkController (state c) b (includeUsdRate c) (locked c) (waiting c)
    (resuming c) (fetches c) (published c) (settled c) (rounds c).

Definition set_mutex (l : bool) (w r : list nat) (c : Controller)
  : Controller :=
  mkController (state c) (enabled c) (includeUsdRate c) l w r (fetches c)
    (published c) (settled c) (rounds c).

Definition set_fetches (fs : list Fetch) (c : Controller) : Controller :=
  mkController (state c) (enabled c) (includeUsdRate c) (locked c)
    (waiting c) (resuming c) fs (published c) (settled c) (rounds c).

Definition set_published (ps : list CurrencyRateState) (c : Controller)
  : Controller :=
  mkController (state c) (enabled c) (includeUsdRate c) (locked c)
    (waiting c) (resuming c) (fetches c) ps (settled c) (rounds c).

Definition set_settled (l : list (nat * Settlement)) (c : Controller)
  : Controller :=
  mkController (state c) (enabled c) (includeUsdRate c) (locked c)
    (waiting c) (resuming c) (fetches c) (published c) l (rounds c).

Definition set_rounds (n : nat) (c : Controller) : Controller :=
  mkController (state c) (enabled c) (includeUsdRate c) (locked c)
    (waiting c) (resuming c) (fetches c) (published c) (settled c) n.

Definition update (next : CurrencyRateState) (c : Controller)
  : Controller :=
  set_published (published c ++ [next]) (set_state next c).

(** [this.#mutex.acquire()] by a new round. *)
Definition acquire (c : Controller) : Controller :=
  let round := rounds c in
  let c := set_rounds (S round) c in
  if locked c
  then set_mutex true (waiting c ++ [round]) (resuming c) c
  else set_mutex true (waiting c) (resuming c ++ [round]) c.

Definition releaseLock (c : Controller) : Controller :=
  match waiting c with
  | [] => set_mutex false [] (resuming c) c
  | next :: rest => set_mutex true rest (resuming c ++ [next]) c
  end.

(** [updateExchangeRate] up to its first [await]. A call that finds the
    controller disabled is fulfilled with the state at once. *)
Definition updateExchangeRate (c : Controller)
  : Controller * option Settlement :=
  if negb (enabled c) then (c, Some (Fulfilled (state c)))
  else (acquire c, None).

(** The [finally] block, and the settlement of the promise: the value
    returned is the state after the update. *)
Definition updateExchangeRate_finally (round : nat)
  (conversionDate conversionRate usdConversionRate : option Number)
  (currentCurrency nativeCurrency : string) (thrown : option Thrown)
  (c : Controller) : Controller :=
  let c :=
    update
      {| conversionDate := conversionDate;
         conversionRate := conversionRate;
         nativeCurrency := nativeCurrency;
         currentCurrency := currentCurrency;
         pendingCurrentCurrency := None;
         pendingNativeCurrency := None;
         usdConversionRate := usdConversionRate |} c in
  let c := releaseLock c in
  set_settled
    (settled c ++
     [(round,
       match thrown with
       | Some error => Rejected error
       | None => Fulfilled (state c)
       end)]) c.

(** The constants of [@metamask/controller-utils]: the values of
    [TESTNET_TICKER_SYMBOLS] and [FALL_BACK_VS_CURRENCY]. *)
Variable TESTNET_TICKER_SYMBOLS : list string.
Variable FALL_BACK_VS_CURRENCY : string.

(** The continuation after [await this.#mutex.acquire()], up to the
    [await] of [fetchExchangeRate]; with an empty currency nothing is
    fetched and the round goes on to its end. *)
Definition updateExchangeRate_resume (round : nat) (c : Controller)
  : Controller :=
  let currentCurrency :=
    match pendingCurrentCurrency (state c) with
    | Some pending => pending
    | None => currentCurrency (state c)
    end in
  let nativeCurrency :=
    match pendingNativeCurrency (state c) with
    | Some pending => pending
    | None => nativeCurrency (state c)
    end in
  let nativeCurrencyForExchangeRate :=
    if existsb (String.eqb nativeCurrency) TESTNET_TICKER_SYMBOLS
    then FALL_BACK_VS_CURRENCY
    else nativeCurrency in
  if negb (String.eqb currentCurrency "") &&
     negb (String.eqb nativeCurrency "")
  then
    set_fetches
      (fetches c ++
       [mkFetch round currentCurrency nativeCurrency
          nativeCurrencyForExchangeRate (includeUsdRate c)]) c
  else
    updateExchangeRate_finally round None None None currentCurrency
      nativeCurrency None c.

Unset Implicit Arguments.
End Numbers.
Arguments Failed {Number} error.
Arguments Rejected {Number} error.

(** The continuation after [fetchExchangeRate] has settled: the [try]
    block ends, or the [catch] takes the error and throws it again
    unless it tells that the market does not exist. *)
Definition updateExchangeRate_continue {Number : Type}
  (fetch : Fetch) (r : Reply Number) (c : Controller Number)
  : Controller Number :=
  match r with
  | Fetched response seconds =>
      updateExchangeRate_finally (fetch_round fetch) (Some seconds)
        (response_conversionRate response)
        (response_usdConversionRate response)
        (fetch_currentCurrency fetch) (fetch_nativeCurrency fetch) None c
  | Failed error =>
      updateExchangeRate_finally (fetch_round fetch) None None None
        (fetch_currentCurrency fetch) (fetch_nativeCurrency fetch)
        (if market_missing error then None else Some error) c
  end.

Definition set_pendingCurrentCurrency {Number : Type}
  (currency : option string) (s : CurrencyRateState Number)
  : CurrencyRateState Number :=
  mkState (conversionDate s) (conversionRate s) (currentCurrency s)
    (nativeCurrency s) currency (pendingNativeCurrency s)
    (usdConversionRate s).

Definition set_pendingNativeCurrency {Number : Type}
  (symbol : option string) (s : CurrencyRateState Number)
  : CurrencyRateState Number :=
  mkState (conversionDate s) (conversionRate s) (currentCurrency s)
    (nativeCurrency s) (pendingCurrentCurrency s) symbol
    (usdConversionRate s).

Definition setCurrentCurrency {Number : Type} (currentCurrency : string)
  (c : Controller Number) : Controller Number :=
  fst (updateExchangeRate
         (update
            (set_pendingCurrentCurrency (Some currentCurrency) (state c))
            c)).

Definition setNativeCurrency {Number : Type} (symbol : string)
  (c : Controller Number) : Controller Number :=
  fst (updateExchangeRate
         (update (set_pendingNativeCurrency (Some symbol) (state c)) c)).

(** [start] up to the first [await] of [#startPolling], and [stop]; the
    runs of the interval callback are calls of [updateExchangeRate]. *)
Definition start {Number : Type} (c : Controller Number)
  : Controller Number :=
  fst (updateExchangeRate (set_enabled true c)).

Definition stop {Number : Type} (c : Controller Number)
  : Controller Number :=
  set_enabled false c.

(** *** Schedules *)

Inductive Action (Number : Type) : Type :=
| Call_start
| Call_stop
| Call_setCurrentCurrency (currentCurrency : string)
| Call_setNativeCurrency (symbol : string)
| Call_updateExchangeRate
| Resume
| Settle (i : nat) (r : Reply Number).
Arguments Call_start {Number}.
Arguments Call_stop {Number}.
Arguments Call_setCurrentCurrency {Number} currentCurrency.
Arguments Call_setNativeCurrency {Number} symbol.
Arguments Call_updateExchangeRate {Number}.
Arguments Resume {Number}.
Arguments Settle {Number} i r.

Section Schedules.
Set Implicit Arguments.
Variable Number : Type.
Variable TESTNET_TICKER_SYMBOLS : list string.
Variable FALL_BACK_VS_CURRENCY : string.

Definition step (a : Action Number) (c : Controller Number)
  : option (Controller Number) :=
  match a with
  | Call_start => Some (start c)
  | Call_stop => Some (stop c)
  | Call_setCurrentCurrency currency =>
      Some (setCurrentCurrency currency c)
  | Call_setNativeCurrency symbol => Some (setNativeCurrency symbol c)
  | Call_updateExchangeRate => Some (fst (updateExchangeRate c))
  | Resume =>
      match resuming c with
      | [] => None
      | round :: rest =>
          Some (updateExchangeRate_resume TESTNET_TICKER_SYMBOLS
                  FALL_BACK_VS_CURRENCY round
                  (set_mutex (locked c) (waiting c) rest c))
      end
  | Settle i r =>
      match nth_error (fetches c) i with
      | Some fetch =>
          Some (updateExchangeRate_continue fetch r
                  (set_fetches (remove_nth i (fetches c)) c))
      | None => None
      end
  end.

Fixpoint run (acts : list (Action Number)) (c : Controller Number)
  : option (Controller Number) :=
  match acts with
  | [] => Some c
  | a :: rest =>
      match step a c with
      | Some c' => run rest c'
      | None => None
      end
  end.

(** *** Vocabulary of the properties *)

Definition construct (state0 : CurrencyRateState Number)
  (includeUsdRate : bool) : Controller Number :=
  mkController state0 false includeUsdRate false [] [] [] [] [] 0.

Definition reachable (c : Controller Number) : Prop :=
  exists state0 includeUsdRate acts,
    run acts (construct state0 includeUsdRate) = Some c.

(** The rounds that hold the lock: granted and not yet resumed, or
    awaiting the reply of [fetchExchangeRate]. *)
Definition serving (c : Controller Number) : list nat :=
  resuming c ++ map fetch_round (fetches c).

Record serial (c : Controller Number) : Prop := mkSerial {
  serial_order :
    map fst (settled c) ++ serving c ++ waiting c = seq 0 (rounds c);
  serial_single : List.length (serving c) <= 1;
  serial_free : locked c = false -> serving c = [] /\ waiting c = [];
  serial_held : locked c = true -> serving c <> [] }.

Definition is_settle (a : Action Number) : bool :=
  match a with
  | Settle _ _ => true
  | _ => false
  end.

(** The state a round leaves, by the state it found when it resumed and
    by how the call of [fetchExchangeRate] settled. *)
Definition round_state (found : CurrencyRateState Number)
  (r : Reply Number) : CurrencyRateState Number :=
  {| conversionDate :=
       match r with
       | Fetched _ seconds => Some seconds
       | Failed _ => None
       end;
     conversionRate :=
       match r with
       | Fetched response _ => response_conversionRate response
       | Failed _ => None
       end;
     currentCurrency :=
       match pendingCurrentCurrency found with
       | Some pending => pending
       | None => currentCurrency found
       end;
     nativeCurrency :=
       match pendingNativeCurrency found with
       | Some pending => pending
       | None => nativeCurrency found
       end;
     pendingCurrentCurrency := None;
     pendingNativeCurrency := None;
     usdConversionRate :=
       match r with
       | Fetched response _ => response_usdConversionRate response
       | Failed _ => None
       end |}.

(** How the promise of a round settles, by the state the round leaves. *)
Definition round_settlement (left : CurrencyRateState Number)
  (r : Reply Number) : Settlement Number :=
  match r with
  | Fetched _ _ => Fulfilled left
  | Failed error =>
      if market_missing error then Fulfilled left else Rejected error
  end.

Unset Implicit Arguments.
End Schedules.

(** *** Sample controllers *)

Definition defaultState : CurrencyRateState nat :=
  {| conversionDate := Some 0;
     conversionRate := Some 0;
     currentCurrency := "usd";
     nativeCurrency := "ETH";
     pendingCurrentCurrency := None;
     pendingNativeCurrency := None;
     usdConversionRate := None |}.

(** A started controller whose first round awaits its reply. *)
Definition fetching : Controller nat :=
  match run ["GoerliETH"] "ETH" [Call_start; Resume]
          (construct defaultState false) with
  | Some c => c
  | None => construct defaultState false
  end.

End CurrencyRate.

(** * Properties of [NetworkController.ts] *)

Section NC_basics.
Import ControllerUtils NC.

Lemma lookupNetwork_frame (c : Controller) :
  state (lookupNetwork c) = state c /\
  provider (lookupNetwork c) = provider c /\
  ethQuery (lookupNetwork c) = ethQuery c /\
  published (lookupNetwork c) = published c /\
  requests (lookupNetwork c) = requests c.
Proof.
  unfold lookupNetwork, acquire.
  destruct (sender c); simpl; [destruct (locked c)|]; simpl;
    repeat split; reflexivity.
Qed.

Lemma getEIP1559Compatibility_frame (c : Controller) :
  let c' := fst (getEIP1559Compatibility c) in
  state c' = state c /\ provider c' = provider c /\
  ethQuery c' = ethQuery c /\ published c' = published c /\
  locked c' = locked c /\ waiting c' = waiting c /\
  resuming c' = resuming c /\ rounds c' = rounds c /\
  settled c' = settled c.
Proof.
  unfold getEIP1559Compatibility.
  destruct (negb (is_true (isEIP1559Compatible (properties (state c)))));
    [destruct (sender c)|]; simpl; repeat split; reflexivity.
Qed.

(** [registerProvider] is only reached with the provider just assigned, so
    its guard never fires inside [updateProvider]. *)
Lemma updateProvider_returns (client : Client) (c : Controller) :
  exists c',
    updateProvider client c = Returns c' /\
    state c' = state c /\
    provider c' =
      Some (on_error (providerFromEngine (networkMiddleware client))) /\
    sender c' <> None.
Proof.
  unfold updateProvider, registerProvider. simpl.
  eexists. split; [reflexivity|]. simpl. repeat split. discriminate.
Qed.

Lemma initializeProvider_throws (t : string) (r i : option string)
  (c : Controller) :
  throws (initializeProvider t r i c) = negb (recognized t).
Proof.
  unfold initializeProvider, recognized, setupInfuraProvider,
    setupStandardProvider, updateProvider, registerProvider.
  destruct (isInfuraType t); simpl; [reflexivity|].
  destruct (String.eqb t "localhost"); simpl; [reflexivity|].
  destruct (String.eqb t RPC); simpl; [|reflexivity].
  destruct r as [url|]; [|reflexivity].
  destruct (truthy (Some url)); reflexivity.
Qed.

Lemma filter_net_version_probe (rs : list Request) (e : Endpoint)
  (k : NetworkProperties) :
  filter is_net_version
    (rs ++ [{| method := eth_getBlockByNumber; sentTo := e;
               callback := getEIP1559Compatibility_cb k |}]) =
  filter is_net_version rs.
Proof. rewrite filter_app. simpl. apply app_nil_r. Qed.

(** What [initializeProvider] touches: the custom-network flag, and the
    connection when the kind calls for one. The identity, the mutex and
    the identity requests in flight are left alone. *)
Lemma initializeProvider_frame (t : string) (r i : option string)
  (c : Controller) :
  let c' := after (initializeProvider t r i c) in
  (network (state c') = network (state c) /\
   providerConfig (state c') = providerConfig (state c) /\
   properties (state c') = properties (state c)) /\
  (locked c' = locked c /\ waiting c' = waiting c /\
   resuming c' = resuming c /\ rounds c' = rounds c /\
   settled c' = settled c /\
   filter is_net_version (requests c') =
   filter is_net_version (requests c)) /\
  ((provider c' = provider c /\ ethQuery c' = ethQuery c) \/
   (exists p, provider c' = Some p /\ errorListeners p = 1 /\
              ethQuery c' = Some (new_EthQuery p))).
Proof.
  unfold initializeProvider, setupInfuraProvider, setupStandardProvider,
    updateProvider, registerProvider, getEIP1559Compatibility.
  destruct (isInfuraType t);
    [|destruct (String.eqb t "localhost");
      [|destruct (String.eqb t RPC);
        [destruct r as [url|]; [destruct (truthy (Some url))|]|]]];
    simpl;
    destruct (negb (is_true (isEIP1559Compatible (properties (state c)))));
    simpl;
    try (unfold sender; simpl;
         destruct (ethQuery c) as [[cp [|]]|] eqn:Hq; simpl);
    rewrite ?filter_net_version_probe;
    (split; [repeat split; reflexivity|]);
    (split; [repeat split; reflexivity|]);
    first [left; split; congruence
          |right; eexists; repeat split; reflexivity].
Qed.

Lemma throws_andThen {W : Type} (m : Completion W) (f : W -> W) :
  throws (andThen m (fun w => Returns (f w))) = throws m.
Proof. destruct m; reflexivity. Qed.

Lemma after_andThen {W : Type} (m : Completion W) (f : W -> W) :
  after (andThen m (fun w => Returns (f w))) =
  if throws m then after m else f (after m).
Proof. destruct m; reflexivity. Qed.

Lemma refreshNetwork_network (c : Controller) :
  network (state (after (refreshNetwork c))) = loading.
Proof.
  unfold refreshNetwork. rewrite after_andThen.
  match goal with
  | |- context [initializeProvider ?t ?r ?i ?c0] =>
      pose proof (initializeProvider_frame t r i c0) as [[Hn _] _];
      destruct (throws (initializeProvider t r i c0))
  end.
  - rewrite Hn. reflexivity.
  - match goal with
    | |- context [lookupNetwork ?c0] =>
        destruct (lookupNetwork_frame c0) as [-> _]
    end.
    rewrite Hn. reflexivity.
Qed.

(** C1 (amended). After the synchronous part of [setProviderType] and of
    [setRpcTarget], whether the call returns or throws, the stored
    identity is ['loading']; the [providerConfig] setter does not go
    through [refreshNetwork] and leaves the stored identity as it was. *)
Theorem selection_change_identity (c : Controller) :
  (forall t, network (state (after (setProviderType t c))) = loading) /\
  (forall u i tk n,
      network (state (after (setRpcTarget u i tk n c))) = loading) /\
  (forall cfg,
      network (state (after (set_providerConfig cfg c))) =
      network (state c)).
Proof.
  split; [|split]; intros.
  - apply refreshNetwork_network.
  - apply refreshNetwork_network.
  - unfold set_providerConfig. rewrite after_andThen.
    match goal with
    | |- context [initializeProvider ?t ?r ?i ?c0] =>
        pose proof (initializeProvider_frame t r i c0) as [[Hn _] _];
        destruct (throws (initializeProvider t r i c0))
    end.
    + exact Hn.
    + match goal with
      | |- context [lookupNetwork ?c0] =>
          destruct (lookupNetwork_frame c0) as [-> _]
      end.
      exact Hn.
Qed.

(** C1, as stated, fails for the setter: a controller whose stored
    identity is "1" still stores "1" after an assignment to
    [providerConfig]. *)
Lemma setter_keeps_identity :
  network (state (after (set_providerConfig
                           (providerConfig defaultState)
                           connected_to_1))) = "1" /\
  "1" <> loading.
Proof. split; [reflexivity|discriminate]. Qed.

(** C4. [setProviderType] throws exactly for the kinds
    [initializeProvider] has no case for, with the message naming the
    kind; [setRpcTarget], whose kind is ['rpc'], never throws; the setter
    throws exactly when the stored kind is unrecognized. *)
Theorem throws_iff_unrecognized (c : Controller) :
  (forall t, throws (setProviderType t c) = negb (recognized t)) /\
  (forall u i tk n, throws (setRpcTarget u i tk n c) = false) /\
  (forall cfg,
      throws (set_providerConfig cfg c) =
      negb (recognized (type (providerConfig (state c))))) /\
  (forall t r i,
      throws (initializeProvider t r i c) = negb (recognized t)).
Proof.
  split; [|split; [|split]]; intros.
  - unfold setProviderType, refreshNetwork.
    rewrite throws_andThen, initializeProvider_throws. reflexivity.
  - unfold setRpcTarget, refreshNetwork.
    rewrite throws_andThen, initializeProvider_throws. reflexivity.
  - unfold set_providerConfig.
    rewrite throws_andThen, initializeProvider_throws. reflexivity.
  - apply initializeProvider_throws.
Qed.

Lemma initializeProvider_rpc_no_target (r i : option string)
  (c : Controller) :
  truthy r = false ->
  exists c',
    initializeProvider RPC r i c = Returns c' /\ provider c' = provider c.
Proof.
  intros Hr. unfold initializeProvider. simpl.
  destruct r as [url|]; [rewrite Hr|]; simpl; eexists;
    (split; [reflexivity|]);
    match goal with
    | |- context [getEIP1559Compatibility ?c0] =>
        destruct (getEIP1559Compatibility_frame c0) as (_ & -> & _)
    end; reflexivity.
Qed.

(** C7 (amended). Selecting the custom-RPC kind with an empty endpoint
    ([setRpcTarget] with the empty string, or [setProviderType] with
    ['rpc'], which clears the target) returns without throwing and leaves
    the [provider] field as it was: unset when it was unset, and still the
    previous connection otherwise. *)
Theorem empty_rpc_target_keeps_provider (c : Controller) :
  (forall i tk n,
      throws (setRpcTarget "" i tk n c) = false /\
      provider (after (setRpcTarget "" i tk n c)) = provider c) /\
  (throws (setProviderType RPC c) = false /\
   provider (after (setProviderType RPC c)) = provider c).
Proof.
  split; intros; split.
  - unfold setRpcTarget, refreshNetwork.
    rewrite throws_andThen, initializeProvider_throws. reflexivity.
  - unfold setRpcTarget, refreshNetwork.
    match goal with
    | |- context [initializeProvider ?t ?r ?i ?c0] =>
        destruct (initializeProvider_rpc_no_target r i c0 eq_refl)
          as (c' & Hc & Hp);
        change (initializeProvider t r i c0)
          with (initializeProvider RPC r i c0);
        rewrite Hc
    end.
    simpl. destruct (lookupNetwork_frame c') as (_ & -> & _).
    rewrite Hp. reflexivity.
  - unfold setProviderType, refreshNetwork.
    rewrite throws_andThen, initializeProvider_throws. reflexivity.
  - unfold setProviderType, refreshNetwork.
    match goal with
    | |- context [initializeProvider ?t ?r ?i ?c0] =>
        destruct (initializeProvider_rpc_no_target r i c0 eq_refl)
          as (c' & Hc & Hp);
        change (initializeProvider t r i c0)
          with (initializeProvider RPC r i c0);
        rewrite Hc
    end.
    simpl. destruct (lookupNetwork_frame c') as (_ & -> & _).
    rewrite Hp. reflexivity.
Qed.

(** C7, as stated, fails when a connection was active before: after
    selecting mainnet and then the custom-RPC kind with an empty endpoint,
    the [provider] field still holds the mainnet connection. *)
Lemma empty_rpc_target_provider_still_set :
  throws (setRpcTarget "" "1" None None on_mainnet) = false /\
  provider (after (setRpcTarget "" "1" None None on_mainnet)) =
  Some {| engine := Infura "mainnet" (Some "project");
          errorListeners := 1 |}.
Proof. split; reflexivity. Qed.

(** C10. The setter never reads the value assigned: any two values give
    the same completion, hence the same provider, state and published
    messages, because the connection is rebuilt from the stored
    [state.providerConfig]. *)
Theorem setter_ignores_argument (c1 c2 : ProviderConfig) (c : Controller) :
  set_providerConfig c1 c = set_providerConfig c2 c /\
  set_providerConfig c1 c =
  andThen
    (initializeProvider (type (providerConfig (state c)))
       (rpcTarget (providerConfig (state c)))
       (chainId (providerConfig (state c))) c)
    (fun c' => Returns (lookupNetwork c')).
Proof. split; reflexivity. Qed.

End NC_basics.

(** ** The capability probe *)

Section NC_probe.
Import ControllerUtils NC.

Lemma probe_when_true (c : Controller) :
  is_true (flag c) = true ->
  getEIP1559Compatibility c = (c, Some (Fulfilled true)).
Proof.
  unfold getEIP1559Compatibility, flag. intros ->. reflexivity.
Qed.

Lemma probes_when_true (acts : list Action) :
  forall c c',
    is_true (flag c) = true ->
    forallb probe_call acts = true ->
    run acts c = Some c' -> c' = c.
Proof.
  induction acts as [|a acts IH]; simpl; intros c c' Hf Hacts Hrun.
  - congruence.
  - apply andb_prop in Hacts as [Ha Hacts].
    destruct a; try discriminate. simpl in Hrun.
    rewrite (probe_when_true c Hf) in Hrun. simpl in Hrun.
    eauto.
Qed.

(** C5 (amended). (1) With the stored flag true the probe resolves to
    true and sends nothing. (2) Without a callable [sendAsync] it resolves
    to true and sends nothing. (3) Otherwise it sends exactly one
    latest-block request and stays pending; when the reply comes, the
    promise is rejected on an error, and otherwise resolves to whether the
    block has a [baseFeePerGas], the state being written exactly when that
    boolean differs from the flag read when the probe was called. (4) Any
    number of probes called once the flag is true leave the controller as
    it is, so none of them sets the flag back to false. *)
Theorem probe_contract (c : Controller) :
  (is_true (flag c) = true ->
   getEIP1559Compatibility c = (c, Some (Fulfilled true))) /\
  (sender c = None ->
   getEIP1559Compatibility c = (c, Some (Fulfilled true))) /\
  (forall q,
      is_true (flag c) = false -> sender c = Some q ->
      getEIP1559Compatibility c =
      (set_requests
         (requests c ++
          [{| method := eth_getBlockByNumber;
              sentTo := currentProvider q;
              callback :=
                getEIP1559Compatibility_cb (properties (state c)) |}]) c,
       None)) /\
  (forall k c2,
      (forall e,
          getEIP1559Compatibility_callback k (Failure e) c2 =
          (c2, Rejected e)) /\
      (forall block,
          getEIP1559Compatibility_callback k (Success block) c2 =
          (if differs (isEIP1559Compatible k) (has_baseFeePerGas block)
           then update
                  (set_isEIP1559Compatible (has_baseFeePerGas block)) c2
           else c2,
           Fulfilled (has_baseFeePerGas block)))) /\
  (forall acts c',
      is_true (flag c) = true ->
      forallb probe_call acts = true ->
      run acts c = Some c' -> c' = c).
Proof.
  split; [apply probe_when_true|].
  split.
  { intros Hs. unfold getEIP1559Compatibility. rewrite Hs.
    destruct (negb _); reflexivity. }
  split.
  { intros q Hf Hs. unfold getEIP1559Compatibility.
    unfold flag in Hf. rewrite Hf, Hs. reflexivity. }
  split.
  { intros k c2. split; intros; reflexivity. }
  intros acts c'. apply probes_when_true.
Qed.

Lemma probe_contract_witness :
  (is_true (flag fee_market_known) = true /\
   getEIP1559Compatibility fee_market_known =
   (fee_market_known, Some (Fulfilled true))) /\
  (is_true (flag on_mainnet) = false /\
   snd (getEIP1559Compatibility on_mainnet) = None).
Proof.
  split; (split; [reflexivity|]).
  - exact (proj1 (probe_contract fee_market_known) eq_refl).
  - destruct (probe_contract on_mainnet) as (_ & _ & H & _).
    rewrite (H {| currentProvider := Infura "mainnet" (Some "project");
                  sendAsync := true |} eq_refl eq_refl).
    reflexivity.
Defined.

(** C5, as stated, fails for a probe that is already in flight when the
    flag becomes true. With kovan selected and then mainnet, the probes
    sent to both are in flight; the reply from mainnet has the base-fee
    field and sets the flag to true; the late reply from kovan has none
    and, compared with the absent flag captured when that probe was called,
    sets the flag back to false. *)
Lemma probe_in_flight_clears_flag :
  flag fee_market_known = Some true /\
  exists c,
    step (Reply_eth_getBlockByNumber 0 (Success legacy_block))
      fee_market_known = Some c /\
    flag c = Some false.
Proof.
  split; [reflexivity|]. eexists. split; reflexivity.
Qed.

End NC_probe.

(** ** The error observer *)

Section NC_error_event.
Import ControllerUtils NC.

Lemma run_invariant (P : Controller -> Prop) :
  (forall a c c', step a c = Some c' -> P c -> P c') ->
  forall acts c c', run acts c = Some c' -> P c -> P c'.
Proof.
  intros Hstep. induction acts as [|a acts IH]; simpl; intros c c' Hrun Hc.
  - congruence.
  - destruct (step a c) as [c1|] eqn:Ha; [|discriminate]. eauto.
Qed.

Lemma verifyNetwork_connection (c : Controller) :
  provider (verifyNetwork c) = provider c /\
  ethQuery (verifyNetwork c) = ethQuery c.
Proof.
  unfold verifyNetwork. destruct (String.eqb _ _); [|split; reflexivity].
  destruct (lookupNetwork_frame c) as (_ & -> & -> & _). split; reflexivity.
Qed.

Lemma iter_verifyNetwork_connection (n : nat) (c : Controller) :
  provider (Nat.iter n verifyNetwork c) = provider c /\
  ethQuery (Nat.iter n verifyNetwork c) = ethQuery c.
Proof.
  induction n as [|n [IHp IHq]]; simpl; [split; reflexivity|].
  destruct (verifyNetwork_connection (Nat.iter n verifyNetwork c))
    as [-> ->].
  split; assumption.
Qed.

Lemma lookupNetwork_callback_connection (round : nat) (r : Reply string)
  (c : Controller) :
  provider (lookupNetwork_callback round r c) = provider c /\
  ethQuery (lookupNetwork_callback round r c) = ethQuery c.
Proof.
  unfold lookupNetwork_callback, lookupNetwork_finally, releaseLock.
  destruct r as [e|n]; [|destruct (String.eqb _ n)]; simpl;
    destruct (waiting c); split; reflexivity.
Qed.

Lemma selection_connection (m : Completion Controller)
  (c : Controller) :
  ((provider (after m) = provider c /\ ethQuery (after m) = ethQuery c) \/
   (exists p, provider (after m) = Some p /\ errorListeners p = 1 /\
              ethQuery (after m) = Some (new_EthQuery p))) ->
  wired c ->
  wired (after (andThen m (fun c' => Returns (lookupNetwork c')))).
Proof.
  intros H Hc. rewrite after_andThen.
  assert (wired (after m)) as Hm.
  { unfold wired in *. destruct H as [[Hp Hq]|(p & Hp & Hl & Hq)].
    - rewrite Hp, Hq. exact Hc.
    - rewrite Hp. split; assumption. }
  destruct (throws m); [exact Hm|].
  unfold wired in *.
  destruct (lookupNetwork_frame (after m)) as (_ & -> & -> & _).
  exact Hm.
Qed.

Lemma step_wired (a : Action) (c c' : Controller) :
  step a c = Some c' -> wired c -> wired c'.
Proof.
  destruct a; simpl; intros Hstep Hc.
  - injection Hstep as <-. unfold setProviderType, refreshNetwork.
    match goal with
    | |- context [initializeProvider ?t ?r ?i ?c0] =>
        apply (selection_connection (initializeProvider t r i c0) c);
        [exact (proj2 (proj2 (initializeProvider_frame t r i c0)))
        |exact Hc]
    end.
  - injection Hstep as <-. unfold setRpcTarget, refreshNetwork.
    match goal with
    | |- context [initializeProvider ?t ?r ?i ?c0] =>
        apply (selection_connection (initializeProvider t r i c0) c);
        [exact (proj2 (proj2 (initializeProvider_frame t r i c0)))
        |exact Hc]
    end.
  - injection Hstep as <-. unfold set_providerConfig.
    match goal with
    | |- context [initializeProvider ?t ?r ?i ?c0] =>
        apply (selection_connection (initializeProvider t r i c0) c);
        [exact (proj2 (proj2 (initializeProvider_frame t r i c0)))
        |exact Hc]
    end.
  - injection Hstep as <-. unfold wired in *.
    destruct (lookupNetwork_frame c) as (_ & -> & -> & _). exact Hc.
  - injection Hstep as <-. unfold wired in *.
    destruct (getEIP1559Compatibility_frame c) as (_ & -> & -> & _).
    exact Hc.
  - destruct (resuming c) as [|round rest]; [discriminate|].
    injection Hstep as <-. unfold wired in *.
    match goal with
    | |- context [lookupNetwork_resume ?n ?c0] =>
        assert (provider (fst (lookupNetwork_resume n c0)) = provider c /\
                ethQuery (fst (lookupNetwork_resume n c0)) = ethQuery c)
          as [-> ->]; [|exact Hc]
    end.
    unfold lookupNetwork_resume, sender. simpl.
    destruct (ethQuery c) as [[cp [|]]|] eqn:Hq; simpl; rewrite ?Hq;
      split; reflexivity.
  - destruct (nth_error (requests c) i) as [[[|] e [round|k]]|];
      try discriminate.
    injection Hstep as <-. unfold wired in *.
    destruct (lookupNetwork_callback_connection round r
                (set_requests (remove_nth i (requests c)) c)) as [-> ->].
    exact Hc.
  - destruct (nth_error (requests c) i) as [[[|] e [round|k]]|];
      try discriminate.
    injection Hstep as <-. unfold wired in *.
    unfold getEIP1559Compatibility_callback.
    destruct r as [err|block]; [exact Hc|].
    destruct (differs _ _); exact Hc.
  - injection Hstep as <-. unfold emit_error, wired in *.
    destruct (provider c) as [p|] eqn:Hp; [|rewrite Hp; exact I].
    destruct (iter_verifyNetwork_connection (errorListeners p) c)
      as [-> ->].
    rewrite Hp. exact Hc.
Qed.

Lemma reachable_wired (c : Controller) : reachable c -> wired c.
Proof.
  intros (s0 & pid & acts & Hrun).
  apply (run_invariant wired step_wired acts _ _ Hrun). exact I.
Qed.

(** C9. On a controller the program can hold, with an active provider,
    an ['error'] event of that provider starts exactly one detection round
    (one call of [acquire], so one more round) when the stored identity
    is ['loading'], and changes nothing when it is anything else. *)
Theorem error_event_round (c : Controller) :
  reachable c -> provider c <> None ->
  (network (state c) = loading ->
   emit_error c = acquire c /\ rounds (emit_error c) = S (rounds c)) /\
  (network (state c) <> loading -> emit_error c = c).
Proof.
  intros Hr Hp. apply reachable_wired in Hr. unfold wired in Hr.
  unfold emit_error.
  destruct (provider c) as [p|]; [|congruence].
  destruct Hr as [-> Hq]. simpl. unfold verifyNetwork.
  split; intros Hn.
  - rewrite Hn. simpl. unfold lookupNetwork, sender. rewrite Hq. simpl.
    split; [reflexivity|].
    unfold acquire. destruct (locked _); reflexivity.
  - apply String.eqb_neq in Hn. rewrite Hn. reflexivity.
Qed.

Lemma error_event_round_witness :
  (emit_error on_mainnet = acquire on_mainnet /\
   rounds (emit_error on_mainnet) = S (rounds on_mainnet)) /\
  emit_error connected_to_1 = connected_to_1.
Proof.
  assert (reachable on_mainnet) as H1.
  { exists defaultState, (Some "project"), [Call_setProviderType "mainnet"].
    vm_compute. reflexivity. }
  assert (reachable connected_to_1) as H2.
  { exists defaultState, (Some "project"),
      [Call_setProviderType "mainnet"; Resume;
       Reply_net_version 1 (Success "1")].
    vm_compute. reflexivity. }
  split.
  - apply (proj1 (error_event_round on_mainnet H1 ltac:(discriminate))).
    reflexivity.
  - apply (proj2 (error_event_round connected_to_1 H2
                    ltac:(discriminate))).
    vm_compute. discriminate.
Defined.

End NC_error_event.

(** ** Identity detection is serial *)

Section NC_detection.
Import ControllerUtils NC.

Lemma filter_nth_error_nonempty {A : Type} (p : A -> bool) (l : list A) :
  forall i x, nth_error l i = Some x -> p x = true -> filter p l <> [].
Proof.
  induction l as [|a l IH]; intros [|i] x Hn Hp; simpl in *;
    try discriminate.
  - injection Hn as ->. rewrite Hp. discriminate.
  - destruct (p a); [discriminate|]. eauto.
Qed.

Lemma filter_remove_nth_hit {A : Type} (p : A -> bool) (l : list A) :
  forall i x,
    nth_error l i = Some x -> p x = true ->
    List.length (filter p l) <= 1 ->
    filter p l = [x] /\ filter p (remove_nth i l) = [].
Proof.
  induction l as [|a l IH]; intros [|i] x Hn Hp Hlen; simpl in *;
    try discriminate.
  - injection Hn as ->. rewrite Hp in *. simpl in Hlen.
    destruct (filter p l); [split; reflexivity|simpl in Hlen; lia].
  - destruct (p a) eqn:Ha.
    + simpl in Hlen. exfalso.
      apply (filter_nth_error_nonempty p l i x Hn Hp).
      destruct (filter p l); [reflexivity|simpl in Hlen; lia].
    + simpl. rewrite ?Ha. eauto.
Qed.

Lemma filter_remove_nth_miss {A : Type} (p : A -> bool) (l : list A) :
  forall i x,
    nth_error l i = Some x -> p x = false ->
    filter p (remove_nth i l) = filter p l.
Proof.
  induction l as [|a l IH]; intros [|i] x Hn Hp; simpl in *;
    try discriminate.
  - injection Hn as ->. rewrite Hp. reflexivity.
  - destruct (p a); [f_equal|]; eauto.
Qed.

(** [serial] only looks at the mutex, the identity requests and whether
    a request can be sent. *)
Lemma serial_transfer (c c' : Controller) :
  locked c' = locked c -> waiting c' = waiting c ->
  resuming c' = resuming c -> rounds c' = rounds c ->
  settled c' = settled c ->
  filter is_net_version (requests c') =
  filter is_net_version (requests c) ->
  (sender c <> None -> sender c' <> None) ->
  serial c -> serial c'.
Proof.
  intros Hl Hw Hr Hn Hs Hf Hq [H1 H2 H3 H4 H5].
  unfold serving in *.
  constructor; unfold serving; rewrite ?Hl, ?Hw, ?Hr, ?Hn, ?Hs, ?Hf;
    auto.
Qed.

Lemma serial_acquire (c : Controller) :
  serial c -> sender c <> None -> serial (acquire c).
Proof.
  intros [H1 H2 H3 H4 H5] Hq. unfold acquire. simpl.
  destruct (locked c) eqn:Hl.
  - constructor; unfold serving in *; simpl;
      try change (0 :: seq 1 (rounds c)) with (seq 0 (S (rounds c)));
      auto; try discriminate.
    rewrite seq_S, <- H1, <- !app_assoc. reflexivity.
  - destruct (H3 eq_refl) as [Hs Hw]. unfold serving in *.
    apply app_eq_nil in Hs as [Hr Hm].
    constructor; unfold serving; simpl;
      rewrite ?Hr, ?Hm, ?Hw in *; simpl;
      try change (0 :: seq 1 (rounds c)) with (seq 0 (S (rounds c)));
      auto; try discriminate.
    rewrite seq_S, <- H1, app_nil_r. reflexivity.
Qed.

Lemma serial_lookupNetwork (c : Controller) :
  serial c -> serial (lookupNetwork c).
Proof.
  intros H. unfold lookupNetwork.
  destruct (sender c) eqn:Hq; [|exact H].
  apply serial_acquire; [exact H|congruence].
Qed.

Lemma serial_resume (c : Controller) (round : nat) (rest : list nat) :
  resuming c = round :: rest -> serial c ->
  serial (fst (lookupNetwork_resume round
                 (set_mutex (locked c) (waiting c) rest c))).
Proof.
  intros Hr [H1 H2 H3 H4 H5]. unfold serving in *. rewrite Hr in *.
  simpl in H2.
  assert (rest = [] /\ filter is_net_version (requests c) = [])
    as [-> Hf].
  { destruct rest; [|simpl in H2; lia].
    destruct (filter is_net_version (requests c));
      [split; reflexivity|simpl in H2; lia]. }
  assert (locked c = true) as Hl.
  { destruct (locked c); [reflexivity|].
    destruct (H3 eq_refl) as [Hs _]. discriminate. }
  specialize (H5 Hl). unfold lookupNetwork_resume.
  replace (sender (set_mutex (locked c) (waiting c) [] c))
    with (sender c) by reflexivity.
  destruct (sender c) as [q|] eqn:Hq; [|congruence]. simpl.
  constructor; unfold serving in *; simpl;
    rewrite ?filter_app, ?Hf in *; simpl in *; auto;
    try (intros _; discriminate).
  intros _. change (sender c <> None). congruence.
Qed.

Lemma lookupNetwork_callback_mutex (round : nat) (r : Reply string)
  (c : Controller) :
  let c' := lookupNetwork_callback round r c in
  let f := lookupNetwork_finally round c in
  locked c' = locked f /\ waiting c' = waiting f /\
  resuming c' = resuming f /\ rounds c' = rounds f /\
  settled c' = settled f /\ requests c' = requests f /\
  ethQuery c' = ethQuery f.
Proof.
  unfold lookupNetwork_callback, lookupNetwork_finally, releaseLock.
  destruct r as [e|n]; [|destruct (String.eqb _ n)]; simpl;
    destruct (waiting c); simpl; repeat split; reflexivity.
Qed.

Lemma serial_finally (c : Controller) (i round : nat) (req : Request) :
  nth_error (requests c) i = Some req ->
  is_net_version req = true -> round_of req = round ->
  serial c ->
  serial (lookupNetwork_finally round
            (set_requests (remove_nth i (requests c)) c)).
Proof.
  intros Hn Hm Hround [H1 H2 H3 H4 H5]. unfold serving in *.
  assert (List.length (filter is_net_version (requests c)) <= 1) as Hlen.
  { rewrite length_app, length_map in H2. lia. }
  destruct (filter_remove_nth_hit is_net_version _ i req Hn Hm Hlen)
    as [Hf Hf'].
  rewrite Hf in *. simpl in *. rewrite Hround in *.
  assert (resuming c = []) as Hr.
  { destruct (resuming c); [reflexivity|].
    rewrite length_app in H2. simpl in H2. lia. }
  rewrite Hr in *. simpl in *.
  assert (locked c = true) as Hl.
  { destruct (locked c); [reflexivity|].
    destruct (H3 eq_refl) as [Hs _]. discriminate. }
  unfold lookupNetwork_finally, releaseLock. simpl.
  destruct (waiting c) as [|w ws] eqn:Hw;
    constructor; unfold serving, sender in *; simpl;
    rewrite ?Hf', ?Hr in *; simpl; auto; try discriminate.
  - rewrite <- H1, <- !app_assoc. reflexivity.
  - rewrite <- H1, <- !app_assoc. reflexivity.
Qed.

Lemma serial_callback (c : Controller) (i round : nat) (req : Request)
  (r : Reply string) :
  nth_error (requests c) i = Some req ->
  is_net_version req = true -> round_of req = round ->
  serial c ->
  serial (lookupNetwork_callback round r
            (set_requests (remove_nth i (requests c)) c)).
Proof.
  intros Hn Hm Hround Hc.
  pose proof (serial_finally c i round req Hn Hm Hround Hc) as Hf.
  destruct (lookupNetwork_callback_mutex round r
              (set_requests (remove_nth i (requests c)) c))
    as (Hl & Hw & Hr & Hk & Hs & Hq & He).
  apply (serial_transfer _ _ Hl Hw Hr Hk Hs); [|clear - He|exact Hf].
  - rewrite Hq. reflexivity.
  - unfold sender. rewrite He. auto.
Qed.

Lemma serial_update (f : NetworkState -> NetworkState) (c : Controller) :
  serial c -> serial (update f c).
Proof.
  apply serial_transfer; try reflexivity. auto.
Qed.

Lemma serial_initializeProvider (t : string) (r i : option string)
  (c : Controller) :
  serial c -> serial (after (initializeProvider t r i c)).
Proof.
  destruct (initializeProvider_frame t r i c)
    as (_ & (Hl & Hw & Hr & Hk & Hs & Hf) & Hq).
  apply (serial_transfer _ _ Hl Hw Hr Hk Hs Hf).
  unfold sender.
  destruct Hq as [[_ ->]|(p & _ & _ & ->)]; [auto|].
  intros _. discriminate.
Qed.

Lemma serial_selection (t : string) (r i : option string)
  (c : Controller) :
  serial c ->
  serial (after (andThen (initializeProvider t r i c)
                   (fun c' => Returns (lookupNetwork c')))).
Proof.
  intros H. rewrite after_andThen.
  apply (serial_initializeProvider t r i) in H.
  destruct (throws _); [exact H|].
  apply serial_lookupNetwork. exact H.
Qed.

Lemma serial_getEIP1559Compatibility (c : Controller) :
  serial c -> serial (fst (getEIP1559Compatibility c)).
Proof.
  destruct (getEIP1559Compatibility_frame c)
    as (_ & _ & Hq & _ & Hl & Hw & Hr & Hk & Hs).
  apply (serial_transfer _ _ Hl Hw Hr Hk Hs).
  - unfold getEIP1559Compatibility.
    destruct (negb _); [destruct (sender c)|]; simpl;
      rewrite ?filter_net_version_probe; reflexivity.
  - unfold sender. rewrite Hq. auto.
Qed.

Lemma serial_verifyNetwork (n : nat) (c : Controller) :
  serial c -> serial (Nat.iter n verifyNetwork c).
Proof.
  intros H. induction n as [|n IH]; simpl; [exact H|].
  unfold verifyNetwork at 1.
  destruct (String.eqb _ _); [apply serial_lookupNetwork|]; exact IH.
Qed.

Lemma step_serial (a : Action) (c c' : Controller) :
  step a c = Some c' -> serial c -> serial c'.
Proof.
  destruct a; simpl; intros Hstep Hc.
  - injection Hstep as <-. unfold setProviderType, refreshNetwork.
    apply serial_selection. do 2 apply serial_update. exact Hc.
  - injection Hstep as <-. unfold setRpcTarget, refreshNetwork.
    apply serial_selection. do 2 apply serial_update. exact Hc.
  - injection Hstep as <-. unfold set_providerConfig.
    apply serial_selection. exact Hc.
  - injection Hstep as <-. apply serial_lookupNetwork. exact Hc.
  - injection Hstep as <-. apply serial_getEIP1559Compatibility.
    exact Hc.
  - destruct (resuming c) as [|round rest] eqn:Hr; [discriminate|].
    injection Hstep as <-. apply serial_resume; assumption.
  - destruct (nth_error (requests c) i) as [[[|] e [round|k]]|] eqn:Hn;
      try discriminate.
    injection Hstep as <-.
    apply (serial_callback c i round _ r Hn); [reflexivity..|exact Hc].
  - destruct (nth_error (requests c) i) as [[[|] e [round|k]]|] eqn:Hn;
      try discriminate.
    injection Hstep as <-.
    assert (serial (set_requests (remove_nth i (requests c)) c)) as H0.
    { revert Hc. apply serial_transfer; try reflexivity; [|auto].
      simpl. apply (filter_remove_nth_miss _ _ _ _ Hn). reflexivity. }
    unfold getEIP1559Compatibility_callback.
    destruct r as [err|block]; [exact H0|].
    destruct (differs _ _); [apply serial_update|]; exact H0.
  - injection Hstep as <-. unfold emit_error.
    destruct (provider c) as [p|]; [|exact Hc].
    apply serial_verifyNetwork. exact Hc.
Qed.

Lemma serial_construct (s0 : NetworkState) (pid : option string) :
  serial (construct s0 pid).
Proof.
  constructor; unfold serving; simpl; auto; discriminate.
Qed.

Lemma reachable_serial (c : Controller) : reachable c -> serial c.
Proof.
  intros (s0 & pid & acts & Hrun).
  apply (run_invariant serial step_serial acts _ _ Hrun).
  apply serial_construct.
Qed.

(** At most one identity request is in flight. *)
Lemma serial_in_flight (c : Controller) : serial c -> in_flight c <= 1.
Proof.
  intros [_ H _ _ _]. unfold serving, in_flight in *.
  rewrite length_app, length_map in H. lia.
Qed.

Lemma run_app (a1 a2 : list Action) :
  forall c,
    run (a1 ++ a2) c =
    match run a1 c with
    | Some c1 => run a2 c1
    | None => None
    end.
Proof.
  induction a1 as [|a a1 IH]; simpl; intros c; [reflexivity|].
  destruct (step a c); [apply IH|reflexivity].
Qed.

Lemma reachable_run (acts : list Action) (c c' : Controller) :
  reachable c -> run acts c = Some c' -> reachable c'.
Proof.
  intros (s0 & pid & acts0 & H0) H.
  exists s0, pid, (acts0 ++ acts). rewrite run_app, H0. exact H.
Qed.

Lemma networks_observed_app (l1 l2 : list Event) :
  networks_observed (l1 ++ l2) =
  networks_observed l1 ++ networks_observed l2.
Proof.
  induction l1 as [|[s|cfg|p] l1 IH]; simpl; rewrite ?IH; reflexivity.
Qed.

Lemma announcements_app (l1 l2 : list Event) :
  announcements (l1 ++ l2) = announcements l1 ++ announcements l2.
Proof.
  induction l1 as [|[s|cfg|p] l1 IH]; simpl; rewrite ?IH; reflexivity.
Qed.

(** The callback does to the state and to the publication log what
    [round_outcome] says. *)
Lemma lookupNetwork_callback_outcome (round : nat) (r : Reply string)
  (c : Controller) :
  state (lookupNetwork_callback round r c) =
  fst (round_outcome r (state c)) /\
  published (lookupNetwork_callback round r c) =
  published c ++ snd (round_outcome r (state c)).
Proof.
  unfold lookupNetwork_callback, lookupNetwork_finally, releaseLock,
    round_outcome.
  destruct r as [e|n]; [|destruct (String.eqb _ n)]; simpl;
    destruct (waiting c); simpl; rewrite <- ?app_assoc, ?app_nil_r;
    split; reflexivity.
Qed.

(** Along a schedule of detection only, the state and the publication
    log depend on the replies alone, taken in order of completion. *)
Lemma detection_log (acts : list Action) :
  forall c c',
    forallb detection_only acts = true ->
    run acts c = Some c' ->
    state c' = fst (rounds_outcome (replies_of acts) (state c)) /\
    published c' =
    published c ++ snd (rounds_outcome (replies_of acts) (state c)).
Proof.
  induction acts as [|a acts IH]; simpl; intros c c' Hd Hrun.
  - injection Hrun as <-. rewrite app_nil_r. split; reflexivity.
  - apply andb_prop in Hd as [Ha Hd].
    destruct a; try discriminate; simpl in Hrun.
    + destruct (IH _ _ Hd Hrun) as [Hs Hp].
      destruct (lookupNetwork_frame c) as (Es & _ & _ & Ep & _).
      rewrite Es in Hs, Hp. rewrite Ep in Hp. split; assumption.
    + destruct (resuming c) as [|round rest]; [discriminate|].
      destruct (IH _ _ Hd Hrun) as [Hs Hp].
      assert (forall c0,
                 state (fst (lookupNetwork_resume round c0)) = state c0 /\
                 published (fst (lookupNetwork_resume round c0)) =
                 published c0) as E.
      { intros c0. unfold lookupNetwork_resume.
        destruct (sender c0); split; reflexivity. }
      destruct (E (set_mutex (locked c) (waiting c) rest c)) as [Es Ep].
      rewrite Es in Hs, Hp. rewrite Ep in Hp. split; assumption.
    + destruct (nth_error (requests c) i) as [[[|] e [round|k]]|];
        try discriminate.
      destruct (IH _ _ Hd Hrun) as [Hs Hp].
      destruct (lookupNetwork_callback_outcome round r
                  (set_requests (remove_nth i (requests c)) c))
        as [Es Ep].
      rewrite Es in Hs, Hp. rewrite Ep in Hp. clear Es Ep.
      simpl in Hs, Hp. simpl.
      destruct (round_outcome r (state c)) as [s1 l1]. simpl in *.
      destruct (rounds_outcome (replies_of acts) s1) as [s2 l2].
      simpl in *. rewrite <- app_assoc in Hp. split; assumption.
Qed.

Lemma detection_counts (acts : list Action) :
  forall c c',
    forallb detection_only acts = true ->
    run acts c = Some c' ->
    rounds c' <= rounds c + calls_of acts /\
    List.length (settled c') =
    List.length (settled c) + List.length (replies_of acts).
Proof.
  induction acts as [|a acts IH]; simpl; intros c c' Hd Hrun.
  - injection Hrun as <-. lia.
  - apply andb_prop in Hd as [Ha Hd].
    destruct a; try discriminate; simpl in Hrun.
    + destruct (IH _ _ Hd Hrun) as [Hk Hs].
      assert (rounds (lookupNetwork c) <= S (rounds c) /\
              settled (lookupNetwork c) = settled c) as [Ek Es].
      { unfold lookupNetwork, acquire. destruct (sender c); simpl;
          [destruct (locked c)|]; simpl; split; auto. }
      rewrite Es in Hs. simpl. lia.
    + destruct (resuming c) as [|round rest]; [discriminate|].
      destruct (IH _ _ Hd Hrun) as [Hk Hs].
      assert (forall c0,
                 rounds (fst (lookupNetwork_resume round c0)) = rounds c0 /\
                 settled (fst (lookupNetwork_resume round c0)) =
                 settled c0) as E.
      { intros c0. unfold lookupNetwork_resume.
        destruct (sender c0); split; reflexivity. }
      destruct (E (set_mutex (locked c) (waiting c) rest c)) as [Ek Es].
      rewrite Ek in Hk. rewrite Es in Hs. simpl in Hk, Hs |- *. lia.
    + destruct (nth_error (requests c) i) as [[[|] e [round|k]]|];
        try discriminate.
      destruct (IH _ _ Hd Hrun) as [Hk Hs].
      destruct (lookupNetwork_callback_mutex round r
                  (set_requests (remove_nth i (requests c)) c))
        as (_ & _ & _ & Ek & Es & _).
      rewrite Ek in Hk. rewrite Es in Hs.
      unfold lookupNetwork_finally, releaseLock in Hk, Hs.
      simpl in Hk, Hs.
      destruct (waiting c); simpl in Hk, Hs |- *;
        rewrite length_app in Hs; simpl in Hs; lia.
Qed.

Lemma idle_serving (c : Controller) : idle c -> serving c = [].
Proof.
  intros (_ & _ & Hr & Hf). unfold serving, in_flight in *.
  rewrite Hr. apply length_zero_iff_nil in Hf. rewrite Hf. reflexivity.
Qed.

Lemma serving_nil_idle (c : Controller) :
  serial c -> serving c = [] -> waiting c = [] -> idle c.
Proof.
  intros [_ _ _ H4 _] Hs Hw. unfold idle, in_flight.
  unfold serving in *. apply app_eq_nil in Hs as [Hr Hm].
  apply map_eq_nil in Hm. rewrite Hm. repeat split; auto.
  destruct (locked c); [|reflexivity].
  exfalso. apply (H4 eq_refl). rewrite Hr, Hm. reflexivity.
Qed.

(** Three rounds answered "1", "2", "3", in [NetworkController.ts]. *)
Lemma three_rounds (c0 : Controller) (acts : list Action)
  (c' : Controller) :
  reachable c0 -> idle c0 -> network (state c0) <> "1" ->
  forallb detection_only acts = true ->
  calls_of acts = 3 ->
  replies_of acts = [Success "1"; Success "2"; Success "3"] ->
  run acts c0 = Some c' ->
  networks_observed (published c') =
  networks_observed (published c0) ++ ["1"; "2"; "3"] /\
  network (state c') = "3" /\
  settled c' =
  settled c0 ++ [rounds c0; S (rounds c0); S (S (rounds c0))] /\
  idle c' /\
  (forall pre post c1,
      acts = pre ++ post -> run pre c0 = Some c1 -> in_flight c1 <= 1).
Proof.
  intros Hreach Hidle Hn Hd Hcalls Hreplies Hrun.
  pose proof (reachable_serial _ Hreach) as S0.
  pose proof (reachable_serial _ (reachable_run _ _ _ Hreach Hrun)) as S1.
  destruct (detection_log acts c0 c' Hd Hrun) as [Hs Hp].
  destruct (detection_counts acts c0 c' Hd Hrun) as [Hk Hl].
  rewrite Hreplies in Hs, Hp, Hl. rewrite Hcalls in Hk.
  apply String.eqb_neq in Hn. simpl in Hs, Hp, Hl.
  rewrite Hn in Hs, Hp. simpl in Hs, Hp.
  split; [rewrite Hp, networks_observed_app; reflexivity|].
  split; [rewrite Hs; reflexivity|].
  pose proof (serial_order _ S0) as O0.
  rewrite (idle_serving _ Hidle) in O0.
  destruct Hidle as (_ & Hw0 & _). rewrite Hw0 in O0.
  simpl in O0. rewrite app_nil_r in O0.
  pose proof (serial_order _ S1) as O1.
  assert (List.length (settled c0) = rounds c0) as L0.
  { rewrite O0. apply length_seq. }
  pose proof (f_equal (@List.length nat) O1) as L1.
  rewrite !length_app, length_seq in L1.
  assert (serving c' = [] /\ waiting c' = [] /\
          rounds c' = rounds c0 + 3) as (E1 & E2 & E3).
  { repeat split; try apply length_zero_iff_nil; lia. }
  rewrite E1, E2, E3 in O1. simpl in O1. rewrite app_nil_r in O1.
  split.
  { rewrite O1, seq_app, <- O0. reflexivity. }
  split; [apply serving_nil_idle; assumption|].
  intros pre post c1 _ Hpre.
  apply serial_in_flight, reachable_serial.
  exact (reachable_run _ _ _ Hreach Hpre).
Qed.

(** What a round announces, in [NetworkController.ts]. *)
Lemma round_announcement (round : nat) (r : Reply string)
  (c : Controller) :
  announcements (published (lookupNetwork_callback round r c)) =
  announcements (published c) ++
  (if same_identity r (state c) then []
   else [providerConfig (state c)]).
Proof.
  destruct (lookupNetwork_callback_outcome round r c) as [_ ->].
  rewrite announcements_app. f_equal.
  unfold round_outcome, same_identity.
  destruct r as [e|n]; [reflexivity|].
  destruct (String.eqb _ n); reflexivity.
Qed.

(** A round that ends with an error, in [NetworkController.ts]. *)
Lemma round_failure (round : nat) (e : string) (c : Controller) :
  network (state (lookupNetwork_callback round (Failure e) c)) =
  loading /\
  settled (lookupNetwork_callback round (Failure e) c) =
  settled c ++ [round].
Proof.
  unfold lookupNetwork_callback, lookupNetwork_finally, releaseLock.
  simpl. destruct (waiting c); split; reflexivity.
Qed.

End NC_detection.

(** * Properties of the revision *)

(** ** The registry of network configurations *)

Section NC2_registry.
Import ControllerUtils NC2.









Lemma upsert_unfold (cfg : NetworkConfiguration) (random : string)
  (c : Controller) :
  snd (upsertNetworkConfiguration cfg random c) =
  match find_rpcUrl (rpcUrl cfg) (networkConfigurations (state c)) with
  | Some configUUID => configUUID
  | None => random
  end /\
  networkConfigurations
    (state (fst (upsertNetworkConfiguration cfg random c))) =
  assign (snd (upsertNetworkConfiguration cfg random c)) cfg
    (networkConfigurations (state c)).
Proof.
  unfold upsertNetworkConfiguration.
  destruct (find_rpcUrl _ _); split; reflexivity.
Qed.



End NC2_registry.

(** ** Identity detection in the revision *)

Section NC2_detection.
Import ControllerUtils NC2.

Lemma lookupNetwork_frame_rev (c : Controller) :
  state (lookupNetwork c) = state c /\
  provider (lookupNetwork c) = provider c /\
  ethQuery (lookupNetwork c) = ethQuery c /\
  published (lookupNetwork c) = published c /\
  requests (lookupNetwork c) = requests c.
Proof.
  unfold lookupNetwork, acquire.
  destruct (sender c); simpl; [destruct (locked c)|]; simpl;
    repeat split; reflexivity.
Qed.

Lemma getEIP1559Compatibility_frame_rev (c : Controller) :
  let c' := fst (getEIP1559Compatibility c) in
  state c' = state c /\ provider c' = provider c /\
  ethQuery c' = ethQuery c /\ published c' = published c /\
  locked c' = locked c /\ waiting c' = waiting c /\
  resuming c' = resuming c /\ rounds c' = rounds c /\
  settled c' = settled c.
Proof.
  unfold getEIP1559Compatibility.
  destruct (negb (is_true (isEIP1559Compatible (networkDetails (state c)))));
    [destruct (sender c)|]; simpl; repeat split; reflexivity.
Qed.

Lemma filter_net_version_probe_rev (rs : list Request) (e : EngineConfig)
  (k : NetworkDetails) :
  filter is_net_version
    (rs ++ [{| method := eth_getBlockByNumber; sentTo := e;
               callback := getEIP1559Compatibility_cb k |}]) =
  filter is_net_version rs.
Proof. rewrite filter_app. simpl. apply app_nil_r. Qed.

Lemma initializeProvider_frame_rev (t : string)
  (r i tk n : option string) (c : Controller) :
  let c' := after (initializeProvider t r i tk n c) in
  (network (state c') = network (state c) /\
   providerConfig (state c') = providerConfig (state c) /\
   networkDetails (state c') = networkDetails (state c)) /\
  (locked c' = locked c /\ waiting c' = waiting c /\
   resuming c' = resuming c /\ rounds c' = rounds c /\
   settled c' = settled c /\
   filter is_net_version (requests c') =
   filter is_net_version (requests c)) /\
  ((provider c' = provider c /\ ethQuery c' = ethQuery c) \/
   (exists p, provider c' = Some p /\
              ethQuery c' = Some (new_EthQuery p))).
Proof.
  unfold initializeProvider, setupInfuraProvider, setupStandardProvider,
    updateProvider, registerProvider, getEIP1559Compatibility.
  destruct (isInfuraType t);
    [|destruct (String.eqb t "localhost");
      [|destruct (String.eqb t RPC);
        [destruct r as [url|]; [destruct (truthy (Some url))|]|]]];
    simpl;
    destruct (negb (is_true (isEIP1559Compatible
                               (networkDetails (state c)))));
    simpl;
    try (unfold sender; simpl;
         destruct (ethQuery c) as [[cp [|]]|] eqn:Hq; simpl);
    rewrite ?filter_net_version_probe_rev;
    (split; [repeat split; reflexivity|]);
    (split; [repeat split; reflexivity|]);
    first [left; split; congruence
          |right; eexists; repeat split; reflexivity].
Qed.

Lemma run_invariant_rev (P : Controller -> Prop) :
  (forall a c c', step a c = Some c' -> P c -> P c') ->
  forall acts c c', run acts c = Some c' -> P c -> P c'.
Proof.
  intros Hstep. induction acts as [|a acts IH]; simpl; intros c c' Hrun Hc.
  - congruence.
  - destruct (step a c) as [c1|] eqn:Ha; [|discriminate]. eauto.
Qed.

(** [serial] only looks at the mutex, the identity requests and whether
    a request can be sent. *)
Lemma serial_transfer_rev (c c' : Controller) :
  locked c' = locked c -> waiting c' = waiting c ->
  resuming c' = resuming c -> rounds c' = rounds c ->
  settled c' = settled c ->
  filter is_net_version (requests c') =
  filter is_net_version (requests c) ->
  (sender c <> None -> sender c' <> None) ->
  serial c -> serial c'.
Proof.
  intros Hl Hw Hr Hn Hs Hf Hq [H1 H2 H3 H4 H5].
  unfold serving in *.
  constructor; unfold serving; rewrite ?Hl, ?Hw, ?Hr, ?Hn, ?Hs, ?Hf;
    auto.
Qed.

Lemma serial_acquire_rev (c : Controller) :
  serial c -> sender c <> None -> serial (acquire c).
Proof.
  intros [H1 H2 H3 H4 H5] Hq. unfold acquire. simpl.
  destruct (locked c) eqn:Hl.
  - constructor; unfold serving in *; simpl;
      try change (0 :: seq 1 (rounds c)) with (seq 0 (S (rounds c)));
      auto; try discriminate.
    rewrite seq_S, <- H1, <- !app_assoc. reflexivity.
  - destruct (H3 eq_refl) as [Hs Hw]. unfold serving in *.
    apply app_eq_nil in Hs as [Hr Hm].
    constructor; unfold serving; simpl;
      rewrite ?Hr, ?Hm, ?Hw in *; simpl;
      try change (0 :: seq 1 (rounds c)) with (seq 0 (S (rounds c)));
      auto; try discriminate.
    rewrite seq_S, <- H1, app_nil_r. reflexivity.
Qed.

Lemma serial_lookupNetwork_rev (c : Controller) :
  serial c -> serial (lookupNetwork c).
Proof.
  intros H. unfold lookupNetwork.
  destruct (sender c) eqn:Hq; [|exact H].
  apply serial_acquire_rev; [exact H|congruence].
Qed.

Lemma serial_resume_rev (c : Controller) (round : nat) (rest : list nat) :
  resuming c = round :: rest -> serial c ->
  serial (fst (lookupNetwork_resume round
                 (set_mutex (locked c) (waiting c) rest c))).
Proof.
  intros Hr [H1 H2 H3 H4 H5]. unfold serving in *. rewrite Hr in *.
  simpl in H2.
  assert (rest = [] /\ filter is_net_version (requests c) = [])
    as [-> Hf].
  { destruct rest; [|simpl in H2; lia].
    destruct (filter is_net_version (requests c));
      [split; reflexivity|simpl in H2; lia]. }
  assert (locked c = true) as Hl.
  { destruct (locked c); [reflexivity|].
    destruct (H3 eq_refl) as [Hs _]. discriminate. }
  specialize (H5 Hl). unfold lookupNetwork_resume.
  replace (sender (set_mutex (locked c) (waiting c) [] c))
    with (sender c) by reflexivity.
  destruct (sender c) as [q|] eqn:Hq; [|congruence]. simpl.
  constructor; unfold serving in *; simpl;
    rewrite ?filter_app, ?Hf in *; simpl in *; auto;
    try (intros _; discriminate).
  intros _. change (sender c <> None). congruence.
Qed.

Lemma lookupNetwork_continue_mutex (round : nat) (r : Reply string)
  (c : Controller) :
  let c' := fst (lookupNetwork_continue round r c) in
  let f := lookupNetwork_finally round c in
  locked c' = locked f /\ waiting c' = waiting f /\
  resuming c' = resuming f /\ rounds c' = rounds f /\
  settled c' = settled f /\ requests c' = requests f /\
  ethQuery c' = ethQuery f.
Proof.
  unfold lookupNetwork_continue, lookupNetwork_try, lookupNetwork_finally,
    releaseLock.
  destruct r as [e|n]; [|destruct (String.eqb _ n)]; simpl;
    destruct (waiting c); simpl; repeat split; reflexivity.
Qed.

Lemma serial_finally_rev (c : Controller) (i round : nat) (req : Request) :
  nth_error (requests c) i = Some req ->
  is_net_version req = true -> round_of req = round ->
  serial c ->
  serial (lookupNetwork_finally round
            (set_requests (remove_nth i (requests c)) c)).
Proof.
  intros Hn Hm Hround [H1 H2 H3 H4 H5]. unfold serving in *.
  assert (List.length (filter is_net_version (requests c)) <= 1) as Hlen.
  { rewrite length_app, length_map in H2. lia. }
  destruct (filter_remove_nth_hit is_net_version _ i req Hn Hm Hlen)
    as [Hf Hf'].
  rewrite Hf in *. simpl in *. rewrite Hround in *.
  assert (resuming c = []) as Hr.
  { destruct (resuming c); [reflexivity|].
    rewrite length_app in H2. simpl in H2. lia. }
  rewrite Hr in *. simpl in *.
  assert (locked c = true) as Hl.
  { destruct (locked c); [reflexivity|].
    destruct (H3 eq_refl) as [Hs _]. discriminate. }
  unfold lookupNetwork_finally, releaseLock. simpl.
  destruct (waiting c) as [|w ws] eqn:Hw;
    constructor; unfold serving, sender in *; simpl;
    rewrite ?Hf', ?Hr in *; simpl; auto; try discriminate.
  - rewrite <- H1, <- !app_assoc. reflexivity.
  - rewrite <- H1, <- !app_assoc. reflexivity.
Qed.

Lemma serial_callback_rev (c : Controller) (i round : nat) (req : Request)
  (r : Reply string) :
  nth_error (requests c) i = Some req ->
  is_net_version req = true -> round_of req = round ->
  serial c ->
  serial (fst (lookupNetwork_continue round r
                 (set_requests (remove_nth i (requests c)) c))).
Proof.
  intros Hn Hm Hround Hc.
  pose proof (serial_finally_rev c i round req Hn Hm Hround Hc) as Hf.
  destruct (lookupNetwork_continue_mutex round r
              (set_requests (remove_nth i (requests c)) c))
    as (Hl & Hw & Hr & Hk & Hs & Hq & He).
  apply (serial_transfer_rev _ _ Hl Hw Hr Hk Hs); [|clear - He|exact Hf].
  - rewrite Hq. reflexivity.
  - unfold sender. rewrite He. auto.
Qed.

Lemma serial_update_rev (f : NetworkState -> NetworkState) (c : Controller) :
  serial c -> serial (update f c).
Proof.
  apply serial_transfer_rev; try reflexivity. auto.
Qed.

Lemma serial_initializeProvider_rev (t : string)
  (r i tk n : option string) (c : Controller) :
  serial c -> serial (after (initializeProvider t r i tk n c)).
Proof.
  destruct (initializeProvider_frame_rev t r i tk n c)
    as (_ & (Hl & Hw & Hr & Hk & Hs & Hf) & Hq).
  apply (serial_transfer_rev _ _ Hl Hw Hr Hk Hs Hf).
  unfold sender.
  destruct Hq as [[_ ->]|(p & _ & ->)]; [auto|].
  intros _. discriminate.
Qed.

Lemma serial_registerProvider_rev (c : Controller) :
  serial c -> serial (after (registerProvider c)).
Proof.
  unfold registerProvider. destruct (provider c); [|auto].
  apply serial_transfer_rev; try reflexivity.
  intros _. discriminate.
Qed.

Lemma serial_selection_rev (t : string) (r i tk n : option string)
  (c : Controller) :
  serial c ->
  serial (after (andThen (initializeProvider t r i tk n c)
                   (fun c' => Returns (lookupNetwork c')))).
Proof.
  intros H. rewrite after_andThen.
  apply (serial_initializeProvider_rev t r i tk n) in H.
  destruct (throws _); [exact H|].
  apply serial_lookupNetwork_rev. exact H.
Qed.

Lemma serial_setter_rev (cfg : ProviderConfig) (c : Controller) :
  serial c -> serial (after (set_providerConfig cfg c)).
Proof.
  intros H. unfold set_providerConfig. rewrite after_andThen.
  match goal with
  | |- context [initializeProvider ?t ?r ?i ?tk ?n ?c0] =>
      assert (serial (after (initializeProvider t r i tk n c0))) as H0;
      [apply serial_initializeProvider_rev; revert H;
       apply serial_transfer_rev; try reflexivity; auto|];
      destruct (initializeProvider t r i tk n c0) as [c1|msg c1]
  end; simpl in *; [|exact H0].
  assert (serial (after (match provider c1 with
                         | Some _ => registerProvider c1
                         | None => Returns c1
                         end))) as H1.
  { destruct (provider c1) eqn:Hp; [|exact H0].
    apply serial_registerProvider_rev. exact H0. }
  destruct (match provider c1 with
            | Some _ => registerProvider c1
            | None => Returns c1
            end) as [c2|msg c2]; simpl in *; [|exact H1].
  apply serial_lookupNetwork_rev. exact H1.
Qed.

Lemma serial_getEIP1559Compatibility_rev (c : Controller) :
  serial c -> serial (fst (getEIP1559Compatibility c)).
Proof.
  destruct (getEIP1559Compatibility_frame_rev c)
    as (_ & _ & Hq & _ & Hl & Hw & Hr & Hk & Hs).
  apply (serial_transfer_rev _ _ Hl Hw Hr Hk Hs).
  - unfold getEIP1559Compatibility.
    destruct (negb _); [destruct (sender c)|]; simpl;
      rewrite ?filter_net_version_probe_rev; reflexivity.
  - unfold sender. rewrite Hq. auto.
Qed.

Lemma serial_verifyNetwork_rev (n : nat) (c : Controller) :
  serial c -> serial (Nat.iter n verifyNetwork c).
Proof.
  intros H. induction n as [|n IH]; simpl; [exact H|].
  unfold verifyNetwork at 1.
  destruct (String.eqb _ _); [apply serial_lookupNetwork_rev|]; exact IH.
Qed.

Lemma step_serial_rev (a : Action) (c c' : Controller) :
  step a c = Some c' -> serial c -> serial c'.
Proof.
  destruct a; simpl; intros Hstep Hc.
  - injection Hstep as <-. unfold setProviderType, refreshNetwork.
    apply serial_selection_rev. do 2 apply serial_update_rev. exact Hc.
  - injection Hstep as <-. unfold setRpcTarget, refreshNetwork.
    apply serial_selection_rev. do 2 apply serial_update_rev. exact Hc.
  - injection Hstep as <-. apply serial_setter_rev. exact Hc.
  - injection Hstep as <-. apply serial_lookupNetwork_rev. exact Hc.
  - injection Hstep as <-. apply serial_getEIP1559Compatibility_rev.
    exact Hc.
  - injection Hstep as <-. unfold upsertNetworkConfiguration.
    destruct (find_rpcUrl _ _); simpl; apply serial_update_rev; exact Hc.
  - injection Hstep as <-. apply serial_update_rev. exact Hc.
  - destruct (resuming c) as [|round rest] eqn:Hr; [discriminate|].
    injection Hstep as <-. apply serial_resume_rev; assumption.
  - destruct (nth_error (requests c) i) as [[[|] e [round|k]]|] eqn:Hn;
      try discriminate.
    injection Hstep as <-.
    apply (serial_callback_rev c i round _ r Hn);
      [reflexivity..|exact Hc].
  - destruct (nth_error (requests c) i) as [[[|] e [round|k]]|] eqn:Hn;
      try discriminate.
    injection Hstep as <-.
    assert (serial (set_requests (remove_nth i (requests c)) c)) as H0.
    { revert Hc. apply serial_transfer_rev; try reflexivity; [|auto].
      simpl. apply (filter_remove_nth_miss _ _ _ _ Hn). reflexivity. }
    unfold getEIP1559Compatibility_callback.
    destruct r as [err|block]; [exact H0|].
    destruct (differs _ _); [apply serial_update_rev|]; exact H0.
  - injection Hstep as <-. unfold emit_error.
    destruct (provider c) as [p|]; [|exact Hc].
    apply serial_verifyNetwork_rev. exact Hc.
Qed.

Lemma serial_construct_rev (s0 : NetworkState) (pid : option string) :
  serial (construct s0 pid).
Proof.
  constructor; unfold serving; simpl; auto; discriminate.
Qed.

Lemma reachable_serial_rev (c : Controller) : reachable c -> serial c.
Proof.
  intros (s0 & pid & acts & Hrun).
  apply (run_invariant_rev serial step_serial_rev acts _ _ Hrun).
  apply serial_construct_rev.
Qed.

(** At most one identity request is in flight. *)
Lemma serial_in_flight_rev (c : Controller) : serial c -> in_flight c <= 1.
Proof.
  intros [_ H _ _ _]. unfold serving, in_flight in *.
  rewrite length_app, length_map in H. lia.
Qed.

Lemma run_app_rev (a1 a2 : list Action) :
  forall c,
    run (a1 ++ a2) c =
    match run a1 c with
    | Some c1 => run a2 c1
    | None => None
    end.
Proof.
  induction a1 as [|a a1 IH]; simpl; intros c; [reflexivity|].
  destruct (step a c); [apply IH|reflexivity].
Qed.

Lemma reachable_run_rev (acts : list Action) (c c' : Controller) :
  reachable c -> run acts c = Some c' -> reachable c'.
Proof.
  intros (s0 & pid & acts0 & H0) H.
  exists s0, pid, (acts0 ++ acts). rewrite run_app_rev, H0. exact H.
Qed.

Lemma networks_observed_app_rev (l1 l2 : list Event) :
  networks_observed (l1 ++ l2) =
  networks_observed l1 ++ networks_observed l2.
Proof.
  induction l1 as [|[s|cfg] l1 IH]; simpl; rewrite ?IH; reflexivity.
Qed.

Lemma announcements_app_rev (l1 l2 : list Event) :
  announcements (l1 ++ l2) = announcements l1 ++ announcements l2.
Proof.
  induction l1 as [|[s|cfg] l1 IH]; simpl; rewrite ?IH; reflexivity.
Qed.

(** The callback does to the state and to the publication log what
    [round_outcome] says. *)
Lemma lookupNetwork_continue_outcome (round : nat) (r : Reply string)
  (c : Controller) :
  state (fst (lookupNetwork_continue round r c)) =
  fst (round_outcome r (state c)) /\
  published (fst (lookupNetwork_continue round r c)) =
  published c ++ snd (round_outcome r (state c)).
Proof.
  unfold lookupNetwork_continue, lookupNetwork_try, lookupNetwork_finally,
    releaseLock, round_outcome.
  destruct r as [e|n]; [|destruct (String.eqb _ n)]; simpl;
    destruct (waiting c); simpl; rewrite <- ?app_assoc, ?app_nil_r;
    split; reflexivity.
Qed.

(** A granted round finds a callable [sendAsync], so its resumption
    only sends the request. *)
Lemma resume_sends_rev (c : Controller) (round : nat) (rest : list nat) :
  serial c -> resuming c = round :: rest ->
  exists q,
    fst (lookupNetwork_resume round
           (set_mutex (locked c) (waiting c) rest c)) =
    send net_version q (getNetworkId_cb round)
      (set_mutex (locked c) (waiting c) rest c).
Proof.
  intros [_ _ H3 _ H5] Hr.
  assert (locked c = true) as Hl.
  { destruct (locked c); [reflexivity|].
    destruct (H3 eq_refl) as [Hs _]. unfold serving in Hs.
    rewrite Hr in Hs. discriminate. }
  specialize (H5 Hl). unfold lookupNetwork_resume.
  replace (sender (set_mutex (locked c) (waiting c) rest c))
    with (sender c) by reflexivity.
  destruct (sender c) as [q|]; [|congruence].
  exists q. reflexivity.
Qed.

(** Along a schedule of detection only, the state and the publication
    log depend on the replies alone, taken in order of completion. *)
Lemma detection_log_rev (acts : list Action) :
  forall c c',
    serial c ->
    forallb detection_only acts = true ->
    run acts c = Some c' ->
    state c' = fst (rounds_outcome (replies_of acts) (state c)) /\
    published c' =
    published c ++ snd (rounds_outcome (replies_of acts) (state c)).
Proof.
  induction acts as [|a acts IH]; simpl; intros c c' Hser Hd Hrun.
  - injection Hrun as <-. rewrite app_nil_r. split; reflexivity.
  - apply andb_prop in Hd as [Ha Hd].
    destruct (step a c) as [c1|] eqn:Hstep; [|discriminate].
    pose proof (step_serial_rev a c c1 Hstep Hser) as Hser1.
    destruct (IH _ _ Hser1 Hd Hrun) as [Hs Hp]. clear IH Hrun.
    destruct a; try discriminate; simpl in Hstep.
    + injection Hstep as <-.
      destruct (lookupNetwork_frame_rev c) as (Es & _ & _ & Ep & _).
      rewrite Es in Hs, Hp. rewrite Ep in Hp. split; assumption.
    + destruct (resuming c) as [|round rest] eqn:Hr; [discriminate|].
      injection Hstep as <-.
      destruct (resume_sends_rev c round rest Hser Hr) as [q Eq].
      rewrite Eq in Hs, Hp. split; assumption.
    + destruct (nth_error (requests c) i) as [[[|] e [round|k]]|];
        try discriminate.
      injection Hstep as <-.
      destruct (lookupNetwork_continue_outcome round r
                  (set_requests (remove_nth i (requests c)) c))
        as [Es Ep].
      rewrite Es in Hs, Hp. rewrite Ep in Hp. clear Es Ep.
      simpl in Hs, Hp. simpl.
      destruct (round_outcome r (state c)) as [s1 l1]. simpl in *.
      destruct (rounds_outcome (replies_of acts) s1) as [s2 l2].
      simpl in *. rewrite <- app_assoc in Hp. split; assumption.
Qed.

Lemma detection_counts_rev (acts : list Action) :
  forall c c',
    serial c ->
    forallb detection_only acts = true ->
    run acts c = Some c' ->
    rounds c' <= rounds c + calls_of acts /\
    List.length (settled c') =
    List.length (settled c) + List.length (replies_of acts).
Proof.
  induction acts as [|a acts IH]; simpl; intros c c' Hser Hd Hrun.
  - injection Hrun as <-. lia.
  - apply andb_prop in Hd as [Ha Hd].
    destruct (step a c) as [c1|] eqn:Hstep; [|discriminate].
    pose proof (step_serial_rev a c c1 Hstep Hser) as Hser1.
    destruct (IH _ _ Hser1 Hd Hrun) as [Hk Hs]. clear IH Hrun.
    destruct a; try discriminate; simpl in Hstep.
    + injection Hstep as <-.
      assert (rounds (lookupNetwork c) <= S (rounds c) /\
              settled (lookupNetwork c) = settled c) as [Ek Es].
      { unfold lookupNetwork, acquire. destruct (sender c); simpl;
          [destruct (locked c)|]; simpl; split; auto. }
      rewrite Es in Hs. simpl. lia.
    + destruct (resuming c) as [|round rest] eqn:Hr; [discriminate|].
      injection Hstep as <-.
      destruct (resume_sends_rev c round rest Hser Hr) as [q Eq].
      rewrite Eq in Hk, Hs. simpl in Hk, Hs |- *. lia.
    + destruct (nth_error (requests c) i) as [[[|] e [round|k]]|];
        try discriminate.
      injection Hstep as <-.
      destruct (lookupNetwork_continue_mutex round r
                  (set_requests (remove_nth i (requests c)) c))
        as (_ & _ & _ & Ek & Es & _).
      rewrite Ek in Hk. rewrite Es in Hs.
      unfold lookupNetwork_finally, releaseLock in Hk, Hs.
      simpl in Hk, Hs.
      destruct (waiting c); simpl in Hk, Hs |- *;
        rewrite length_app in Hs; simpl in Hs; lia.
Qed.

Lemma idle_serving_rev (c : Controller) : idle c -> serving c = [].
Proof.
  intros (_ & _ & Hr & Hf). unfold serving, in_flight in *.
  rewrite Hr. apply length_zero_iff_nil in Hf. rewrite Hf. reflexivity.
Qed.

Lemma serving_nil_idle_rev (c : Controller) :
  serial c -> serving c = [] -> waiting c = [] -> idle c.
Proof.
  intros [_ _ _ H4 _] Hs Hw. unfold idle, in_flight.
  unfold serving in *. apply app_eq_nil in Hs as [Hr Hm].
  apply map_eq_nil in Hm. rewrite Hm. repeat split; auto.
  destruct (locked c); [|reflexivity].
  exfalso. apply (H4 eq_refl). rewrite Hr, Hm. reflexivity.
Qed.

(** Three rounds answered "1", "2", "3", in the revision. *)
Lemma three_rounds_rev (c0 : Controller) (acts : list Action)
  (c' : Controller) :
  reachable c0 -> idle c0 -> network (state c0) <> "1" ->
  forallb detection_only acts = true ->
  calls_of acts = 3 ->
  replies_of acts = [Success "1"; Success "2"; Success "3"] ->
  run acts c0 = Some c' ->
  networks_observed (published c') =
  networks_observed (published c0) ++ ["1"; "2"; "3"] /\
  network (state c') = "3" /\
  settled c' =
  settled c0 ++ [rounds c0; S (rounds c0); S (S (rounds c0))] /\
  idle c' /\
  (forall pre post c1,
      acts = pre ++ post -> run pre c0 = Some c1 -> in_flight c1 <= 1).
Proof.
  intros Hreach Hidle Hn Hd Hcalls Hreplies Hrun.
  pose proof (reachable_serial_rev _ Hreach) as S0.
  pose proof (reachable_serial_rev _ (reachable_run_rev _ _ _ Hreach Hrun))
    as S1.
  destruct (detection_log_rev acts c0 c' S0 Hd Hrun) as [Hs Hp].
  destruct (detection_counts_rev acts c0 c' S0 Hd Hrun) as [Hk Hl].
  rewrite Hreplies in Hs, Hp, Hl. rewrite Hcalls in Hk.
  apply String.eqb_neq in Hn. simpl in Hs, Hp, Hl.
  rewrite Hn in Hs, Hp. simpl in Hs, Hp.
  split; [rewrite Hp, networks_observed_app_rev; reflexivity|].
  split; [rewrite Hs; reflexivity|].
  pose proof (serial_order _ S0) as O0.
  rewrite (idle_serving_rev _ Hidle) in O0.
  destruct Hidle as (_ & Hw0 & _). rewrite Hw0 in O0.
  simpl in O0. rewrite app_nil_r in O0.
  pose proof (serial_order _ S1) as O1.
  assert (List.length (settled c0) = rounds c0) as L0.
  { rewrite O0. apply length_seq. }
  pose proof (f_equal (@List.length nat) O1) as L1.
  rewrite !length_app, length_seq in L1.
  assert (serving c' = [] /\ waiting c' = [] /\
          rounds c' = rounds c0 + 3) as (E1 & E2 & E3).
  { repeat split; try apply length_zero_iff_nil; lia. }
  rewrite E1, E2, E3 in O1. simpl in O1. rewrite app_nil_r in O1.
  split.
  { rewrite O1, seq_app, <- O0. reflexivity. }
  split; [apply serving_nil_idle_rev; assumption|].
  intros pre post c1 _ Hpre.
  apply serial_in_flight_rev, reachable_serial_rev.
  exact (reachable_run_rev _ _ _ Hreach Hpre).
Qed.

(** What a round announces, in the revision. *)
Lemma round_announcement_rev (round : nat) (r : Reply string)
  (c : Controller) :
  announcements (published (fst (lookupNetwork_continue round r c))) =
  announcements (published c) ++
  (if same_identity r (state c) then []
   else [providerConfig (state c)]).
Proof.
  destruct (lookupNetwork_continue_outcome round r c) as [_ ->].
  rewrite announcements_app_rev. f_equal.
  unfold round_outcome, same_identity.
  destruct r as [e|n]; [reflexivity|].
  destruct (String.eqb _ n); reflexivity.
Qed.

(** A round that ends with an error, in the revision: the promise of
    [lookupNetwork] is fulfilled, not rejected. *)
Lemma round_failure_rev (round : nat) (e : string) (c : Controller) :
  snd (lookupNetwork_continue round (Failure e) c) = Fulfilled tt /\
  network (state (fst (lookupNetwork_continue round (Failure e) c))) =
  loading /\
  settled (fst (lookupNetwork_continue round (Failure e) c)) =
  settled c ++ [round].
Proof.
  unfold lookupNetwork_continue, lookupNetwork_try, lookupNetwork_finally,
    releaseLock.
  simpl. destruct (waiting c); repeat split; reflexivity.
Qed.

End NC2_detection.

(** * Detection rounds in both versions *)

Section Detection_rounds.
Import ControllerUtils.

(** In [NetworkController.ts] the promise of [lookupNetwork] settles when
    the request has been sent; on a controller the program can hold, a
    granted round always finds a callable [sendAsync]. *)
Lemma resume_fulfilled (c : NC.Controller) (round : nat)
  (rest : list nat) :
  NC.reachable c -> NC.resuming c = round :: rest ->
  snd (NC.lookupNetwork_resume round
         (NC.set_mutex (NC.locked c) (NC.waiting c) rest c)) =
  Fulfilled tt.
Proof.
  intros Hr Hres. destruct (reachable_serial c Hr) as [_ _ H3 _ H5].
  assert (NC.locked c = true) as Hl.
  { destruct (NC.locked c); [reflexivity|].
    destruct (H3 eq_refl) as [Hs _]. unfold NC.serving in Hs.
    rewrite Hres in Hs. discriminate. }
  specialize (H5 Hl). unfold NC.lookupNetwork_resume.
  replace (NC.sender (NC.set_mutex (NC.locked c) (NC.waiting c) rest c))
    with (NC.sender c) by reflexivity.
  destruct (NC.sender c); [reflexivity|congruence].
Qed.

(** C2 (amended). In both versions: on a controller the program can hold
    and on which no round is under way, whose stored identity is not "1",
    any schedule of detection only with three calls of [lookupNetwork]
    whose requests are answered "1", "2", "3" in that order of completion
    produces exactly three state updates, observing "1", "2", "3" in that
    order; the three rounds settle in the order of their calls, no round
    is left under way, and at no point of the schedule is more than one
    identity request in flight. *)
Theorem three_concurrent_lookups :
  (forall (c0 : NC.Controller) (acts : list NC.Action)
          (c' : NC.Controller),
      NC.reachable c0 -> NC.idle c0 ->
      NC.network (NC.state c0) <> "1" ->
      forallb NC.detection_only acts = true ->
      NC.calls_of acts = 3 ->
      NC.replies_of acts = [Success "1"; Success "2"; Success "3"] ->
      NC.run acts c0 = Some c' ->
      NC.networks_observed (NC.published c') =
      NC.networks_observed (NC.published c0) ++ ["1"; "2"; "3"] /\
      NC.network (NC.state c') = "3" /\
      NC.settled c' =
      NC.settled c0 ++
      [NC.rounds c0; S (NC.rounds c0); S (S (NC.rounds c0))] /\
      NC.idle c' /\
      (forall pre post c1,
          acts = pre ++ post -> NC.run pre c0 = Some c1 ->
          NC.in_flight c1 <= 1)) /\
  (forall (c0 : NC2.Controller) (acts : list NC2.Action)
          (c' : NC2.Controller),
      NC2.reachable c0 -> NC2.idle c0 ->
      NC2.network (NC2.state c0) <> "1" ->
      forallb NC2.detection_only acts = true ->
      NC2.calls_of acts = 3 ->
      NC2.replies_of acts = [Success "1"; Success "2"; Success "3"] ->
      NC2.run acts c0 = Some c' ->
      NC2.networks_observed (NC2.published c') =
      NC2.networks_observed (NC2.published c0) ++ ["1"; "2"; "3"] /\
      NC2.network (NC2.state c') = "3" /\
      NC2.settled c' =
      NC2.settled c0 ++
      [NC2.rounds c0; S (NC2.rounds c0); S (S (NC2.rounds c0))] /\
      NC2.idle c' /\
      (forall pre post c1,
          acts = pre ++ post -> NC2.run pre c0 = Some c1 ->
          NC2.in_flight c1 <= 1)).
Proof.
  split; [exact three_rounds|exact three_rounds_rev].
Qed.

Lemma three_concurrent_lookups_witness :
  (NC.networks_observed (NC.published NC.three_lookups_from_5) =
   NC.networks_observed (NC.published NC.connected_to_5) ++
   ["1"; "2"; "3"] /\
   NC.settled NC.three_lookups_from_5 = [0; 1; 2; 3]) /\
  (NC2.networks_observed (NC2.published NC2.three_lookups_from_5) =
   NC2.networks_observed (NC2.published NC2.connected_to_5) ++
   ["1"; "2"; "3"] /\
   NC2.settled NC2.three_lookups_from_5 = [0; 1; 2; 3]).
Proof.
  destruct three_concurrent_lookups as [H1 H2].
  split.
  - assert (NC.reachable NC.connected_to_5) as Hr.
    { exists NC.defaultState, (Some "project"),
        [NC.Call_setProviderType "mainnet"; NC.Resume;
         NC.Reply_net_version 1 (Success "5")].
      vm_compute. reflexivity. }
    destruct (H1 NC.connected_to_5 (NC.three_lookups 1)
                NC.three_lookups_from_5 Hr)
      as (Ha & _ & Hb & _).
    + vm_compute. repeat split; reflexivity.
    + vm_compute. discriminate.
    + reflexivity.
    + reflexivity.
    + reflexivity.
    + vm_compute. reflexivity.
    + split; [exact Ha|exact Hb].
  - assert (NC2.reachable NC2.connected_to_5) as Hr.
    { exists NC2.defaultState, (Some "project"),
        [NC2.Call_setProviderType "mainnet"; NC2.Resume;
         NC2.Reply_net_version 1 (Success "5")].
      vm_compute. reflexivity. }
    destruct (H2 NC2.connected_to_5 (NC2.three_lookups 1)
                NC2.three_lookups_from_5 Hr)
      as (Ha & _ & Hb & _).
    + vm_compute. repeat split; reflexivity.
    + vm_compute. discriminate.
    + reflexivity.
    + reflexivity.
    + reflexivity.
    + vm_compute. reflexivity.
    + split; [exact Ha|exact Hb].
Defined.

(** C2, as stated, fails when the stored identity is already "1": the
    first of the three rounds then writes nothing, and only two state
    updates occur, observing "2" then "3". *)
Lemma three_lookups_two_updates :
  NC.idle NC.connected_to_1 /\
  NC.calls_of (NC.three_lookups 1) = 3 /\
  NC.replies_of (NC.three_lookups 1) =
  [Success "1"; Success "2"; Success "3"] /\
  NC.run (NC.three_lookups 1) NC.connected_to_1 =
  Some NC.three_lookups_from_1 /\
  NC.networks_observed (NC.published NC.three_lookups_from_1) =
  NC.networks_observed (NC.published NC.connected_to_1) ++ ["2"; "3"].
Proof.
  vm_compute. repeat split; reflexivity.
Qed.

(** C3 (amended). When a detection round completes with a failure or
    with an id different from the stored one, the configuration
    announcement is published exactly once, carrying the stored provider
    configuration, which the round does not change; when the id detected
    equals the stored one, nothing is announced. This holds in both
    versions. *)
Theorem round_announces_unless_same_identity :
  (forall round r c,
      NC.announcements
        (NC.published (NC.lookupNetwork_callback round r c)) =
      NC.announcements (NC.published c) ++
      (if NC.same_identity r (NC.state c) then []
       else [NC.providerConfig (NC.state c)]) /\
      NC.providerConfig (NC.state (NC.lookupNetwork_callback round r c)) =
      NC.providerConfig (NC.state c)) /\
  (forall round r c,
      NC2.announcements
        (NC2.published (fst (NC2.lookupNetwork_continue round r c))) =
      NC2.announcements (NC2.published c) ++
      (if NC2.same_identity r (NC2.state c) then []
       else [NC2.providerConfig (NC2.state c)]) /\
      NC2.providerConfig
        (NC2.state (fst (NC2.lookupNetwork_continue round r c))) =
      NC2.providerConfig (NC2.state c)).
Proof.
  split; intros round r c; split.
  - apply round_announcement.
  - destruct (lookupNetwork_callback_outcome round r c) as [-> _].
    unfold NC.round_outcome.
    destruct r as [e|n]; [|destruct (String.eqb _ n)]; reflexivity.
  - apply round_announcement_rev.
  - destruct (lookupNetwork_continue_outcome round r c) as [-> _].
    unfold NC2.round_outcome.
    destruct r as [e|n]; [|destruct (String.eqb _ n)]; reflexivity.
Qed.

(** C3, as stated, fails for a round whose id equals the stored one: a
    full round on a controller that stores "1", answered "1", settles and
    publishes no announcement. *)
Lemma same_identity_round_not_announced :
  NC.run [NC.Call_lookupNetwork; NC.Resume;
          NC.Reply_net_version 1 (Success "1")] NC.connected_to_1 =
  Some NC.same_answer /\
  NC.settled NC.same_answer = NC.settled NC.connected_to_1 ++ [1] /\
  NC.announcements (NC.published NC.same_answer) =
  NC.announcements (NC.published NC.connected_to_1).
Proof.
  vm_compute. repeat split; reflexivity.
Qed.

(** C8. In both versions an error reply to the identity request sets the
    stored identity to ['loading'], whatever it was, and the round
    releases the lock. Nothing is thrown to the caller: in
    [NetworkController.ts] the promise of [lookupNetwork] is fulfilled as
    soon as the request is sent, and in the revision, where the promise
    waits for the reply, the rejection is caught and the promise is
    fulfilled. *)
Theorem failure_forces_loading :
  (forall round e c,
      NC.network
        (NC.state (NC.lookupNetwork_callback round (Failure e) c)) =
      loading /\
      NC.settled (NC.lookupNetwork_callback round (Failure e) c) =
      NC.settled c ++ [round]) /\
  (forall c round rest,
      NC.reachable c -> NC.resuming c = round :: rest ->
      snd (NC.lookupNetwork_resume round
             (NC.set_mutex (NC.locked c) (NC.waiting c) rest c)) =
      Fulfilled tt) /\
  (forall round e c,
      snd (NC2.lookupNetwork_continue round (Failure e) c) =
      Fulfilled tt /\
      NC2.network
        (NC2.state (fst (NC2.lookupNetwork_continue round (Failure e) c))) =
      loading /\
      NC2.settled (fst (NC2.lookupNetwork_continue round (Failure e) c)) =
      NC2.settled c ++ [round]).
Proof.
  split; [|split].
  - intros. apply round_failure.
  - intros c round rest. apply resume_fulfilled.
  - intros. apply round_failure_rev.
Qed.

Lemma failure_forces_loading_witness :
  NC.network (NC.state NC.connected_to_1) = "1" /\
  NC.network
    (NC.state (NC.lookupNetwork_callback 1 (Failure "some error")
                 NC.connected_to_1)) = loading /\
  snd (NC.lookupNetwork_resume 0
         (NC.set_mutex (NC.locked NC.on_mainnet)
            (NC.waiting NC.on_mainnet) [] NC.on_mainnet)) =
  Fulfilled tt /\
  NC2.network
    (NC2.state (fst (NC2.lookupNetwork_continue 1 (Failure "some error")
                       NC2.connected_to_1))) = loading.
Proof.
  destruct failure_forces_loading as (H1 & H2 & H3).
  split; [reflexivity|]. split; [apply H1|]. split.
  - apply (H2 NC.on_mainnet 0 []); [|reflexivity].
    exists NC.defaultState, (Some "project"),
      [NC.Call_setProviderType "mainnet"].
    vm_compute. reflexivity.
  - apply H3.
Defined.

End Detection_rounds.

(** * Where the revision departs from [NetworkController.ts] *)

Section Revision_remarks.

(** The setter of the revision calls [registerProvider] once more after
    [initializeProvider] has done so, which leaves two ['error'] listeners
    on the provider: an ['error'] event then starts two rounds. *)
Remark setter_listens_twice_rev :
  option_map NC2.errorListeners (NC2.provider NC2.assigned) = Some 2 /\
  NC2.rounds (NC2.emit_error NC2.assigned) =
  2 + NC2.rounds NC2.assigned.
Proof. vm_compute. split; reflexivity. Qed.

(** The setter of the revision keeps the value assigned and spreads it
    into the configuration of the provider it builds. *)
Remark setter_reads_argument_rev :
  NC2.provider
    (after (NC2.set_providerConfig
              (NC2.providerConfig NC2.defaultState) NC2.fresh)) <>
  NC2.provider
    (after (NC2.set_providerConfig
              (NC2.mkProviderConfig None "goerli" (Some "5") None None)
              NC2.fresh)).
Proof. vm_compute. discriminate. Qed.

End Revision_remarks.

(** * Further properties of [NetworkController.ts] *)

Section NC_selection.
Import ControllerUtils NC.

Lemma provider_changes_app (l1 l2 : list Event) :
  provider_changes (l1 ++ l2) = provider_changes l1 ++ provider_changes l2.
Proof.
  induction l1 as [|[s|cfg|p] l1 IH]; simpl; rewrite ?IH; reflexivity.
Qed.

Lemma initializeProvider_flag (t : string) (r i : option string)
  (c : Controller) :
  isCustomNetwork (state (after (initializeProvider t r i c))) =
  getIsCustomNetwork i.
Proof.
  unfold initializeProvider, setupInfuraProvider, setupStandardProvider,
    updateProvider, registerProvider, getEIP1559Compatibility.
  destruct (isInfuraType t);
    [|destruct (String.eqb t "localhost");
      [|destruct (String.eqb t RPC);
        [destruct r as [url|]; [destruct (truthy (Some url))|]|]]];
    simpl;
    destruct (negb (is_true (isEIP1559Compatible (properties (state c)))));
    simpl;
    try (unfold sender; simpl; destruct (ethQuery c) as [[cp [|]]|]; simpl);
    reflexivity.
Qed.

Lemma installs_initializeProvider (t : string) (r i : option string)
  (c : Controller) :
  installs (connection_for t r i (infuraProjectId c)) c
    (after (initializeProvider t r i c)).
Proof.
  unfold initializeProvider, connection_for, setupInfuraProvider,
    setupStandardProvider, updateProvider, registerProvider,
    getEIP1559Compatibility, installs.
  destruct (isInfuraType t);
    [|destruct (String.eqb t "localhost");
      [|destruct (String.eqb t RPC);
        [destruct r as [url|]; [destruct (truthy (Some url))|]|]]];
    simpl;
    destruct (negb (is_true (isEIP1559Compatible (properties (state c)))));
    simpl;
    try (unfold sender; simpl;
         destruct (ethQuery c) as [[cp [|]]|] eqn:Hq; simpl);
    rewrite ?provider_changes_app; simpl; rewrite ?app_nil_r;
    repeat split; congruence.
Qed.

(** What a selection change leaves of the state it starts from, and how it
    sets the flag. *)
Lemma selection_state (t : string) (r i : option string) (c : Controller) :
  let c' :=
    after (andThen (initializeProvider t r i c)
             (fun c' => Returns (lookupNetwork c'))) in
  isCustomNetwork (state c') = getIsCustomNetwork i /\
  providerConfig (state c') = providerConfig (state c) /\
  network (state c') = network (state c) /\
  properties (state c') = properties (state c).
Proof.
  intros c'. subst c'. rewrite after_andThen.
  pose proof (initializeProvider_flag t r i c) as Hf.
  destruct (initializeProvider_frame t r i c) as ((Hn & Hc & Hp) & _).
  destruct (throws (initializeProvider t r i c)).
  - repeat split; assumption.
  - destruct (lookupNetwork_frame (after (initializeProvider t r i c)))
      as (-> & _).
    repeat split; assumption.
Qed.

Lemma installs_selection (t : string) (r i : option string)
  (c : Controller) :
  installs (connection_for t r i (infuraProjectId c)) c
    (after (andThen (initializeProvider t r i c)
              (fun c' => Returns (lookupNetwork c')))).
Proof.
  rewrite after_andThen.
  pose proof (installs_initializeProvider t r i c) as H.
  destruct (throws (initializeProvider t r i c)); [exact H|].
  assert (forall c0,
             provider (lookupNetwork c0) = provider c0 /\
             blockTracker (lookupNetwork c0) = blockTracker c0 /\
             ethQuery (lookupNetwork c0) = ethQuery c0 /\
             stopTimers (lookupNetwork c0) = stopTimers c0 /\
             published (lookupNetwork c0) = published c0) as E.
  { intros c0. unfold lookupNetwork, acquire.
    destruct (sender c0); simpl; [destruct (locked c0)|]; simpl;
      repeat split; reflexivity. }
  destruct (E (after (initializeProvider t r i c)))
    as (Ep & Eb & Eq & Et & El).
  unfold installs in *. rewrite Ep, Eb, Eq, Et, El. exact H.
Qed.

(** X1. After [setProviderType], [setRpcTarget] and an assignment to
    [providerConfig], whether they return or throw, [isCustomNetwork] is
    the value [getIsCustomNetwork] gives for the stored chain id; and no
    later call, reply or error event breaks that agreement. *)
Theorem custom_flag_is_derived (c : Controller) :
  (forall t, derived_flag (after (setProviderType t c))) /\
  (forall u i tk n, derived_flag (after (setRpcTarget u i tk n c))) /\
  (forall cfg, derived_flag (after (set_providerConfig cfg c))) /\
  (forall a c', step a c = Some c' -> derived_flag c -> derived_flag c').
Proof.
  assert (forall t c0, derived_flag (after (setProviderType t c0))) as H1.
  { intros t c0. unfold derived_flag, setProviderType, refreshNetwork.
    match goal with
    | |- context [initializeProvider ?t ?r ?i ?c1] =>
        destruct (selection_state t r i c1) as (-> & -> & _)
    end.
    reflexivity. }
  assert (forall u i tk n c0,
             derived_flag (after (setRpcTarget u i tk n c0))) as H2.
  { intros u i tk n c0. unfold derived_flag, setRpcTarget, refreshNetwork.
    match goal with
    | |- context [initializeProvider ?t ?r ?i ?c1] =>
        destruct (selection_state t r i c1) as (-> & -> & _)
    end.
    reflexivity. }
  assert (forall cfg c0,
             derived_flag (after (set_providerConfig cfg c0))) as H3.
  { intros cfg c0. unfold derived_flag, set_providerConfig.
    match goal with
    | |- context [initializeProvider ?t ?r ?i ?c1] =>
        destruct (selection_state t r i c1) as (-> & -> & _)
    end.
    reflexivity. }
  split; [intros; apply H1|]. split; [intros; apply H2|].
  split; [intros; apply H3|].
  intros a c' Hstep Hc. destruct a; simpl in Hstep.
  - injection Hstep as <-. apply H1.
  - injection Hstep as <-. apply H2.
  - injection Hstep as <-. apply H3.
  - injection Hstep as <-. unfold derived_flag in *.
    destruct (lookupNetwork_frame c) as (-> & _). exact Hc.
  - injection Hstep as <-. unfold derived_flag in *.
    destruct (getEIP1559Compatibility_frame c) as (-> & _). exact Hc.
  - destruct (resuming c) as [|round rest]; [discriminate|].
    injection Hstep as <-. unfold derived_flag, lookupNetwork_resume in *.
    destruct (sender _); exact Hc.
  - destruct (nth_error (requests c) i) as [[[|] e [round|k]]|];
      try discriminate.
    injection Hstep as <-. unfold derived_flag in *.
    destruct (lookupNetwork_callback_outcome round r
                (set_requests (remove_nth i (requests c)) c)) as [-> _].
    simpl. unfold round_outcome.
    destruct r as [e0|n]; [|destruct (String.eqb _ n)]; exact Hc.
  - destruct (nth_error (requests c) i) as [[[|] e [round|k]]|];
      try discriminate.
    injection Hstep as <-. unfold derived_flag in *.
    unfold getEIP1559Compatibility_callback.
    destruct r as [err|block]; [exact Hc|].
    destruct (differs _ _); exact Hc.
  - injection Hstep as <-. unfold emit_error.
    destruct (provider c) as [p|]; [|exact Hc].
    induction (errorListeners p) as [|k IH]; simpl; [exact Hc|].
    unfold verifyNetwork at 1. destruct (String.eqb _ _); [|exact IH].
    unfold derived_flag in *.
    destruct (lookupNetwork_frame (Nat.iter k verifyNetwork c))
      as (-> & _).
    exact IH.
Qed.

Lemma custom_flag_is_derived_witness :
  derived_flag thrice_selected /\
  isCustomNetwork (state thrice_selected) = true /\
  derived_flag (lookupNetwork thrice_selected).
Proof.
  assert (derived_flag thrice_selected) as H0.
  { destruct (custom_flag_is_derived
                (after (setProviderType "junk"
                          (after (setProviderType "goerli" fresh)))))
      as (_ & H & _).
    exact (H "http://foo" "10" None None). }
  split; [exact H0|]. split; [reflexivity|].
  destruct (custom_flag_is_derived thrice_selected) as (_ & _ & _ & H).
  exact (H Call_lookupNetwork (lookupNetwork thrice_selected) eq_refl H0).
Defined.


(** X3. A selection of a kind that is not recognized throws after the
    state has been rewritten: the stored kind is the rejected one, the
    identity is ['loading'], three state changes have been published; but
    the provider, [ethQuery], the requests in flight and the rounds are
    those of before, so the old connection stays active under the new
    stored selection. *)
Theorem rejected_selection (t : string) (c : Controller) :
  recognized t = false ->
  exists c',
    setProviderType t c =
    Throws ("Unrecognized network type: '" ++ t ++ "'") c' /\
    type (providerConfig (state c')) = t /\
    network (state c') = loading /\
    List.length (published c') = 3 + List.length (published c) /\
    provider c' = provider c /\ ethQuery c' = ethQuery c /\
    requests c' = requests c /\ rounds c' = rounds c /\
    resuming c' = resuming c /\ waiting c' = waiting c /\
    stopTimers c' = stopTimers c.
Proof.
  unfold recognized. intros H.
  apply orb_false_iff in H as [H H3]. apply orb_false_iff in H as [H1 H2].
  unfold setProviderType, refreshNetwork, initializeProvider. simpl.
  rewrite H1, H2, H3. simpl. eexists. split; [reflexivity|]. simpl.
  rewrite !length_app. simpl. repeat split; lia.
Qed.

Lemma rejected_selection_witness :
  exists c',
    setProviderType "junk" on_mainnet =
    Throws "Unrecognized network type: 'junk'" c' /\
    provider c' = provider on_mainnet /\
    type (providerConfig (state c')) = "junk".
Proof.
  destruct (rejected_selection "junk" on_mainnet eq_refl)
    as (c' & H & Ht & _ & _ & Hp & _).
  exists c'. repeat split; assumption.
Defined.

Lemma installs_after_update (f : NetworkState -> NetworkState)
  (conn : option Endpoint) (c c1 : Controller) :
  installs conn (update f c) c1 -> installs conn c c1.
Proof.
  unfold installs. simpl.
  rewrite provider_changes_app. simpl. rewrite app_nil_r. auto.
Qed.

Lemma installs_setProviderType (t : string) (c : Controller) :
  installs (connection_for t None (NetworksChainId t) (infuraProjectId c))
    c (after (setProviderType t c)).
Proof.
  unfold setProviderType, refreshNetwork.
  match goal with
  | |- context [initializeProvider ?t ?r ?i ?c1] =>
      pose proof (installs_selection t r i c1) as H
  end.
  apply installs_after_update, installs_after_update in H. exact H.
Qed.

Lemma installs_setRpcTarget (u i : string) (tk n : option string)
  (c : Controller) :
  installs (connection_for RPC (Some u) (Some i) (infuraProjectId c))
    c (after (setRpcTarget u i tk n c)).
Proof.
  unfold setRpcTarget, refreshNetwork.
  match goal with
  | |- context [initializeProvider ?t ?r ?i ?c1] =>
      pose proof (installs_selection t r i c1) as H
  end.
  apply installs_after_update, installs_after_update in H. exact H.
Qed.

Lemma installs_setter (cfg : ProviderConfig) (c : Controller) :
  installs (connection_for (type (providerConfig (state c)))
              (rpcTarget (providerConfig (state c)))
              (chainId (providerConfig (state c)))
              (infuraProjectId c))
    c (after (set_providerConfig cfg c)).
Proof. unfold set_providerConfig. apply installs_selection. Qed.

(** X4. A selection change builds the connection of the stored selection:
    an Infura connection for the Infura kinds, the fixed local endpoint
    without a chain id for ['localhost'], the given endpoint with the
    chain id for ['rpc'] with a non-empty target. When it builds one, the
    new provider has exactly one error listener, [ethQuery] and the block
    tracker are rebuilt on it, the previous provider is scheduled for its
    stop exactly once and exactly one provider-change message is
    published; when it builds none, none of these moves. *)
Theorem selection_installs (c : Controller) :
  (forall t,
      installs (connection_for t None (NetworksChainId t)
                  (infuraProjectId c))
        c (after (setProviderType t c))) /\
  (forall u i tk n,
      installs (connection_for RPC (Some u) (Some i) (infuraProjectId c))
        c (after (setRpcTarget u i tk n c))) /\
  (forall cfg,
      installs (connection_for (type (providerConfig (state c)))
                  (rpcTarget (providerConfig (state c)))
                  (chainId (providerConfig (state c)))
                  (infuraProjectId c))
        c (after (set_providerConfig cfg c))).
Proof.
  split; [|split]; intros.
  - apply installs_setProviderType.
  - apply installs_setRpcTarget.
  - apply installs_setter.
Qed.

End NC_selection.

Section NC_connection_kept.
Import ControllerUtils NC.

Lemma installs_paired (conn : option Endpoint) (c c' : Controller) :
  installs conn c c' -> paired c -> paired c'.
Proof.
  unfold installs, paired. destruct conn as [e|].
  - intros (-> & _ & -> & _) _. split; reflexivity.
  - intros (-> & _ & -> & _). auto.
Qed.

Lemma installs_keeps_provider (conn : option Endpoint) (c c' : Controller) :
  installs conn c c' -> provider c <> None -> provider c' <> None.
Proof.
  unfold installs. destruct conn as [e|].
  - intros (-> & _) _. discriminate.
  - intros (-> & _). auto.
Qed.

(** Every step either leaves the provider and [ethQuery] alone or is a
    selection change. *)
Lemma step_connection (a : Action) (c c' : Controller) :
  step a c = Some c' ->
  (provider c' = provider c /\ ethQuery c' = ethQuery c) \/
  (exists conn, installs conn c c').
Proof.
  destruct a; simpl; intros Hstep.
  - injection Hstep as <-. right. eexists.
    apply installs_setProviderType.
  - injection Hstep as <-. right. eexists.
    apply installs_setRpcTarget.
  - injection Hstep as <-. right. eexists.
    apply installs_setter.
  - injection Hstep as <-. left.
    destruct (lookupNetwork_frame c) as (_ & -> & -> & _).
    split; reflexivity.
  - injection Hstep as <-. left.
    destruct (getEIP1559Compatibility_frame c) as (_ & -> & -> & _).
    split; reflexivity.
  - destruct (resuming c) as [|round rest]; [discriminate|].
    injection Hstep as <-. left. unfold lookupNetwork_resume.
    destruct (sender _); split; reflexivity.
  - destruct (nth_error (requests c) i) as [[[|] e [round|k]]|];
      try discriminate.
    injection Hstep as <-. left.
    exact (lookupNetwork_callback_connection round r
             (set_requests (remove_nth i (requests c)) c)).
  - destruct (nth_error (requests c) i) as [[[|] e [round|k]]|];
      try discriminate.
    injection Hstep as <-. left. unfold getEIP1559Compatibility_callback.
    destruct r as [err|block]; [split; reflexivity|].
    destruct (differs _ _); split; reflexivity.
  - injection Hstep as <-. left. unfold emit_error.
    destruct (provider c) as [p|] eqn:Hp; [|rewrite Hp; split; reflexivity].
    destruct (iter_verifyNetwork_connection (errorListeners p) c)
      as [-> ->].
    rewrite Hp. split; reflexivity.
Qed.

Lemma step_paired (a : Action) (c c' : Controller) :
  step a c = Some c' -> paired c -> paired c'.
Proof.
  intros Hstep Hc.
  destruct (step_connection a c c' Hstep) as [[Hp Hq]|[conn Hi]].
  - unfold paired in *. rewrite Hp, Hq. exact Hc.
  - exact (installs_paired conn c c' Hi Hc).
Qed.

(** X5. On every controller the program can hold, the provider and
    [ethQuery] go together: either both are unset, or the provider has
    exactly one error listener and [ethQuery] is the one built on it. And
    no call, reply or error event ever unsets a provider that is set. *)
Theorem connection_kept :
  (forall c, reachable c -> paired c) /\
  (forall a c c',
      step a c = Some c' -> provider c <> None -> provider c' <> None).
Proof.
  split.
  - intros c (s0 & pid & acts & Hrun).
    apply (run_invariant paired step_paired acts _ _ Hrun). reflexivity.
  - intros a c c' Hstep Hp.
    destruct (step_connection a c c' Hstep) as [[-> _]|[conn Hi]].
    + exact Hp.
    + exact (installs_keeps_provider conn c c' Hi Hp).
Qed.

Lemma connection_kept_witness :
  paired thrice_selected /\
  provider (after (setRpcTarget "" "1" None None thrice_selected)) <> None.
Proof.
  destruct connection_kept as [H1 H2]. split.
  - apply H1.
    exists defaultState, (Some "project"),
      [Call_setProviderType "goerli"; Call_setProviderType "junk";
       Call_setRpcTarget "http://foo" "10" None None].
    vm_compute. reflexivity.
  - apply (H2 (Call_setRpcTarget "" "1" None None) thrice_selected);
      [reflexivity|].
    vm_compute. discriminate.
Defined.

(** X6. Without a provider and without a callable [sendAsync], calls of
    [lookupNetwork] and of [getEIP1559Compatibility] and error events, in
    any number and order, leave the controller exactly as it is: no state
    change, no message, no request, the mutex untouched; and the probe
    resolves to true. *)
Theorem nothing_without_connection (c : Controller) (acts : list Action) :
  provider c = None -> sender c = None ->
  forallb needs_connection acts = true ->
  run acts c = Some c /\
  snd (getEIP1559Compatibility c) = Some (Fulfilled true).
Proof.
  intros Hp Hs Hacts. split.
  - induction acts as [|a acts IH]; simpl in *; [reflexivity|].
    apply andb_prop in Hacts as [Ha Hacts].
    destruct a; try discriminate; simpl.
    + unfold lookupNetwork. rewrite Hs. auto.
    + unfold getEIP1559Compatibility. rewrite Hs.
      destruct (negb _); simpl; auto.
    + unfold emit_error. rewrite Hp. auto.
  - unfold getEIP1559Compatibility. rewrite Hs.
    destruct (negb _); reflexivity.
Qed.

Lemma nothing_without_connection_witness :
  run [Call_lookupNetwork; Emit_error; Call_getEIP1559Compatibility;
       Call_lookupNetwork] fresh = Some fresh /\
  snd (getEIP1559Compatibility fresh) = Some (Fulfilled true).
Proof.
  apply (nothing_without_connection fresh); reflexivity.
Defined.

(** X7. While the lock is held, calls of [lookupNetwork] only queue: [k]
    calls in a row append [k] new rounds to the waiting queue in the order
    of the calls, and send no request, touch no state and publish
    nothing. A request that is never answered so holds back every later
    round. *)
Theorem lookups_queue_behind_holder (k : nat) :
  forall c,
    locked c = true -> sender c <> None ->
    exists c',
      run (repeat Call_lookupNetwork k) c = Some c' /\
      waiting c' = waiting c ++ seq (rounds c) k /\
      rounds c' = k + rounds c /\
      locked c' = true /\
      resuming c' = resuming c /\ requests c' = requests c /\
      state c' = state c /\ published c' = published c /\
      settled c' = settled c.
Proof.
  induction k as [|k IH]; intros c Hl Hs; simpl.
  - exists c. rewrite app_nil_r. repeat split; auto.
  - assert (lookupNetwork c =
            set_mutex true (waiting c ++ [rounds c]) (resuming c)
              (set_rounds (S (rounds c)) c)) as E.
    { unfold lookupNetwork, acquire. destruct (sender c); [|congruence].
      simpl. rewrite Hl. reflexivity. }
    rewrite E.
    destruct (IH (set_mutex true (waiting c ++ [rounds c]) (resuming c)
                    (set_rounds (S (rounds c)) c)))
      as (c' & Hrun & Hw & Hk & Hl' & Hr & Hq & Hst & Hp & Hse);
      [reflexivity|exact Hs|].
    exists c'. simpl in *. rewrite Hw, Hk, <- app_assoc. simpl.
    repeat split; auto; lia.
Qed.

Lemma lookups_queue_behind_holder_witness :
  exists c',
    run (repeat Call_lookupNetwork 3) on_mainnet = Some c' /\
    waiting c' = [1; 2; 3] /\ requests c' = requests on_mainnet.
Proof.
  destruct (lookups_queue_behind_holder 3 on_mainnet)
    as (c' & H & Hw & _ & _ & _ & Hq & _).
  - reflexivity.
  - vm_compute. discriminate.
  - exists c'. repeat split; assumption.
Defined.

End NC_connection_kept.

(** * Further properties of the revision *)

Section NC2_selection.
Import ControllerUtils NC2.

Lemma initializeProvider_throws_rev (t : string) (r i tk n : option string)
  (c : Controller) :
  throws (initializeProvider t r i tk n c) = negb (recognized t).
Proof.
  unfold initializeProvider, recognized, setupInfuraProvider,
    setupStandardProvider, updateProvider, registerProvider.
  destruct (isInfuraType t); simpl; [reflexivity|].
  destruct (String.eqb t "localhost"); simpl; [reflexivity|].
  destruct (String.eqb t RPC); simpl; [|reflexivity].
  destruct r as [url|]; [|reflexivity].
  destruct (truthy (Some url)); reflexivity.
Qed.

(** What [initializeProvider] does to the connection in the revision. *)
Lemma initializeProvider_installs_rev (t : string)
  (r i tk n : option string) (c : Controller) :
  let c' := after (initializeProvider t r i tk n c) in
  internalProviderConfig c' = internalProviderConfig c /\
  match transport_for t r i tk n (infuraProjectId c) with
  | Some tr => installs 1 tr c c'
  | None =>
      provider c' = provider c /\ ethQuery c' = ethQuery c /\
      stopTimers c' = stopTimers c
  end.
Proof.
  unfold initializeProvider, transport_for, setupInfuraProvider,
    setupStandardProvider, updateProvider, registerProvider,
    getEIP1559Compatibility, installs.
  destruct (isInfuraType t);
    [|destruct (String.eqb t "localhost");
      [|destruct (String.eqb t RPC);
        [destruct r as [url|]; [destruct (truthy (Some url))|]|]]];
    simpl;
    destruct (negb (is_true (isEIP1559Compatible
                               (networkDetails (state c)))));
    simpl;
    try (unfold sender; simpl;
         destruct (ethQuery c) as [[cp [|]]|] eqn:Hq; simpl);
    repeat split; congruence.
Qed.

Lemma lookupNetwork_keeps_rev (c : Controller) :
  provider (lookupNetwork c) = provider c /\
  ethQuery (lookupNetwork c) = ethQuery c /\
  stopTimers (lookupNetwork c) = stopTimers c /\
  internalProviderConfig (lookupNetwork c) = internalProviderConfig c /\
  state (lookupNetwork c) = state c.
Proof.
  unfold lookupNetwork, acquire.
  destruct (sender c); simpl; [destruct (locked c)|]; simpl;
    repeat split; reflexivity.
Qed.

(** The three entry points as [refreshNetwork] and the setter run them. *)
Lemma refresh_installs_rev (t : string) (r i tk : option string)
  (c : Controller) :
  let c' :=
    after (andThen (initializeProvider t r i tk None c)
             (fun c' => Returns (lookupNetwork c'))) in
  throws (andThen (initializeProvider t r i tk None c)
            (fun c' => Returns (lookupNetwork c'))) =
  negb (recognized t) /\
  network (state c') = network (state c) /\
  providerConfig (state c') = providerConfig (state c) /\
  internalProviderConfig c' = internalProviderConfig c /\
  match transport_for t r i tk None (infuraProjectId c) with
  | Some tr => installs 1 tr c c'
  | None =>
      provider c' = provider c /\ ethQuery c' = ethQuery c /\
      stopTimers c' = stopTimers c
  end.
Proof.
  intros c'. subst c'.
  rewrite throws_andThen, after_andThen, initializeProvider_throws_rev.
  destruct (initializeProvider_frame_rev t r i tk None c)
    as ((Hn & Hc & _) & _).
  destruct (initializeProvider_installs_rev t r i tk None c) as (Hi & H).
  split; [reflexivity|].
  destruct (negb (recognized t)).
  - repeat split; assumption.
  - destruct (lookupNetwork_keeps_rev
                (after (initializeProvider t r i tk None c)))
      as (Ep & Eq & Et & Ei & Es).
    rewrite Es, Ei. repeat split; try assumption.
    unfold installs in *. rewrite Ep, Eq, Et, Ei. exact H.
Qed.

Lemma setter_unfold_rev (cfg : ProviderConfig) (c : Controller) :
  let c0 := set_internalProviderConfig (Some cfg) c in
  let m :=
    initializeProvider (type (providerConfig (state c)))
      (rpcTarget (providerConfig (state c)))
      (chainId (providerConfig (state c)))
      (ticker (providerConfig (state c)))
      (nickname (providerConfig (state c))) c0 in
  throws (set_providerConfig cfg c) = throws m /\
  after (set_providerConfig cfg c) =
  if throws m then after m
  else lookupNetwork
         (match provider (after m) with
          | Some p =>
              set_ethQuery (Some (new_EthQuery (on_error p)))
                (set_provider (Some (on_error p)) (after m))
          | None => after m
          end).
Proof.
  intros c0 m. unfold set_providerConfig. fold c0.
  change (initializeProvider _ _ _ _ _ c0) with m.
  destruct m as [c1|msg c1]; simpl; [|split; reflexivity].
  unfold registerProvider. destruct (provider c1); split; reflexivity.
Qed.

(** X8. In the revision [setProviderType] throws exactly for the kinds
    other than mainnet, goerli, sepolia, localhost and rpc (so also for
    kovan, rinkeby and ropsten, which [NetworkController.ts] accepts);
    [setRpcTarget] never throws; the setter throws exactly when the stored
    kind is not one of the five. *)
Theorem throws_iff_unrecognized_rev (c : Controller) :
  (forall t, throws (setProviderType t c) = negb (recognized t)) /\
  (forall u i tk n, throws (setRpcTarget u i tk n c) = false) /\
  (forall cfg,
      throws (set_providerConfig cfg c) =
      negb (recognized (type (providerConfig (state c))))) /\
  (forall t,
      recognized t = true <->
      In t ["mainnet"; "goerli"; "sepolia"; "localhost"; "rpc"]).
Proof.
  split; [|split; [|split]]; intros.
  - unfold setProviderType, refreshNetwork.
    rewrite throws_andThen, initializeProvider_throws_rev. reflexivity.
  - unfold setRpcTarget, refreshNetwork.
    rewrite throws_andThen, initializeProvider_throws_rev. reflexivity.
  - destruct (setter_unfold_rev cfg c) as [-> _].
    apply initializeProvider_throws_rev.
  - unfold recognized, isInfuraType, MAINNET, RPC. split.
    + intros H. repeat (apply orb_true_iff in H as [H|H]);
        apply String.eqb_eq in H; subst; simpl; auto 6.
    + intros H. simpl in H.
      repeat (destruct H as [H|H]; [subst; reflexivity|]). contradiction.
Qed.

(** X9. In the revision too, [setProviderType] and [setRpcTarget] leave
    the stored identity at ['loading'] when their synchronous part ends,
    whether they return or throw, and the setter leaves the stored
    identity and the stored selection as they were. *)
Theorem selection_identity_rev (c : Controller) :
  (forall t, network (state (after (setProviderType t c))) = loading) /\
  (forall u i tk n,
      network (state (after (setRpcTarget u i tk n c))) = loading) /\
  (forall cfg,
      network (state (after (set_providerConfig cfg c))) =
      network (state c) /\
      providerConfig (state (after (set_providerConfig cfg c))) =
      providerConfig (state c)).
Proof.
  split; [|split]; intros.
  - unfold setProviderType, refreshNetwork.
    match goal with
    | |- context [initializeProvider ?t ?r ?i ?tk None ?c1] =>
        destruct (refresh_installs_rev t r i tk c1) as (_ & -> & _)
    end.
    reflexivity.
  - unfold setRpcTarget, refreshNetwork.
    match goal with
    | |- context [initializeProvider ?t ?r ?i ?tk None ?c1] =>
        destruct (refresh_installs_rev t r i tk c1) as (_ & -> & _)
    end.
    reflexivity.
  - destruct (setter_unfold_rev cfg c) as [_ ->].
    match goal with
    | |- context [initializeProvider ?t ?r ?i ?tk ?n ?c1] =>
        destruct (initializeProvider_frame_rev t r i tk n c1)
          as ((Hn & Hc & _) & _);
        destruct (throws (initializeProvider t r i tk n c1));
        [split; assumption|];
        destruct (provider (after (initializeProvider t r i tk n c1)))
    end;
      match goal with
      | |- context [lookupNetwork ?c2] =>
          destruct (lookupNetwork_keeps_rev c2) as (_ & _ & _ & _ & ->)
      end; split; assumption.
Qed.

(** X10. In the revision a selection made through [setProviderType] or
    [setRpcTarget] that builds a connection installs a provider with
    exactly one error listener, configured with the spread of
    [internalProviderConfig] as the last assignment to the setter left it
    and with the kind's transport; the previous provider is scheduled for
    its stop once. For ['rpc'] the transport carries the target, the chain
    id and the ticker but never the nickname, which [refreshNetwork] does
    not pass on. A selection that builds no connection moves none of
    this. *)
Theorem refresh_builds_connection_rev (c : Controller) :
  (forall t,
      let c' := after (setProviderType t c) in
      internalProviderConfig c' = internalProviderConfig c /\
      match transport_for t None (NetworksChainId t) (Some (tickerFor t))
              None (infuraProjectId c) with
      | Some tr => installs 1 tr c c'
      | None =>
          provider c' = provider c /\ ethQuery c' = ethQuery c /\
          stopTimers c' = stopTimers c
      end) /\
  (forall u i tk n,
      let c' := after (setRpcTarget u i tk n c) in
      internalProviderConfig c' = internalProviderConfig c /\
      if String.eqb u ""
      then provider c' = provider c /\ ethQuery c' = ethQuery c /\
           stopTimers c' = stopTimers c
      else installs 1 (Standard u (Some i) tk None) c c').
Proof.
  split; intros.
  - subst c'. unfold setProviderType, refreshNetwork.
    match goal with
    | |- context [initializeProvider ?t ?r ?i ?tk None ?c1] =>
        destruct (refresh_installs_rev t r i tk c1)
          as (_ & _ & _ & Hi & H)
    end.
    split; [exact Hi|]. exact H.
  - subst c'. unfold setRpcTarget, refreshNetwork.
    match goal with
    | |- context [initializeProvider ?t ?r ?i ?tk None ?c1] =>
        destruct (refresh_installs_rev t r i tk c1)
          as (_ & _ & _ & Hi & H)
    end.
    split; [exact Hi|].
    unfold transport_for in H. simpl in H.
    destruct (String.eqb u ""); exact H.
Qed.

Lemma iter_verifyNetwork_rounds_rev (k : nat) (c : Controller) :
  network (state c) = loading -> sender c <> None ->
  network (state (Nat.iter k verifyNetwork c)) = loading /\
  sender (Nat.iter k verifyNetwork c) <> None /\
  rounds (Nat.iter k verifyNetwork c) = k + rounds c.
Proof.
  intros Hn Hs. induction k as [|k (IHn & IHs & IHk)]; simpl;
    [repeat split; assumption|].
  unfold verifyNetwork at 1 3 5. rewrite IHn. simpl.
  unfold lookupNetwork, acquire.
  destruct (sender (Nat.iter k verifyNetwork c)) as [q|] eqn:Hq;
    [|congruence].
  simpl.
  destruct (locked (Nat.iter k verifyNetwork c)); simpl;
    (split; [exact IHn|]); (split; [|lia]);
    unfold sender in *; simpl; rewrite Hq; discriminate.
Qed.

(** X11. The setter of the revision keeps the value assigned as
    [internalProviderConfig]. When the stored selection builds a
    connection, the provider it installs is configured with the spread of
    that value and, for ['rpc'], with target, chain id, ticker and
    nickname; [registerProvider] having run twice, it has exactly two
    error listeners, so that an error event while the stored identity is
    ['loading'] starts exactly two rounds. When the stored selection
    builds none, the provider already there gets one more listener. *)
Theorem setter_registers_twice (cfg : ProviderConfig) (c : Controller) :
  let stored := providerConfig (state c) in
  let conn :=
    transport_for (type stored) (rpcTarget stored) (chainId stored)
      (ticker stored) (nickname stored) (infuraProjectId c) in
  let c' := after (set_providerConfig cfg c) in
  internalProviderConfig c' = Some cfg /\
  match conn with
  | Some tr =>
      installs 2 tr c c' /\
      (network (state c) = loading ->
       rounds (emit_error c') = 2 + rounds c')
  | None =>
      recognized (type stored) = true ->
      provider c' = option_map on_error (provider c) /\
      stopTimers c' = stopTimers c
  end.
Proof.
  intros stored conn c'. subst c'.
  destruct (setter_unfold_rev cfg c) as [_ E]. rewrite E. clear E.
  fold stored.
  set (c0 := set_internalProviderConfig (Some cfg) c).
  destruct (initializeProvider_installs_rev (type stored)
              (rpcTarget stored) (chainId stored) (ticker stored)
              (nickname stored) c0) as (Hi & H).
  destruct (initializeProvider_frame_rev (type stored)
              (rpcTarget stored) (chainId stored) (ticker stored)
              (nickname stored) c0) as ((Hn & _) & _).
  rewrite initializeProvider_throws_rev.
  change (infuraProjectId c0) with (infuraProjectId c) in H.
  fold conn in H.
  set (c1 := after (initializeProvider (type stored) (rpcTarget stored)
                      (chainId stored) (ticker stored) (nickname stored)
                      c0)) in *.
  destruct conn as [tr|] eqn:Hconn.
  - assert (recognized (type stored) = true) as Hrec.
    { unfold conn, transport_for, recognized in *.
      destruct (isInfuraType (type stored)); [reflexivity|].
      destruct (String.eqb (type stored) "localhost"); [reflexivity|].
      destruct (String.eqb (type stored) RPC); [reflexivity|discriminate]. }
    rewrite Hrec. simpl.
    destruct H as (Hp & Hq & Ht). rewrite Hp.
    match goal with
    | |- context [lookupNetwork ?c2] =>
        destruct (lookupNetwork_keeps_rev c2) as (Ep & Eq & Et & Ei & Es);
        set (c3 := lookupNetwork c2) in *
    end.
    simpl in Ep, Eq, Et, Ei, Es.
    split; [rewrite Ei, Hi; reflexivity|].
    split.
    + unfold installs. rewrite Ep, Eq, Et, Ei, Ht. repeat split.
    + intros Hload. unfold emit_error. rewrite Ep. simpl.
      destruct (iter_verifyNetwork_rounds_rev 2 c3) as (_ & _ & Hk).
      * rewrite Es, Hn. exact Hload.
      * unfold sender. rewrite Eq. discriminate.
      * exact Hk.
  - split.
    + destruct (negb (recognized (type stored)));
        [exact Hi|].
      destruct (provider c1);
        match goal with
        | |- context [lookupNetwork ?c2] =>
            destruct (lookupNetwork_keeps_rev c2) as (_ & _ & _ & -> & _)
        end; exact Hi.
    + intros Hrec. rewrite Hrec. simpl.
      destruct H as (Hp & Hq & Ht).
      change (provider c0) with (provider c) in Hp.
      change (stopTimers c0) with (stopTimers c) in Ht.
      destruct (provider c1) as [p|] eqn:Hp1;
        match goal with
        | |- context [lookupNetwork ?c2] =>
            destruct (lookupNetwork_keeps_rev c2) as (-> & _ & -> & _)
        end; simpl; rewrite ?Hp1; rewrite <- Hp, Ht; split; reflexivity.
Qed.

Lemma setter_registers_twice_witness :
  option_map errorListeners (provider assigned) = Some 2 /\
  rounds (emit_error assigned) = 2 + rounds assigned /\
  option_map errorListeners
    (provider (after (set_providerConfig (providerConfig defaultState)
                        (after (setProviderType RPC assigned))))) =
  Some 3.
Proof.
  destruct (setter_registers_twice (providerConfig defaultState) fresh)
    as (_ & (Hp & _ & _) & Hr).
  destruct (setter_registers_twice (providerConfig defaultState)
              (after (setProviderType RPC assigned))) as (_ & H).
  split; [|split].
  - unfold assigned. rewrite Hp. reflexivity.
  - apply Hr. reflexivity.
  - destruct (H eq_refl) as [-> _]. reflexivity.
Defined.

End NC2_selection.

(** ** The registry under every call *)

Section NC2_registry_calls.
Import ControllerUtils NC2.

Lemma lookup_assign_same (k : string) (v : NetworkConfiguration)
  (registry : Registry) :
  lookup k (assign k v registry) = Some v.
Proof.
  induction registry as [|[k0 v0] rest IH]; simpl.
  - rewrite String.eqb_refl. reflexivity.
  - destruct (String.eqb k0 k) eqn:E; simpl.
    + rewrite String.eqb_refl. reflexivity.
    + rewrite E. exact IH.
Qed.

Lemma lookup_assign_other (k k' : string) (v : NetworkConfiguration)
  (registry : Registry) :
  k <> k' -> lookup k (assign k' v registry) = lookup k registry.
Proof.
  intros Hk. assert (String.eqb k' k = false) as Hk'.
  { apply String.eqb_neq. congruence. }
  induction registry as [|[k0 v0] rest IH]; simpl.
  - rewrite Hk'. reflexivity.
  - destruct (String.eqb k0 k') eqn:E; simpl.
    + apply String.eqb_eq in E. subst k0. rewrite Hk'. reflexivity.
    + rewrite IH. reflexivity.
Qed.

Lemma lookup_none (k : string) (registry : Registry) :
  lookup k registry = None <-> ~ In k (keys registry).
Proof.
  induction registry as [|[k0 v0] rest IH]; simpl.
  - split; [intros _ []|reflexivity].
  - destruct (String.eqb k0 k) eqn:E.
    + apply String.eqb_eq in E. split; [discriminate|].
      intros H. exfalso. apply H. left. exact E.
    + apply String.eqb_neq in E. rewrite IH.
      split; [intros H [H1|H1]; [exact (E H1)|exact (H H1)]|].
      intros H H1. apply H. right. exact H1.
Qed.

Lemma lookup_delete_other (k uuid : string) (registry : Registry) :
  k <> uuid -> lookup k (delete uuid registry) = lookup k registry.
Proof.
  intros Hk. induction registry as [|[k0 v0] rest IH]; simpl.
  - reflexivity.
  - destruct (String.eqb k0 uuid) eqn:E; simpl.
    + apply String.eqb_eq in E. subst k0.
      assert (String.eqb uuid k = false) as ->.
      { apply String.eqb_neq. congruence. }
      reflexivity.
    + rewrite IH. reflexivity.
Qed.

Lemma delete_absent (uuid : string) (registry : Registry) :
  ~ In uuid (keys registry) -> delete uuid registry = registry.
Proof.
  induction registry as [|[k0 v0] rest IH]; simpl; intros H.
  - reflexivity.
  - destruct (String.eqb k0 uuid) eqn:E.
    + apply String.eqb_eq in E. exfalso. apply H. left. exact E.
    + rewrite IH; [reflexivity|]. intros H1. apply H. right. exact H1.
Qed.

Lemma delete_present (uuid : string) (registry : Registry) :
  NoDup (keys registry) -> In uuid (keys registry) ->
  exists before v behind,
    registry = before ++ (uuid, v) :: behind /\
    delete uuid registry = before ++ behind /\
    ~ In uuid (keys (before ++ behind)).
Proof.
  induction registry as [|[k0 v0] rest IH]; simpl; intros Hnd Hin.
  - destruct Hin.
  - inversion Hnd as [|? ? Hnotin Hnd']; subst.
    destruct (String.eqb k0 uuid) eqn:E.
    + apply String.eqb_eq in E. subst k0.
      exists [], v0, rest. repeat split; try reflexivity. exact Hnotin.
    + apply String.eqb_neq in E.
      destruct Hin as [Hin|Hin]; [contradiction|].
      destruct (IH Hnd' Hin) as (before & v & behind & H1 & H2 & H3).
      exists ((k0, v0) :: before), v, behind.
      rewrite H2. rewrite H1 at 1. repeat split; try reflexivity.
      simpl. intros [H|H]; [exact (E H)|exact (H3 H)].
Qed.



Lemma NoDup_snoc (A : Type) (l : list A) (x : A) :
  NoDup l -> ~ In x l -> NoDup (l ++ [x]).
Proof.
  intros Hnd Hx. induction Hnd as [|y l Hy Hnd IH]; simpl.
  - constructor; [intros []|constructor].
  - constructor.
    + intros H. apply in_app_or in H. destruct H as [H|[H|[]]].
      * exact (Hy H).
      * apply Hx. left. symmetry. exact H.
    + apply IH. intros H. apply Hx. right. exact H.
Qed.














(** X12. [upsertNetworkConfiguration] stores the configuration under the
    id it returns and leaves every other id as it was; of the state it
    changes the registry only, it publishes exactly one state change, and
    it touches neither the connection nor the requests nor the mutex. *)
Theorem upsert_stores (cfg : NetworkConfiguration) (random : string)
  (c : Controller) :
  let c' := fst (upsertNetworkConfiguration cfg random c) in
  let id := snd (upsertNetworkConfiguration cfg random c) in
  lookup id (networkConfigurations (state c')) = Some cfg /\
  (forall k, k <> id ->
     lookup k (networkConfigurations (state c')) =
     lookup k (networkConfigurations (state c))) /\
  (network (state c') = network (state c) /\
   isCustomNetwork (state c') = isCustomNetwork (state c) /\
   providerConfig (state c') = providerConfig (state c) /\
   networkDetails (state c') = networkDetails (state c)) /\
  published c' = published c ++ [StateChange (state c')] /\
  (provider c' = provider c /\ ethQuery c' = ethQuery c /\
   requests c' = requests c /\ locked c' = locked c /\
   waiting c' = waiting c /\ resuming c' = resuming c /\
   rounds c' = rounds c).
Proof.
  intros c' id.
  destruct (upsert_unfold cfg random c) as [_ Hreg].
  fold c' in Hreg. fold id in Hreg.
  split; [rewrite Hreg; apply lookup_assign_same|].
  split; [intros k Hk; rewrite Hreg; apply lookup_assign_other; exact Hk|].
  unfold c', upsertNetworkConfiguration.
  destruct (find_rpcUrl _ _); simpl; repeat split; reflexivity.
Qed.

(** X13. [removeNetworkConfiguration] leaves no entry under the id and
    every other id as it was: an id that has an entry loses it, the other
    entries keeping their order, and an id that has none leaves the
    registry as it is. (A JavaScript object has no two entries under one
    key.) *)
Theorem remove_deletes (uuid : string) (c : Controller) :
  let registry := networkConfigurations (state c) in
  let registry' :=
    networkConfigurations (state (removeNetworkConfiguration uuid c)) in
  NoDup (keys registry) ->
  lookup uuid registry' = None /\
  (forall k, k <> uuid -> lookup k registry' = lookup k registry) /\
  (lookup uuid registry = None -> registry' = registry) /\
  (forall v, lookup uuid registry = Some v ->
     exists before behind,
       registry = before ++ (uuid, v) :: behind /\
       registry' = before ++ behind).
Proof.
  intros registry registry' Hnd.
  assert (registry' = delete uuid registry) as -> by reflexivity.
  split; [|split; [|split]].
  - destruct (lookup uuid registry) eqn:Hl.
    + assert (In uuid (keys registry)) as Hin.
      { destruct (in_dec string_dec uuid (keys registry)) as [H|H];
          [exact H|]. apply lookup_none in H. congruence. }
      destruct (delete_present _ _ Hnd Hin)
        as (before & v & behind & _ & -> & Hout).
      apply lookup_none. exact Hout.
    + apply lookup_none in Hl. rewrite delete_absent; [|exact Hl].
      apply lookup_none. exact Hl.
  - intros k Hk. apply lookup_delete_other. exact Hk.
  - intros Hl. apply delete_absent. apply lookup_none. exact Hl.
  - intros v Hl.
    assert (In uuid (keys registry)) as Hin.
    { destruct (in_dec string_dec uuid (keys registry)) as [H|H];
        [exact H|]. apply lookup_none in H. congruence. }
    destruct (delete_present _ _ Hnd Hin)
      as (before & v' & behind & Hsplit & Hdel & Hout).
    exists before, behind. split; [|exact Hdel].
    rewrite Hsplit in Hl |- *.
    assert (~ In uuid (keys before)) as Hb.
    { intros H. apply Hout. unfold keys in *. rewrite map_app.
      apply in_or_app. left. exact H. }
    clear - Hl Hb. induction before as [|[k0 v0] before IH]; simpl in *.
    + rewrite String.eqb_refl in Hl. congruence.
    + destruct (String.eqb k0 uuid) eqn:E.
      * apply String.eqb_eq in E. exfalso. apply Hb. left. exact E.
      * f_equal. apply IH; [exact Hl|].
        intros H. apply Hb. right. exact H.
Qed.

Lemma remove_deletes_witness :
  lookup "u2"
    (networkConfigurations
       (state (removeNetworkConfiguration "u2" two_networks))) = None /\
  networkConfigurations
    (state (removeNetworkConfiguration "u2" two_networks)) =
  [("u1", entry "http://x")].
Proof.
  assert (NoDup (keys (networkConfigurations (state two_networks))))
    as Hnd.
  { vm_compute. repeat constructor; simpl; intuition discriminate. }
  destruct (remove_deletes "u2" two_networks Hnd) as (H1 & _ & _ & H4).
  split; [exact H1|].
  destruct (H4 (entry "http://y") eq_refl) as (before & behind & Hs & ->).
  destruct before as [|e1 [|e2 before]]; vm_compute in Hs.
  - discriminate.
  - injection Hs as <- <-. reflexivity.
  - injection Hs as _ _ Hs. destruct before; discriminate.
Defined.





End NC2_registry_calls.

(** * Further properties of the detection rounds in both versions *)

Section Detection_invariants.
Import ControllerUtils.

Lemma rounds_outcome_same (n : string) (k : nat) (s : NC.NetworkState) :
  NC.rounds_outcome (repeat (Success n) (S k)) s =
  NC.round_outcome (Success n) s.
Proof.
  revert s. induction k as [|k IH]; intros s.
  - simpl. destruct (String.eqb _ n); simpl; rewrite ?app_nil_r; reflexivity.
  - change (repeat (Success n) (S (S k)))
      with (Success n :: repeat (Success n) (S k)).
    cbn [NC.rounds_outcome]. unfold NC.round_outcome at 1.
    destruct (String.eqb (NC.network s) n) eqn:E.
    + rewrite IH. unfold NC.round_outcome. rewrite E. reflexivity.
    + rewrite IH. unfold NC.round_outcome. simpl.
      rewrite String.eqb_refl, E. simpl. reflexivity.
Qed.

Lemma rounds_outcome_same_rev (n : string) (k : nat)
  (s : NC2.NetworkState) :
  NC2.rounds_outcome (repeat (Success n) (S k)) s =
  NC2.round_outcome (Success n) s.
Proof.
  revert s. induction k as [|k IH]; intros s.
  - simpl. destruct (String.eqb _ n); simpl; rewrite ?app_nil_r; reflexivity.
  - change (repeat (Success n) (S (S k)))
      with (Success n :: repeat (Success n) (S k)).
    cbn [NC2.rounds_outcome]. unfold NC2.round_outcome at 1.
    destruct (String.eqb (NC2.network s) n) eqn:E.
    + rewrite IH. unfold NC2.round_outcome. rewrite E. reflexivity.
    + rewrite IH. unfold NC2.round_outcome. simpl.
      rewrite String.eqb_refl, E. simpl. reflexivity.
Qed.

(** X16. On every controller the program can hold, in both versions and
    whatever was called, answered or emitted: at most one identity request
    is in flight; the rounds settled, the round served and the rounds
    waiting are, in this order, the rounds in the order of the calls that
    started them; the lock is free only when no round is served or
    waiting, and while it is held exactly one round is served. *)
Theorem rounds_are_serial :
  (forall c, NC.reachable c ->
      NC.in_flight c <= 1 /\
      NC.settled c ++ NC.serving c ++ NC.waiting c = seq 0 (NC.rounds c) /\
      (NC.locked c = false -> NC.idle c) /\
      (NC.locked c = true -> List.length (NC.serving c) = 1)) /\
  (forall c, NC2.reachable c ->
      NC2.in_flight c <= 1 /\
      NC2.settled c ++ NC2.serving c ++ NC2.waiting c =
      seq 0 (NC2.rounds c) /\
      (NC2.locked c = false -> NC2.idle c) /\
      (NC2.locked c = true -> List.length (NC2.serving c) = 1)).
Proof.
  split; intros c Hc.
  - pose proof (reachable_serial c Hc) as Hs.
    split; [exact (serial_in_flight c Hs)|].
    split; [exact (NC.serial_order c Hs)|]. split.
    + intros Hl. destruct (NC.serial_free c Hs Hl) as [H1 H2].
      exact (serving_nil_idle c Hs H1 H2).
    + intros Hl. pose proof (NC.serial_held c Hs Hl) as H1.
      pose proof (NC.serial_single c Hs) as H2.
      destruct (NC.serving c) as [|x [|y l]]; simpl in *;
        [congruence|reflexivity|lia].
  - pose proof (reachable_serial_rev c Hc) as Hs.
    split; [exact (serial_in_flight_rev c Hs)|].
    split; [exact (NC2.serial_order c Hs)|]. split.
    + intros Hl. destruct (NC2.serial_free c Hs Hl) as [H1 H2].
      exact (serving_nil_idle_rev c Hs H1 H2).
    + intros Hl. pose proof (NC2.serial_held c Hs Hl) as H1.
      pose proof (NC2.serial_single c Hs) as H2.
      destruct (NC2.serving c) as [|x [|y l]]; simpl in *;
        [congruence|reflexivity|lia].
Qed.

Lemma rounds_are_serial_witness :
  (NC.in_flight NC.on_mainnet <= 1 /\
   List.length (NC.serving NC.on_mainnet) = 1) /\
  (NC2.in_flight NC2.connected_to_1 <= 1 /\ NC2.idle NC2.connected_to_1).
Proof.
  destruct rounds_are_serial as [H1 H2].
  destruct (H1 NC.on_mainnet) as (Ha & _ & _ & Hb).
  { exists NC.defaultState, (Some "project"),
      [NC.Call_setProviderType "mainnet"].
    vm_compute. reflexivity. }
  destruct (H2 NC2.connected_to_1) as (Hc & _ & Hd & _).
  { exists NC2.defaultState, (Some "project"),
      [NC2.Call_setProviderType "mainnet"; NC2.Resume;
       NC2.Reply_net_version 1 (Success "1")].
    vm_compute. reflexivity. }
  split; split.
  - exact Ha.
  - apply Hb. vm_compute. reflexivity.
  - exact Hc.
  - apply Hd. vm_compute. reflexivity.
Defined.

(** X17. Detection is idempotent: when every round of a schedule of
    detection calls and replies is answered with the same id, whatever
    their number and interleaving, the stored identity ends as that id,
    the stored selection is untouched, every answered round has settled,
    and the configuration announcement is published once if the id
    differs from the one stored at the start and not at all if it is the
    same. *)
Theorem same_answer_announced_once (n : string) (k : nat) :
  (forall c0 acts c',
      forallb NC.detection_only acts = true ->
      NC.replies_of acts = repeat (Success n) (S k) ->
      NC.run acts c0 = Some c' ->
      NC.network (NC.state c') = n /\
      NC.providerConfig (NC.state c') = NC.providerConfig (NC.state c0) /\
      NC.announcements (NC.published c') =
      NC.announcements (NC.published c0) ++
      (if String.eqb (NC.network (NC.state c0)) n then []
       else [NC.providerConfig (NC.state c0)]) /\
      List.length (NC.settled c') = List.length (NC.settled c0) + S k) /\
  (forall c0 acts c',
      NC2.reachable c0 ->
      forallb NC2.detection_only acts = true ->
      NC2.replies_of acts = repeat (Success n) (S k) ->
      NC2.run acts c0 = Some c' ->
      NC2.network (NC2.state c') = n /\
      NC2.providerConfig (NC2.state c') =
      NC2.providerConfig (NC2.state c0) /\
      NC2.announcements (NC2.published c') =
      NC2.announcements (NC2.published c0) ++
      (if String.eqb (NC2.network (NC2.state c0)) n then []
       else [NC2.providerConfig (NC2.state c0)]) /\
      List.length (NC2.settled c') = List.length (NC2.settled c0) + S k).
Proof.
  split.
  - intros c0 acts c' Hd Hr Hrun.
    destruct (detection_log acts c0 c' Hd Hrun) as [Hs Hp].
    destruct (detection_counts acts c0 c' Hd Hrun) as [_ Hn].
    rewrite Hr, repeat_length in Hn.
    rewrite Hr, rounds_outcome_same in Hs, Hp.
    rewrite Hs, Hp, announcements_app. simpl.
    destruct (String.eqb (NC.network (NC.state c0)) n) eqn:E; simpl.
    + apply String.eqb_eq in E. repeat split; auto.
    + repeat split; auto.
  - intros c0 acts c' Hc Hd Hr Hrun.
    pose proof (reachable_serial_rev c0 Hc) as Hser.
    destruct (detection_log_rev acts c0 c' Hser Hd Hrun) as [Hs Hp].
    destruct (detection_counts_rev acts c0 c' Hser Hd Hrun) as [_ Hn].
    rewrite Hr, repeat_length in Hn.
    rewrite Hr, rounds_outcome_same_rev in Hs, Hp.
    rewrite Hs, Hp, announcements_app_rev. simpl.
    destruct (String.eqb (NC2.network (NC2.state c0)) n) eqn:E; simpl.
    + apply String.eqb_eq in E. repeat split; auto.
    + repeat split; auto.
Qed.

Lemma same_answer_announced_once_witness :
  (exists c',
      NC.run [NC.Call_lookupNetwork; NC.Call_lookupNetwork; NC.Resume;
              NC.Reply_net_version 1 (Success "5"); NC.Resume;
              NC.Reply_net_version 1 (Success "5")] NC.connected_to_1 =
      Some c' /\
      NC.network (NC.state c') = "5" /\
      NC.announcements (NC.published c') =
      NC.announcements (NC.published NC.connected_to_1) ++
      [NC.providerConfig (NC.state NC.connected_to_1)]) /\
  (exists c',
      NC2.run [NC2.Call_lookupNetwork; NC2.Call_lookupNetwork; NC2.Resume;
               NC2.Reply_net_version 1 (Success "1"); NC2.Resume;
               NC2.Reply_net_version 1 (Success "1")] NC2.connected_to_1 =
      Some c' /\
      NC2.network (NC2.state c') = "1" /\
      NC2.announcements (NC2.published c') =
      NC2.announcements (NC2.published NC2.connected_to_1)).
Proof.
  split.
  - destruct (NC.run [NC.Call_lookupNetwork; NC.Call_lookupNetwork;
                      NC.Resume; NC.Reply_net_version 1 (Success "5");
                      NC.Resume; NC.Reply_net_version 1 (Success "5")]
                NC.connected_to_1) as [c'|] eqn:Hrun;
      [|vm_compute in Hrun; discriminate].
    exists c'. split; [reflexivity|].
    destruct (proj1 (same_answer_announced_once "5" 1)
                NC.connected_to_1
                [NC.Call_lookupNetwork; NC.Call_lookupNetwork; NC.Resume;
                 NC.Reply_net_version 1 (Success "5"); NC.Resume;
                 NC.Reply_net_version 1 (Success "5")] c')
      as (H1 & _ & H2 & _).
    + reflexivity.
    + reflexivity.
    + exact Hrun.
    + split; [exact H1|exact H2].
  - destruct (NC2.run [NC2.Call_lookupNetwork; NC2.Call_lookupNetwork;
                       NC2.Resume; NC2.Reply_net_version 1 (Success "1");
                       NC2.Resume; NC2.Reply_net_version 1 (Success "1")]
                NC2.connected_to_1) as [c'|] eqn:Hrun;
      [|vm_compute in Hrun; discriminate].
    exists c'. split; [reflexivity|].
    destruct (proj2 (same_answer_announced_once "1" 1)
                NC2.connected_to_1
                [NC2.Call_lookupNetwork; NC2.Call_lookupNetwork;
                 NC2.Resume; NC2.Reply_net_version 1 (Success "1");
                 NC2.Resume; NC2.Reply_net_version 1 (Success "1")] c')
      as (H1 & _ & H2 & _).
    + exists NC2.defaultState, (Some "project"),
        [NC2.Call_setProviderType "mainnet"; NC2.Resume;
         NC2.Reply_net_version 1 (Success "1")].
      vm_compute. reflexivity.
    + reflexivity.
    + reflexivity.
    + exact Hrun.
    + split; [exact H1|]. rewrite H2. apply app_nil_r.
Defined.

End Detection_invariants.

(** * Properties of [RateLimitController.ts] *)

Section RateLimit_calls.
Import RateLimit.
Variables Args Value : Type.

Implicit Types (c : Controller Args Value) (s : RateLimitState).

Lemma count_of_assign (api origin : string) (n : nat) s
  (a o : string) :
  count_of (assign api origin n s) a o =
  if String.eqb a api && String.eqb o origin
  then match requests s api with
       | Some _ => Some n
       | None => None
       end
  else count_of s a o.
Proof.
  unfold count_of, assign. simpl.
  destruct (String.eqb_spec a api) as [->|Ha]; simpl; [|reflexivity].
  destruct (requests s api); [|destruct (String.eqb o origin); reflexivity].
  destruct (String.eqb o origin); reflexivity.
Qed.

Lemma requests_assign (api origin : string) (n : nat) s (a : string) :
  requests (assign api origin n s) a = None <-> requests s a = None.
Proof.
  unfold assign. simpl. destruct (String.eqb a api); [|reflexivity].
  destruct (requests s a); split; congruence.
Qed.

Lemma pair_eqb (a o api origin : string) :
  String.eqb a api && String.eqb o origin = true <->
  (a, o) = (api, origin).
Proof.
  rewrite andb_true_iff, !String.eqb_eq. split.
  - intros [-> ->]. reflexivity.
  - intros H. injection H as -> ->. split; reflexivity.
Qed.

Lemma count_assign_same (api origin : string) (n : nat) s :
  requests s api <> None -> count (assign api origin n s) api origin = n.
Proof.
  intros H. unfold count. rewrite count_of_assign, !String.eqb_refl. simpl.
  destruct (requests s api); [reflexivity|congruence].
Qed.

Lemma count_assign_other (api origin : string) (n : nat) s
  (a o : string) :
  (a, o) <> (api, origin) ->
  count (assign api origin n s) a o = count s a o.
Proof.
  intros H. unfold count. rewrite count_of_assign.
  destruct (String.eqb a api && String.eqb o origin) eqn:E;
    [|reflexivity].
  apply pair_eqb in E. contradiction.
Qed.

Lemma remove_nth_split (A : Type) (l : list A) :
  forall i x,
    nth_error l i = Some x ->
    exists l1 l2, l = l1 ++ x :: l2 /\ remove_nth i l = l1 ++ l2.
Proof.
  induction l as [|y l IH]; intros [|i] x H; simpl in H; try discriminate.
  - injection H as ->. exists [], l. split; reflexivity.
  - destruct (IH i x H) as (l1 & l2 & -> & E).
    exists (y :: l1), l2. simpl. rewrite E. split; reflexivity.
Qed.

(** What [call] does, by the count stored for the caller. *)
Lemma call_effect (origin type : string) (args : Args) c :
  let c' := fst (call origin type args c) in
  let r := snd (call origin type args c) in
  let previous := count (state c) type origin in
  (implementations c' = implementations c /\
   rateLimitCount c' = rateLimitCount c /\
   rateLimitTimeout c' = rateLimitTimeout c) /\
  ((c' = c /\
    ((requests (state c) type = None /\ r = Throw TypeError) \/
     (exists n,
         count_of (state c) type origin = Some n /\
         rateLimitCount c <= n /\
         r = Throw (LimitExceeded
                      (quote ++ type ++ quote ++
                       " is currently rate-limited. Please try again later."))))) \/
   (requests (state c) type <> None /\
    (count_of (state c) type origin = None \/
     exists n,
       count_of (state c) type origin = Some n /\ n < rateLimitCount c) /\
    state c' = assign type origin (previous + 1) (state c) /\
    timers c' =
    timers c ++ (if Nat.eqb previous 0 then [(type, origin)] else []) /\
    published c' = published c ++ [state c'] /\
    r = match implementation_of type (implementations c) with
        | Some implementation => Ok (implementation args)
        | None => Throw (Error "Invalid api type")
        end)).
Proof.
  unfold call, isRateLimited, recordRequest, count, count_of.
  destruct (requests (state c) type) as [counts|] eqn:Hk; simpl.
  - destruct (counts origin) as [n|] eqn:Hn; simpl.
    + destruct (Nat.leb (rateLimitCount c) n) eqn:Hl; simpl.
      * apply Nat.leb_le in Hl.
        split; [repeat split; reflexivity|]. left.
        split; [reflexivity|]. right. exists n. repeat split; auto.
      * apply Nat.leb_gt in Hl.
        destruct (Nat.eqb n 0); simpl;
          destruct (implementation_of type (implementations c)); simpl;
          (split; [repeat split; reflexivity|]); right;
          rewrite ?app_nil_r;
          (split; [discriminate|]);
          (split; [right; exists n; split; [reflexivity|exact Hl]|]);
          repeat split; reflexivity.
    + destruct (implementation_of type (implementations c)); simpl;
        (split; [repeat split; reflexivity|]); right;
        (split; [discriminate|]);
        (split; [left; reflexivity|]);
        repeat split; reflexivity.
  - split; [repeat split; reflexivity|]. left.
    split; [reflexivity|]. left. split; reflexivity.
Qed.

Lemma call_sound (origin type : string) (args : Args) c :
  sound c -> sound (fst (call origin type args c)).
Proof.
  intros [Hkeys Hbound Htimed Honce].
  destruct (call_effect origin type args c)
    as ((Hi & Hl & _) & [[-> _]|(Hk & Hc & Hs & Ht & _ & _)]);
    [constructor; assumption|].
  set (c' := fst (call origin type args c)) in *.
  set (previous := count (state c) type origin) in *.
  assert (previous + 1 <= Nat.max (rateLimitCount c) 1) as Hprev.
  { unfold previous, count.
    destruct Hc as [->|(n & -> & Hn)]; lia. }
  constructor.
  - intros a. rewrite Hs, Hi, requests_assign. apply Hkeys.
  - intros a o n. rewrite Hs, Hl, count_of_assign.
    destruct (String.eqb a type && String.eqb o origin).
    + destruct (requests (state c) type); [|discriminate].
      intros H. injection H as <-. exact Hprev.
    + apply Hbound.
  - intros a o. rewrite Hs, Ht.
    destruct (String.eqb a type && String.eqb o origin) eqn:E.
    + apply pair_eqb in E. injection E as -> ->.
      rewrite count_assign_same; [|exact Hk].
      split; [lia|]. intros _. apply in_or_app.
      destruct (Nat.eqb previous 0) eqn:E0.
      * right. left. reflexivity.
      * left. apply Htimed. apply Nat.eqb_neq in E0. fold previous. lia.
    + assert ((a, o) <> (type, origin)) as Hne.
      { intros H. apply pair_eqb in H. congruence. }
      rewrite count_assign_other; [|exact Hne].
      rewrite <- Htimed. rewrite in_app_iff.
      split; [|intros H; left; exact H].
      intros [H|H]; [exact H|].
      destruct (Nat.eqb previous 0); [|destruct H].
      destruct H as [H|[]]. congruence.
  - rewrite Ht. destruct (Nat.eqb previous 0) eqn:E0.
    + apply NoDup_snoc; [exact Honce|].
      rewrite Htimed. apply Nat.eqb_eq in E0. fold previous. lia.
    + rewrite app_nil_r. exact Honce.
Qed.

(** What the run of a timer callback does on a controller that is
    sound. *)
Lemma timeout_effect (i : nat) (api origin : string) c :
  sound c ->
  nth_error (timers c) i = Some (api, origin) ->
  exists l1 l2 c',
    timers c = l1 ++ (api, origin) :: l2 /\
    resetRequestCount api origin
      (set_timers (remove_nth i (timers c)) c) = Ok c' /\
    step (Timeout i) c = Some (c', []) /\
    state c' = assign api origin 0 (state c) /\
    timers c' = l1 ++ l2 /\
    implementations c' = implementations c /\
    rateLimitCount c' = rateLimitCount c /\
    requests (state c) api <> None.
Proof.
  intros [Hkeys Hbound Htimed Honce] Hnth.
  destruct (remove_nth_split _ _ _ _ Hnth) as (l1 & l2 & Hsplit & Hrem).
  assert (requests (state c) api <> None) as Hk.
  { assert (1 <= count (state c) api origin) as H.
    { apply Htimed. apply (nth_error_In _ _ Hnth). }
    unfold count, count_of in H.
    destruct (requests (state c) api); [discriminate|]. simpl in H. lia. }
  exists l1, l2.
  unfold step, resetRequestCount. rewrite Hnth. simpl.
  destruct (requests (state c) api) as [counts|] eqn:E; [|congruence].
  eexists. split; [exact Hsplit|]. split; [reflexivity|].
  split; [reflexivity|]. simpl. rewrite Hrem.
  repeat split; try reflexivity. discriminate.
Qed.

Lemma step_sound (a : Action Args) c c' (l : list (Called Value)) :
  step a c = Some (c', l) -> sound c -> sound c'.
Proof.
  destruct a as [origin type args|i]; intros Hstep Hc.
  - simpl in Hstep. pose proof (call_sound origin type args c Hc) as H.
    destruct (call origin type args c) as [c1 r]. simpl in H.
    injection Hstep as <- _. exact H.
  - destruct (nth_error (timers c) i) as [[api origin]|] eqn:Hnth;
      [|simpl in Hstep; rewrite Hnth in Hstep; discriminate].
    destruct (timeout_effect i api origin c Hc Hnth)
      as (l1 & l2 & c1 & Hsplit & _ & Hs & Hst & Ht & Hi & Hl & Hk).
    rewrite Hs in Hstep. injection Hstep as <- _.
    destruct Hc as [Hkeys Hbound Htimed Honce].
    rewrite Hsplit in Honce.
    constructor.
    + intros a. rewrite Hst, Hi, requests_assign. apply Hkeys.
    + intros a o n. rewrite Hst, Hl, count_of_assign.
      destruct (String.eqb a api && String.eqb o origin).
      * destruct (requests (state c) api); [|discriminate].
        intros H. injection H as <-. lia.
      * apply Hbound.
    + intros a o. rewrite Hst, Ht.
      destruct (String.eqb a api && String.eqb o origin) eqn:E.
      * apply pair_eqb in E. injection E as -> ->.
        rewrite count_assign_same; [|exact Hk].
        split; [|lia]. intros H. exfalso.
        exact (NoDup_remove_2 _ _ _ Honce H).
      * assert ((a, o) <> (api, origin)) as Hne.
        { intros H. apply pair_eqb in H. congruence. }
        rewrite count_assign_other; [|exact Hne].
        rewrite <- Htimed, Hsplit, !in_app_iff. simpl.
        split; [tauto|]. intros [H|[H|H]]; [tauto| |tauto].
        symmetry in H. contradiction.
    + rewrite Ht. exact (NoDup_remove_1 _ _ _ Honce).
Qed.

Lemma run_sound (acts : list (Action Args)) :
  forall c c' (log : list (Called Value)),
    run acts c = Some (c', log) -> sound c -> sound c'.
Proof.
  induction acts as [|a acts IH]; simpl; intros c c' log Hrun Hc.
  - injection Hrun as <- _. exact Hc.
  - destruct (step a c) as [[c1 l1]|] eqn:Hstep; [|discriminate].
    destruct (run acts c1) as [[c2 l2]|] eqn:Hrest; [|discriminate].
    injection Hrun as <- _.
    exact (IH c1 c2 l2 Hrest (step_sound a c c1 l1 Hstep Hc)).
Qed.

Lemma construct_sound (timeout limit : option nat)
  (impls : Implementations Args Value) :
  sound (construct timeout limit None impls).
Proof.
  constructor; simpl.
  - intros a. destruct (implementation_of a impls); split; congruence.
  - intros a o n. unfold count_of. simpl.
    destruct (implementation_of a impls); discriminate.
  - intros a o. unfold count, count_of. simpl.
    destruct (implementation_of a impls); simpl; split;
      solve [intros []|lia].
  - constructor.
Qed.

Lemma reachable_sound c : reachable c -> sound c.
Proof.
  intros (timeout & limit & impls & acts & log & Hrun).
  exact (run_sound acts _ _ _ Hrun (construct_sound timeout limit impls)).
Qed.










(** X24. With a limit of at least one, the run of the timer of a pair
    opens a new window: the count is zero again, the next call of the
    origin to the type returns what the implementation returns, stores
    the count one and starts the one timer of the pair anew. *)
Theorem timeout_reopens (i : nat) (origin type : string) (args : Args) c :
  reachable c -> 1 <= rateLimitCount c ->
  nth_error (timers c) i = Some (type, origin) ->
  exists c1 implementation,
    step (Timeout i) c = Some (c1, []) /\
    count (state c1) type origin = 0 /\
    implementation_of type (implementations c1) = Some implementation /\
    snd (call origin type args c1) = Ok (implementation args) /\
    count (state (fst (call origin type args c1))) type origin = 1 /\
    In (type, origin) (timers (fst (call origin type args c1))).
Proof.
  intros Hr Hlimit Hnth. pose proof (reachable_sound c Hr) as Hc.
  destruct (timeout_effect i type origin c Hc Hnth)
    as (l1 & l2 & c1 & Hsplit & _ & Hs & Hst & Ht & Hi & Hl & Hk).
  pose proof (step_sound _ c c1 [] Hs Hc) as Hc1.
  assert (count_of (state c1) type origin = Some 0) as Hzero.
  { rewrite Hst, count_of_assign, !String.eqb_refl. simpl.
    destruct (requests (state c) type); [reflexivity|congruence]. }
  destruct (implementation_of type (implementations c1)) as [f|] eqn:Hf.
  - exists c1, f. split; [exact Hs|].
    split; [unfold count; rewrite Hzero; reflexivity|].
    split; [exact Hf|].
    destruct (call_effect origin type args c1) as (_ & H).
    unfold count in H. rewrite Hzero in H. simpl in H.
    destruct H as [[_ [[Hk1 _]|(n & Hn & Hle & _)]]
                  |(Hk1 & _ & Hs1 & Ht1 & _ & Hres)].
    + exfalso. unfold count_of in Hzero. rewrite Hk1 in Hzero.
      discriminate.
    + injection Hn as <-. lia.
    + rewrite Hf in Hres. split; [exact Hres|]. split.
      * rewrite Hs1. apply count_assign_same. exact Hk1.
      * rewrite Ht1. apply in_or_app. right. left. reflexivity.
  - exfalso. destruct Hc1 as [Hkeys _ _ _]. apply Hkeys in Hf.
    unfold count_of in Hzero. rewrite Hf in Hzero. discriminate.
Qed.

End RateLimit_calls.

(** ** The properties on sample controllers *)

Section RateLimit_samples.
Import RateLimit.

Lemma two_shown_reachable : reachable two_shown.
Proof.
  exists (Some 1000), (Some 2), [("showNotification", fun n => n + 1)],
    [Call "origin" "showNotification" 1;
     Call "origin" "showNotification" 2],
    [mkCalled "origin" "showNotification" (Ok 2);
     mkCalled "origin" "showNotification" (Ok 3)].
  reflexivity.
Qed.







Lemma timeout_reopens_witness :
  exists c1 implementation,
    step (Timeout 0) two_shown = Some (c1, []) /\
    snd (call "origin" "showNotification" 7 c1) = Ok (implementation 7).
Proof.
  destruct (timeout_reopens nat nat 0 "origin" "showNotification" 7
              two_shown two_shown_reachable)
    as (c1 & f & Hs & _ & _ & Hres & _).
  - vm_compute. lia.
  - reflexivity.
  - exists c1, f. split; [exact Hs|exact Hres].
Defined.

(** The hypothesis of the constructor's state matters: with a stored key
    that has no implementation, the request is recorded and the call then
    ends with ['Invalid api type']; and a second call, now limited, does
    not get that far. *)
Remark stray_key_recorded_then_invalid :
  snd (call "origin" "ghost" 0 stray_key) =
  Throw (Error "Invalid api type") /\
  count (state (fst (call "origin" "ghost" 0 stray_key)))
    "ghost" "origin" = 1 /\
  exists message,
    snd (call "origin" "ghost" 0 (fst (call "origin" "ghost" 0 stray_key)))
    = Throw (LimitExceeded message).
Proof.
  split; [reflexivity|]. split; [reflexivity|].
  eexists. reflexivity.
Qed.

End RateLimit_samples.

(** * Properties of the account tracker *)

Section AccountTracker_sync.
Import AccountTracker.










Lemma account_lookup_none (a : string) (l : Accounts) :
  lookup a l = None <-> ~ In a (keys l).
Proof.
  induction l as [|[k w] l IH]; simpl.
  - split; [intros _ []|reflexivity].
  - destruct (String.eqb_spec k a) as [E|E].
    + split; [discriminate|]. intros H. exfalso. apply H. left. exact E.
    + rewrite IH. split; [intros H [H1|H1]; [exact (E H1)|exact (H H1)]|].
      intros H H1. apply H. right. exact H1.
Qed.




Lemma account_lookup_assign (a k : string) (v : AccountInformation)
  (l : Accounts) :
  lookup a (assign k v l) =
  if String.eqb k a then Some v else lookup a l.
Proof.
  induction l as [|[k0 w] l IH]; simpl.
  - reflexivity.
  - destruct (String.eqb_spec k0 k) as [E|E]; simpl.
    + subst k0. destruct (String.eqb k a); reflexivity.
    + destruct (String.eqb_spec k0 a) as [E1|E1].
      * subst k0. destruct (String.eqb_spec k a); [congruence|reflexivity].
      * exact IH.
Qed.

Lemma account_keys_assign (k : string) (v : AccountInformation)
  (l : Accounts) :
  NoDup (keys l) -> NoDup (keys (assign k v l)).
Proof.
  induction l as [|[k0 w] l IH]; simpl; intros H.
  - constructor; [intros []|constructor].
  - inversion H as [|? ? Hk Hl]; subst.
    destruct (String.eqb_spec k0 k) as [E|E]; simpl.
    + subst k0. constructor; assumption.
    + constructor; [|exact (IH Hl)].
      intros Hin. apply Hk.
      assert (lookup k0 (assign k v l) <> None) as Hl1.
      { intros H1. apply account_lookup_none in H1. exact (H1 Hin). }
      rewrite account_lookup_assign in Hl1.
      destruct (String.eqb_spec k k0); [congruence|].
      destruct (in_dec string_dec k0 (keys l)) as [H2|H2]; [exact H2|].
      apply account_lookup_none in H2. congruence.
Qed.



Lemma collect_lookup (a : string)
  (value : list (option (string * string))) :
  forall obj,
    lookup a
      (fold_left
         (fun obj item =>
            match item with
            | None => obj
            | Some (address, balance) =>
                assign address {| balance := balance |} obj
            end) value obj) =
    match last_balance a value with
    | Some b => Some {| balance := b |}
    | None => lookup a obj
    end.
Proof.
  induction value as [|item value IH]; simpl; intros obj; [reflexivity|].
  rewrite IH. destruct (last_balance a value); [reflexivity|].
  destruct item as [[a' b]|]; [|reflexivity].
  rewrite account_lookup_assign.
  destruct (String.eqb a' a); reflexivity.
Qed.

Lemma collect_keys (value : list (option (string * string))) :
  forall obj,
    NoDup (keys obj) ->
    NoDup
      (keys
         (fold_left
            (fun obj item =>
               match item with
               | None => obj
               | Some (address, balance) =>
                   assign address {| balance := balance |} obj
               end) value obj)).
Proof.
  induction value as [|item value IH]; simpl; intros obj H; [exact H|].
  apply IH. destruct item as [[a b]|]; [|exact H].
  apply account_keys_assign. exact H.
Qed.

Lemma last_balance_none (a : string) (l : list (string * option string)) :
  (forall b, ~ In (a, Some b) l) ->
  last_balance a
    (map (fun p => option_map (pair (fst p)) (snd p)) l) = None.
Proof.
  induction l as [|[a' o] l IH]; simpl; intros H; [reflexivity|].
  rewrite IH; [|intros b Hb; apply (H b); right; exact Hb].
  destruct o as [b|]; simpl; [|reflexivity].
  destruct (String.eqb_spec a' a) as [E|E]; [|reflexivity].
  exfalso. apply (H b). left. subst. reflexivity.
Qed.

(** X26. [syncBalanceWithAddresses] returns, for every address of which
    at least one query gave a balance, one entry with the balance the
    last such query gave, and no entry for an address whose queries all
    failed or ran out of time, nor for any other address. *)
Theorem sync_balance_collects (addresses : list string)
  (outcomes : list (option string)) :
  let value :=
    map (fun p => option_map (pair (fst p)) (snd p))
      (combine addresses outcomes) in
  let synced := syncBalanceWithAddresses addresses outcomes in
  NoDup (keys synced) /\
  (forall a,
      lookup a synced =
      option_map mkAccountInformation (last_balance a value)) /\
  (forall a,
      (forall b, ~ In (a, Some b) (combine addresses outcomes)) ->
      lookup a synced = None) /\
  (forall a, ~ In a addresses -> lookup a synced = None).
Proof.
  intros value synced.
  assert (forall a,
             lookup a synced =
             option_map mkAccountInformation (last_balance a value)) as Hl.
  { intros a. unfold synced, syncBalanceWithAddresses, collect.
    fold value. rewrite collect_lookup.
    destruct (last_balance a value); reflexivity. }
  assert (forall a,
             (forall b, ~ In (a, Some b) (combine addresses outcomes)) ->
             last_balance a value = None) as Hnone.
  { intros a. apply last_balance_none. }
  split; [apply collect_keys; constructor|].
  split; [exact Hl|]. split.
  - intros a H. rewrite Hl, (Hnone a H). reflexivity.
  - intros a H. rewrite Hl, (Hnone a); [reflexivity|].
    intros b Hb. apply H. exact (in_combine_l _ _ _ _ Hb).
Qed.

Lemma sync_balance_collects_witness :
  lookup "0xa"
    (syncBalanceWithAddresses ["0xa"; "0xb"; "0xa"]
       [Some "0x1"; None; Some "0x2"]) = Some {| balance := "0x2" |} /\
  lookup "0xb"
    (syncBalanceWithAddresses ["0xa"; "0xb"; "0xa"]
       [Some "0x1"; None; Some "0x2"]) = None /\
  lookup "0xc"
    (syncBalanceWithAddresses ["0xa"; "0xb"; "0xa"]
       [Some "0x1"; None; Some "0x2"]) = None.
Proof.
  destruct (sync_balance_collects ["0xa"; "0xb"; "0xa"]
              [Some "0x1"; None; Some "0x2"]) as (_ & Hl & Hfail & Hother).
  split; [exact (Hl "0xa")|]. split.
  - apply Hfail. intros b H. simpl in H. intuition discriminate.
  - apply Hother. simpl. intuition discriminate.
Defined.

End AccountTracker_sync.

(** * Properties of the currency rate controller *)

Section CurrencyRate_rounds.
Import CurrencyRate.
Variable Number : Type.
Variable TESTNET_TICKER_SYMBOLS : list string.
Variable FALL_BACK_VS_CURRENCY : string.

Implicit Types (c : Controller Number) (a : Action Number).

Lemma serial_ext c c' :
  settled c' = settled c -> resuming c' = resuming c ->
  fetches c' = fetches c -> waiting c' = waiting c ->
  rounds c' = rounds c -> locked c' = locked c ->
  serial c -> serial c'.
Proof.
  intros H1 H2 H3 H4 H5 H6 [Ho Hs Hf Hh].
  constructor; unfold serving in *; rewrite ?H1, ?H2, ?H3, ?H4, ?H5, ?H6;
    assumption.
Qed.

Lemma acquire_serial c : serial c -> serial (acquire c).
Proof.
  intros [Ho Hs Hf Hh]. unfold acquire. simpl.
  destruct (locked c) eqn:Hl.
  - constructor; unfold serving in *; simpl.
    + change (0 :: seq 1 (rounds c)) with (seq 0 (S (rounds c))).
      rewrite seq_S, <- Ho. simpl. rewrite <- !app_assoc. reflexivity.
    + exact Hs.
    + discriminate.
    + intros _. apply Hh. reflexivity.
  - destruct (Hf eq_refl) as [Hserving Hw].
    unfold serving in *. apply app_eq_nil in Hserving as [Hr Hm].
    rewrite Hr, Hm, Hw in *. simpl in *.
    constructor; unfold serving; simpl; rewrite ?Hr, ?Hm, ?Hw; simpl.
    + change (0 :: seq 1 (rounds c)) with (seq 0 (S (rounds c))).
      rewrite seq_S, <- Ho. simpl. rewrite <- !app_assoc. reflexivity.
    + lia.
    + discriminate.
    + discriminate.
Qed.

Lemma updateExchangeRate_serial c :
  serial c -> serial (fst (updateExchangeRate c)).
Proof.
  intros H. unfold updateExchangeRate.
  destruct (enabled c); simpl; [apply acquire_serial|]; exact H.
Qed.

Lemma updateExchangeRate_frame c :
  let c' := fst (updateExchangeRate c) in
  state c' = state c /\ fetches c' = fetches c /\
  settled c' = settled c /\ published c' = published c /\
  includeUsdRate c' = includeUsdRate c /\ enabled c' = enabled c.
Proof.
  unfold updateExchangeRate, acquire.
  destruct (enabled c) eqn:E; simpl; [destruct (locked c)|]; simpl;
    repeat split; auto.
Qed.

(** What the [finally] block leaves. *)
Lemma finally_effect (round : nat) (d r u : option Number)
  (cur nat_ : string) (thrown : option Thrown) c :
  let c' := updateExchangeRate_finally round d r u cur nat_ thrown c in
  state c' =
  {| conversionDate := d; conversionRate := r; currentCurrency := cur;
     nativeCurrency := nat_; pendingCurrentCurrency := None;
     pendingNativeCurrency := None; usdConversionRate := u |} /\
  fetches c' = fetches c /\ rounds c' = rounds c /\
  settled c' =
  settled c ++
  [(round,
    match thrown with
    | Some error => Rejected error
    | None => Fulfilled (state c')
    end)] /\
  published c' = published c ++ [state c'] /\
  match waiting c with
  | [] => locked c' = false /\ waiting c' = [] /\ resuming c' = resuming c
  | next :: rest =>
      locked c' = true /\ waiting c' = rest /\
      resuming c' = resuming c ++ [next]
  end.
Proof.
  unfold updateExchangeRate_finally, releaseLock, update. simpl.
  destruct (waiting c); simpl; repeat split; reflexivity.
Qed.

Lemma finally_serial (round : nat) (d r u : option Number)
  (cur nat_ : string) (thrown : option Thrown) c :
  resuming c = [] -> fetches c = [] ->
  map fst (settled c) ++ [round] ++ waiting c = seq 0 (rounds c) ->
  serial (updateExchangeRate_finally round d r u cur nat_ thrown c).
Proof.
  intros Hr Hf Ho.
  destruct (finally_effect round d r u cur nat_ thrown c)
    as (_ & Hf' & Hn' & Hs' & _ & Hm).
  remember (updateExchangeRate_finally round d r u cur nat_ thrown c)
    as c' eqn:E.
  clear E.
  constructor; unfold serving; rewrite ?Hf', ?Hn', ?Hs', ?Hf, ?map_app;
    simpl; destruct (waiting c) as [|next rest];
    destruct Hm as (Hl & Hw & Hr'); rewrite ?Hl, ?Hw, ?Hr', ?Hr; simpl;
    first [ lia
          | discriminate
          | intros _; split; reflexivity
          | rewrite <- Ho, <- ?app_assoc; simpl; rewrite ?app_nil_r;
            reflexivity ].
Qed.

(** A round that is served has the lock for itself. *)
Lemma serial_resuming c (round : nat) (rest : list nat) :
  serial c -> resuming c = round :: rest ->
  rest = [] /\ fetches c = [] /\
  map fst (settled c) ++ [round] ++ waiting c = seq 0 (rounds c).
Proof.
  intros [Ho Hs Hf Hh] Hr. unfold serving in *. rewrite Hr in *.
  simpl in Hs. rewrite length_app, length_map in Hs.
  destruct rest; [|simpl in Hs; lia].
  destruct (fetches c); [|simpl in Hs; lia].
  repeat split. exact Ho.
Qed.

Lemma serial_fetching c (i : nat) (fetch : Fetch) :
  serial c -> nth_error (fetches c) i = Some fetch ->
  i = 0 /\ fetches c = [fetch] /\ resuming c = [] /\
  map fst (settled c) ++ [fetch_round fetch] ++ waiting c =
  seq 0 (rounds c).
Proof.
  intros [Ho Hs Hf Hh] Hn. unfold serving in *.
  rewrite length_app, length_map in Hs.
  destruct (fetches c) as [|f [|f' fs]] eqn:E.
  - destruct i; discriminate.
  - destruct (resuming c); [|simpl in Hs; lia].
    destruct i as [|[|i]]; simpl in Hn; try discriminate.
    injection Hn as ->. repeat split. exact Ho.
  - simpl in Hs. lia.
Qed.

Lemma step_serial_rate a c c' :
  step TESTNET_TICKER_SYMBOLS FALL_BACK_VS_CURRENCY a c = Some c' ->
  serial c -> serial c'.
Proof.
  destruct a; simpl; intros Hstep Hc.
  - injection Hstep as <-. unfold start.
    apply updateExchangeRate_serial.
    apply (serial_ext c); auto.
  - injection Hstep as <-. apply (serial_ext c); auto.
  - injection Hstep as <-. unfold setCurrentCurrency.
    apply updateExchangeRate_serial. apply (serial_ext c); auto.
  - injection Hstep as <-. unfold setNativeCurrency.
    apply updateExchangeRate_serial. apply (serial_ext c); auto.
  - injection Hstep as <-. apply updateExchangeRate_serial. exact Hc.
  - destruct (resuming c) as [|round rest] eqn:Hr; [discriminate|].
    injection Hstep as <-.
    destruct (serial_resuming c round rest Hc Hr) as (-> & Hf & Ho).
    unfold updateExchangeRate_resume. simpl.
    destruct (_ && _).
    + destruct Hc as [Ho' Hs Hfree Hh].
      constructor; unfold serving in *; simpl; rewrite ?Hf, ?Hr in *;
        simpl in *; auto.
    + apply finally_serial; simpl; auto.
  - destruct (nth_error (fetches c) i) as [fetch|] eqn:Hn; [|discriminate].
    injection Hstep as <-.
    destruct (serial_fetching c i fetch Hc Hn) as (-> & Hf & Hr & Ho).
    unfold updateExchangeRate_continue.
    destruct r; apply finally_serial; simpl; rewrite ?Hf; auto.
Qed.

Lemma run_serial_rate (acts : list (Action Number)) :
  forall c c',
    run TESTNET_TICKER_SYMBOLS FALL_BACK_VS_CURRENCY acts c = Some c' ->
    serial c -> serial c'.
Proof.
  induction acts as [|a acts IH]; simpl; intros c c' Hrun Hc.
  - injection Hrun as <-. exact Hc.
  - destruct (step _ _ a c) as [c1|] eqn:Hstep; [|discriminate].
    exact (IH c1 c' Hrun (step_serial_rate a c c1 Hstep Hc)).
Qed.

Lemma reachable_serial_rate c :
  reachable TESTNET_TICKER_SYMBOLS FALL_BACK_VS_CURRENCY c -> serial c.
Proof.
  intros (s0 & usd & acts & Hrun).
  apply (run_serial_rate acts _ _ Hrun).
  constructor; simpl; auto. discriminate.
Qed.

(** While a call of [fetchExchangeRate] has not settled, nothing but its
    settlement touches it. *)
Lemma step_keeps_fetch a c c' (fetch : Fetch) :
  serial c -> fetches c = [fetch] -> is_settle a = false ->
  step TESTNET_TICKER_SYMBOLS FALL_BACK_VS_CURRENCY a c = Some c' ->
  fetches c' = [fetch].
Proof.
  intros Hc Hf Ha Hstep. destruct a; simpl in Hstep; try discriminate.
  - injection Hstep as <-. unfold start.
    destruct (updateExchangeRate_frame (set_enabled true c))
      as (_ & -> & _). exact Hf.
  - injection Hstep as <-. exact Hf.
  - injection Hstep as <-. unfold setCurrentCurrency.
    match goal with
    | |- context [updateExchangeRate ?c0] =>
        destruct (updateExchangeRate_frame c0) as (_ & -> & _)
    end.
    exact Hf.
  - injection Hstep as <-. unfold setNativeCurrency.
    match goal with
    | |- context [updateExchangeRate ?c0] =>
        destruct (updateExchangeRate_frame c0) as (_ & -> & _)
    end.
    exact Hf.
  - injection Hstep as <-.
    destruct (updateExchangeRate_frame c) as (_ & -> & _). exact Hf.
  - destruct (resuming c) as [|round rest] eqn:Hr; [discriminate|].
    destruct (serial_resuming c round rest Hc Hr) as (_ & Hnone & _).
    congruence.
Qed.

Lemma run_keeps_fetch (acts : list (Action Number)) (fetch : Fetch) :
  forall c c',
    serial c -> fetches c = [fetch] ->
    forallb (fun a => negb (is_settle a)) acts = true ->
    run TESTNET_TICKER_SYMBOLS FALL_BACK_VS_CURRENCY acts c = Some c' ->
    fetches c' = [fetch] /\ serial c'.
Proof.
  induction acts as [|a acts IH]; simpl; intros c c' Hc Hf Hacts Hrun.
  - injection Hrun as <-. split; assumption.
  - apply andb_true_iff in Hacts as [Ha Hacts].
    apply negb_true_iff in Ha.
    destruct (step _ _ a c) as [c1|] eqn:Hstep; [|discriminate].
    apply (IH c1 c'); auto.
    + exact (step_serial_rate a c c1 Hstep Hc).
    + exact (step_keeps_fetch a c c1 fetch Hc Hf Ha Hstep).
Qed.

(** X27. On every controller the program can hold, whatever was called
    and however the calls of [fetchExchangeRate] settled: at most one call
    of [fetchExchangeRate] has not settled; the rounds settled, the round
    served and the rounds waiting are, in this order, the rounds in the
    order of the calls that started them; the lock is free only when no
    round is served or waiting, and while it is held exactly one round is
    served. *)
Theorem rate_rounds_are_serial c :
  reachable TESTNET_TICKER_SYMBOLS FALL_BACK_VS_CURRENCY c ->
  List.length (fetches c) <= 1 /\
  map fst (settled c) ++ serving c ++ waiting c = seq 0 (rounds c) /\
  (locked c = false ->
   fetches c = [] /\ resuming c = [] /\ waiting c = []) /\
  (locked c = true -> List.length (serving c) = 1).
Proof.
  intros Hr. destruct (reachable_serial_rate c Hr) as [Ho Hs Hf Hh].
  split; [|split; [exact Ho|split]].
  - unfold serving in Hs. rewrite length_app, length_map in Hs. lia.
  - intros Hl. destruct (Hf Hl) as [H1 H2]. unfold serving in H1.
    apply app_eq_nil in H1 as [H1 H3]. apply map_eq_nil in H3.
    repeat split; assumption.
  - intros Hl. specialize (Hh Hl).
    destruct (serving c) as [|x [|y l]]; simpl in *;
      [congruence|reflexivity|lia].
Qed.

(** X28. A round that fetches leaves the state that the state it found
    when it resumed and the settlement of its call determine, whatever is
    called before the call settles: the currencies are the pending ones
    it found, or else the stored ones it found; both pending fields are
    empty, so that a currency set while the call was not settled is
    dropped; date and rates are those fetched, or all empty after a
    failure. The rate is fetched for the fallback currency when the
    native currency is a testnet ticker. The promise is rejected only
    after a failure that does not tell that the market does not exist,
    and is else fulfilled with the state left. *)
Theorem rate_round_outcome c c1 c2 (acts : list (Action Number)) :
  reachable TESTNET_TICKER_SYMBOLS FALL_BACK_VS_CURRENCY c ->
  step TESTNET_TICKER_SYMBOLS FALL_BACK_VS_CURRENCY Resume c = Some c1 ->
  fetches c1 <> [] ->
  forallb (fun a => negb (is_settle a)) acts = true ->
  run TESTNET_TICKER_SYMBOLS FALL_BACK_VS_CURRENCY acts c1 = Some c2 ->
  exists fetch,
    fetches c2 = [fetch] /\
    fetch_nativeCurrencyForExchangeRate fetch =
    (if existsb (String.eqb (fetch_nativeCurrency fetch))
          TESTNET_TICKER_SYMBOLS
     then FALL_BACK_VS_CURRENCY
     else fetch_nativeCurrency fetch) /\
    forall r,
    exists c3,
      step TESTNET_TICKER_SYMBOLS FALL_BACK_VS_CURRENCY (Settle 0 r) c2 =
      Some c3 /\
      state c3 = round_state (state c) r /\
      settled c3 =
      settled c2 ++ [(fetch_round fetch, round_settlement (state c3) r)] /\
      fetches c3 = [].
Proof.
  intros Hr Hstep Hsent Hacts Hrun.
  pose proof (reachable_serial_rate c Hr) as Hc.
  pose proof (step_serial_rate Resume c c1 Hstep Hc) as Hc1.
  simpl in Hstep.
  destruct (resuming c) as [|round rest] eqn:Hres; [discriminate|].
  destruct (serial_resuming c round rest Hc Hres) as (-> & Hf & _).
  injection Hstep as Hstep.
  unfold updateExchangeRate_resume in Hstep. simpl in Hstep.
  destruct (_ && _) eqn:Hcond.
  - rewrite Hf in Hstep. simpl in Hstep.
    match type of Hstep with
    | set_fetches [?f] _ = _ => set (fetch := f) in *
    end.
    assert (fetches c1 = [fetch]) as Hf1 by (rewrite <- Hstep; reflexivity).
    destruct (run_keeps_fetch acts fetch c1 c2 Hc1 Hf1 Hacts Hrun)
      as [Hf2 Hc2].
    exists fetch. split; [exact Hf2|]. split; [reflexivity|].
    intros r. simpl. rewrite Hf2. simpl.
    eexists. split; [reflexivity|].
    unfold updateExchangeRate_continue.
    destruct r as [response seconds|error];
      match goal with
      | |- context [updateExchangeRate_finally ?k ?d ?x ?u ?cu ?na ?th ?c0] =>
          destruct (finally_effect k d x u cu na th c0)
            as (Hs & Hfe & _ & Hset & _);
          remember (updateExchangeRate_finally k d x u cu na th c0)
            as c3 eqn:E3;
          clear E3
      end; rewrite Hset, Hfe, !Hs; simpl.
    + repeat split; reflexivity.
    + repeat split; try reflexivity.
      destruct (market_missing error); reflexivity.
  - exfalso. apply Hsent. rewrite <- Hstep.
    match goal with
    | |- context [updateExchangeRate_finally ?k ?d ?x ?u ?cu ?na ?th ?c0] =>
        destruct (finally_effect k d x u cu na th c0) as (_ & -> & _)
    end.
    simpl. exact Hf.
Qed.

(** X29. A round that finds the current or the native currency empty
    (the pending one, or else the stored one) fetches nothing: it sets
    date and rates to empty, stores the currencies it found, empties the
    pending fields, releases the lock and fulfils its promise with the
    state it leaves. A round that finds both currencies non-empty
    fetches, and changes nothing until the call has settled. *)
Theorem empty_currency_fetches_nothing c c1 (round : nat)
  (rest : list nat) :
  reachable TESTNET_TICKER_SYMBOLS FALL_BACK_VS_CURRENCY c ->
  resuming c = round :: rest ->
  step TESTNET_TICKER_SYMBOLS FALL_BACK_VS_CURRENCY Resume c = Some c1 ->
  let found := state c in
  let currentCurrency :=
    match pendingCurrentCurrency found with
    | Some pending => pending
    | None => currentCurrency found
    end in
  let nativeCurrency :=
    match pendingNativeCurrency found with
    | Some pending => pending
    | None => nativeCurrency found
    end in
  if String.eqb currentCurrency "" || String.eqb nativeCurrency ""
  then
    fetches c1 = [] /\
    state c1 =
    round_state found (Failed (mkThrown false "")) /\
    settled c1 = settled c ++ [(round, Fulfilled (state c1))] /\
    locked c1 = negb (match waiting c with [] => true | _ => false end)
  else
    fetches c1 =
    [mkFetch round currentCurrency nativeCurrency
       (if existsb (String.eqb nativeCurrency) TESTNET_TICKER_SYMBOLS
        then FALL_BACK_VS_CURRENCY
        else nativeCurrency) (includeUsdRate c)] /\
    state c1 = state c /\ settled c1 = settled c /\ locked c1 = true.
Proof.
  intros Hr Hres Hstep found currentCurrency nativeCurrency.
  pose proof (reachable_serial_rate c Hr) as Hc.
  destruct (serial_resuming c round rest Hc Hres) as (-> & Hf & _).
  assert (locked c = true) as Hl.
  { destruct (locked c) eqn:E; [reflexivity|].
    destruct Hc as [_ _ Hfree _]. destruct (Hfree E) as [H _].
    unfold serving in H. rewrite Hres in H. discriminate. }
  simpl in Hstep. rewrite Hres in Hstep. injection Hstep as <-.
  unfold updateExchangeRate_resume. simpl.
  fold found. fold currentCurrency. fold nativeCurrency.
  destruct (String.eqb currentCurrency ""); simpl.
  - unfold releaseLock. simpl.
    destruct (waiting c); simpl; rewrite ?Hf; repeat split; reflexivity.
  - destruct (String.eqb nativeCurrency ""); simpl.
    + unfold releaseLock. simpl.
      destruct (waiting c); simpl; rewrite ?Hf; repeat split; reflexivity.
    + rewrite Hf. repeat split; try reflexivity. exact Hl.
Qed.

End CurrencyRate_rounds.

(** ** The properties on a sample controller *)

Section CurrencyRate_samples.
Import CurrencyRate.

Lemma fetching_reachable : reachable ["GoerliETH"] "ETH" fetching.
Proof.
  exists defaultState, false, [Call_start; Resume]. reflexivity.
Qed.

Lemma rate_rounds_are_serial_witness :
  List.length (fetches fetching) <= 1 /\
  List.length (serving fetching) = 1.
Proof.
  destruct (rate_rounds_are_serial nat ["GoerliETH"] "ETH" fetching
              fetching_reachable) as (H1 & _ & _ & H2).
  split; [exact H1|]. apply H2. reflexivity.
Defined.

Lemma rate_round_outcome_witness :
  exists c3,
    step ["GoerliETH"] "ETH"
      (Settle 0 (Fetched (mkResponse (Some 2000) None) 17))
      (setCurrentCurrency "eur" fetching) = Some c3 /\
    pendingCurrentCurrency (state (setCurrentCurrency "eur" fetching)) =
    Some "eur" /\
    currentCurrency (state c3) = "usd" /\
    pendingCurrentCurrency (state c3) = None /\
    conversionRate (state c3) = Some 2000.
Proof.
  destruct (rate_round_outcome nat ["GoerliETH"] "ETH"
              (start (construct defaultState false)) fetching
              (setCurrentCurrency "eur" fetching)
              [Call_setCurrentCurrency "eur"])
    as (fetch & _ & _ & H).
  - exists defaultState, false, [Call_start]. reflexivity.
  - vm_compute. reflexivity.
  - vm_compute. discriminate.
  - reflexivity.
  - reflexivity.
  - destruct (H (Fetched (mkResponse (Some 2000) None) 17))
      as (c3 & Hstep & Hs & _).
    exists c3. split; [exact Hstep|]. split; [vm_compute; reflexivity|].
    rewrite Hs. repeat split; reflexivity.
Defined.

Lemma empty_currency_fetches_nothing_witness :
  fetches fetching =
  [mkFetch 0 "usd" "ETH" "ETH" false] /\
  state fetching = defaultState.
Proof.
  pose proof (empty_currency_fetches_nothing nat ["GoerliETH"] "ETH"
                (start (construct defaultState false)) fetching 0 []) as H.
  simpl in H. destruct H as (H1 & H2 & _).
  - exists defaultState, false, [Call_start]. reflexivity.
  - reflexivity.
  - reflexivity.
  - split; [exact H1|exact H2].
Defined.

End CurrencyRate_samples.
